(** * Alert-Monitor: the novelty-detection pipeline of [src/index.ts]

    A shallow embedding of the monitoring script (the current program of the
    file, with the four sources): the extraction of a JSON array from the
    agent's free text ([extrairJson]), the stable identifier of an item
    ([gerarIdEstavel]), and the reconciliation loops of [main] against the
    table [oportunidades], followed by the e-mail summary.

    - JavaScript strings are sequences of UTF-16 code units; values of type
      [any] are the values [JSON.parse] can build, plus [undefined].
    - Exceptions are results [Throw]; [try ... catch] is [try_catch].  The
      loops of [main] return the state reached together with the exception
      that ended them, since rows already inserted stay in the table.
    - The table is the list of its rows in insertion order; reads and writes
      of the database file are taken to succeed, except in [Store.main],
      where any awaited call of the store may reject.
    - What the run prints and what it hands to the mail transport is a list
      of events. *)

From Stdlib Require Import List NArith ZArith Lia Bool Ascii Relations.
From Stdlib Require String DecimalString.
Import ListNotations.
Import String.StringSyntax.
Delimit Scope string_scope with string.

Local Open Scope N_scope.

(* ================================================================== *)
(** ** JavaScript strings *)

Definition char16 := N.
Definition jsstring := list char16.

(** An ASCII literal of the source, as code units. *)
Definition lit (s : String.string) : jsstring :=
  map N_of_ascii (String.list_ascii_of_string s).
Arguments lit s%_string.

Fixpoint str_eqb (a b : jsstring) : bool :=
  match a, b with
  | [], [] => true
  | x :: a', y :: b' => N.eqb x y && str_eqb a' b'
  | _, _ => false
  end.

Definition in_range (lo hi c : char16) : bool := (lo <=? c) && (c <=? hi).

Definition is_digit (c : char16) : bool := in_range 48 57 c.
Definition is_lower_az (c : char16) : bool := in_range 97 122 c.
Definition is_upper_AZ (c : char16) : bool := in_range 65 90 c.
(** The class [a-z0-9] of the title regular expression. *)
Definition is_az09 (c : char16) : bool := is_lower_az c || is_digit c.
(** The class [\u0300-\u036f]: the combining diacritical marks. *)
Definition is_combining_mark (c : char16) : bool := in_range 768 879 c.

(** [s.replace(/[cls]/g, '')]: every code unit of the class is deleted. *)
Definition replace_class (cls : char16 -> bool) (s : jsstring) : jsstring :=
  filter (fun c => negb (cls c)) s.

(** [s.replace(/[^cls]/g, '')]: every code unit outside the class is deleted. *)
Definition replace_not_class (cls : char16 -> bool) (s : jsstring) : jsstring :=
  replace_class (fun c => negb (cls c)) s.

Fixpoint starts_with (pat s : jsstring) : bool :=
  match pat with
  | [] => true
  | p :: pat' =>
      match s with
      | [] => false
      | c :: s' => N.eqb p c && starts_with pat' s'
      end
  end.

(** [s.replace(/pat/g, '')] for a literal pattern: the matches are found left
    to right and do not overlap.  [skip] counts the code units of the current
    match that are still to be dropped. *)
Fixpoint replace_literal_from (pat : jsstring) (skip : nat) (s : jsstring) : jsstring :=
  match s with
  | [] => []
  | c :: s' =>
      match skip with
      | S k => replace_literal_from pat k s'
      | O =>
          match pat with
          | [] => c :: replace_literal_from pat O s'
          | _ :: pat' =>
              if starts_with pat s
              then replace_literal_from pat (length pat') s'
              else c :: replace_literal_from pat O s'
          end
      end
  end.

Definition replace_literal (pat s : jsstring) : jsstring :=
  replace_literal_from pat O s.

(** White space and line terminators removed by [String.prototype.trim]. *)
Definition is_js_space (c : char16) : bool :=
  in_range 9 13 c || N.eqb c 32 || N.eqb c 160 || N.eqb c 5760
  || in_range 8192 8202 c || N.eqb c 8232 || N.eqb c 8233 || N.eqb c 8239
  || N.eqb c 8287 || N.eqb c 12288 || N.eqb c 65279.

Fixpoint trim_start (s : jsstring) : jsstring :=
  match s with
  | c :: s' => if is_js_space c then trim_start s' else s
  | [] => []
  end.

Definition trim (s : jsstring) : jsstring :=
  rev (trim_start (rev (trim_start s))).

(** [s.indexOf(c)] for a one-character search string: [-1] when absent. *)
Fixpoint indexOf (c : char16) (s : jsstring) : Z :=
  match s with
  | [] => (-1)%Z
  | d :: s' =>
      if N.eqb d c then 0%Z
      else let i := indexOf c s' in
           if (i <? 0)%Z then (-1)%Z else (i + 1)%Z
  end.

(** [s.lastIndexOf(c)]: the position of the last occurrence, [-1] when absent. *)
Fixpoint lastIndexOf (c : char16) (s : jsstring) : Z :=
  match s with
  | [] => (-1)%Z
  | d :: s' =>
      let i := lastIndexOf c s' in
      if (i <? 0)%Z then (if N.eqb d c then 0%Z else (-1)%Z) else (i + 1)%Z
  end.

(** [s.substring(a, b)]: both indices are clamped to [0, length], and they are
    exchanged when the first is the larger. *)
Definition clamp_index (s : jsstring) (i : Z) : nat :=
  Nat.min (Z.to_nat i) (length s).

Definition substring (s : jsstring) (a b : Z) : jsstring :=
  let a' := clamp_index s a in
  let b' := clamp_index s b in
  let lo := Nat.min a' b' in
  let hi := Nat.max a' b' in
  firstn (hi - lo) (skipn lo s).

(* ================================================================== *)
(** ** Values of type [any] *)

(** A number is kept as the decimal its literal denotes,
    [(-1)^neg * mant * 10^exp]; the engine rounds it to binary64. *)
Record decimal := { dec_neg : bool; dec_mant : N; dec_exp : Z }.

#[local] Set Warnings "-register-all".

Inductive value :=
| VUndefined
| VNull
| VBool (b : bool)
| VNum (d : decimal)
| VStr (s : jsstring)
| VArr (items : list value)
| VObj (props : list (jsstring * value)).

(** The binary64 nearest to a decimal is a zero exactly when the decimal is at
    most [2^-1075] in magnitude (half the least subnormal, ties to even). *)
Definition rounds_to_zero (d : decimal) : bool :=
  if (0 <=? dec_exp d)%Z then N.eqb (dec_mant d) 0
  else (Z.of_N (dec_mant d) * 2 ^ 1075 <=? 10 ^ (- dec_exp d))%Z.

(** ToBoolean. *)
Definition truthy (v : value) : bool :=
  match v with
  | VUndefined | VNull => false
  | VBool b => b
  | VNum d => negb (rounds_to_zero d)
  | VStr s => match s with [] => false | _ => true end
  | VArr _ | VObj _ => true
  end.

Inductive exn := TypeError | SyntaxError | SqliteConstraint.

Inductive result (A : Type) :=
| Ok (a : A)
| Throw (e : exn).
Arguments Ok {A} a.
Arguments Throw {A} e.

Definition bind {A B : Type} (m : result A) (k : A -> result B) : result B :=
  match m with
  | Ok a => k a
  | Throw e => Throw e
  end.

Notation "x <- m ;; k" := (bind m (fun x => k))
  (at level 61, m at next level, right associativity).

(** [try { body } catch (e) { handler }]. *)
Definition try_catch {A : Type} (body : result A) (handler : exn -> result A) : result A :=
  match body with
  | Ok a => Ok a
  | Throw e => handler e
  end.

(** The own property [k] of an object built by [JSON.parse]: of two members
    with the same name the later one is kept. *)
Fixpoint lookup_prop (k : jsstring) (props : list (jsstring * value)) : option value :=
  match props with
  | [] => None
  | (k', v) :: rest =>
      match lookup_prop k rest with
      | Some w => Some w
      | None => if str_eqb k' k then Some v else None
      end
  end.

(** [v.k] for a name that no prototype defines ([titulo], [prazo]): reading a
    property of [undefined] or [null] throws, every other value answers
    [undefined] unless it is an object with that own property. *)
Definition get_prop (v : value) (k : jsstring) : result value :=
  match v with
  | VUndefined | VNull => Throw TypeError
  | VObj props =>
      Ok (match lookup_prop k props with Some w => w | None => VUndefined end)
  | VBool _ | VNum _ | VStr _ | VArr _ => Ok VUndefined
  end.

(** The code points a [for ... of] loop over a string yields: a high surrogate
    followed by a low one is a single item. *)
Fixpoint code_points (s : jsstring) : list jsstring :=
  match s with
  | [] => []
  | c :: s' =>
      match s' with
      | d :: s'' =>
          if in_range 55296 56319 c && in_range 56320 57343 d
          then match code_points s' with
               | _ :: rest => [c; d] :: rest
               | [] => [[c; d]]
               end
          else [c] :: code_points s'
      | [] => [[c]]
      end
  end.

(** The items of [for (const item of v)]: arrays and strings are iterable. *)
Definition iterate (v : value) : result (list value) :=
  match v with
  | VArr items => Ok items
  | VStr s => Ok (map VStr (code_points s))
  | _ => Throw TypeError
  end.

(* ================================================================== *)
(** ** [JSON.parse]

    The engine's parser, after the JSON grammar (ECMA-404): white space is
    tab, line feed, carriage return and space; a text is one value between
    optional white space. *)

Inductive parsed (A : Type) :=
| Parsed (a : A) (rest : jsstring)
| NoParse
| NoFuel.
Arguments Parsed {A} a rest.
Arguments NoParse {A}.
Arguments NoFuel {A}.

Definition is_json_ws (c : char16) : bool :=
  N.eqb c 9 || N.eqb c 10 || N.eqb c 13 || N.eqb c 32.

Fixpoint skip_ws (s : jsstring) : jsstring :=
  match s with
  | c :: s' => if is_json_ws c then skip_ws s' else s
  | [] => []
  end.

Fixpoint take_digits (s : jsstring) : jsstring * jsstring :=
  match s with
  | c :: s' =>
      if is_digit c
      then let (ds, r) := take_digits s' in (c :: ds, r)
      else ([], s)
  | [] => ([], [])
  end.

Definition digits_value (ds : jsstring) : N :=
  fold_left (fun acc c => acc * 10 + (c - 48)) ds 0.

(** int = 0 | [1-9][0-9]* *)
Definition parse_int (s : jsstring) : option (jsstring * jsstring) :=
  match s with
  | c :: t =>
      if N.eqb c 48 then Some ([c], t)
      else if in_range 49 57 c then Some (take_digits s)
      else None
  | [] => None
  end.

(** frac = . [0-9]+ *)
Definition parse_frac (s : jsstring) : option (jsstring * jsstring) :=
  match s with
  | c :: t =>
      if N.eqb c 46
      then match take_digits t with
           | ([], _) => None
           | (fs, r) => Some (fs, r)
           end
      else Some ([], s)
  | [] => Some ([], s)
  end.

Definition parse_exp_sign (s : jsstring) : bool * jsstring :=
  match s with
  | g :: u =>
      if N.eqb g 43 then (false, u)
      else if N.eqb g 45 then (true, u)
      else (false, s)
  | [] => (false, s)
  end.

(** exp = [eE] [+-]? [0-9]+ *)
Definition parse_exp (s : jsstring) : option (Z * jsstring) :=
  match s with
  | c :: t =>
      if N.eqb c 101 || N.eqb c 69
      then let (eneg, u) := parse_exp_sign t in
           match take_digits u with
           | ([], _) => None
           | (es, r) =>
               let e := Z.of_N (digits_value es) in
               Some (if eneg then (- e)%Z else e, r)
           end
      else Some (0%Z, s)
  | [] => Some (0%Z, s)
  end.

Definition parse_minus (s : jsstring) : bool * jsstring :=
  match s with
  | c :: t => if N.eqb c 45 then (true, t) else (false, s)
  | [] => (false, s)
  end.

(** number = [-]? int frac? exp? *)
Definition parse_number (s : jsstring) : option (decimal * jsstring) :=
  let (neg, s1) := parse_minus s in
  match parse_int s1 with
  | None => None
  | Some (ids, r1) =>
      match parse_frac r1 with
      | None => None
      | Some (fds, r2) =>
          match parse_exp r2 with
          | None => None
          | Some (e, r3) =>
              Some ({| dec_neg := neg;
                       dec_mant := digits_value (ids ++ fds);
                       dec_exp := (e - Z.of_nat (length fds))%Z |}, r3)
          end
      end
  end.

Definition hex_value (c : char16) : option N :=
  if is_digit c then Some (c - 48)
  else if in_range 97 102 c then Some (c - 87)
  else if in_range 65 70 c then Some (c - 55)
  else None.

Definition hex4 (a b c d : char16) : option char16 :=
  match hex_value a, hex_value b, hex_value c, hex_value d with
  | Some x, Some y, Some z, Some w => Some (((x * 16 + y) * 16 + z) * 16 + w)
  | _, _, _, _ => None
  end.

(** The character a two-character escape stands for. *)
Definition simple_escape (e : char16) : option char16 :=
  if N.eqb e 34 then Some 34          (* quote *)
  else if N.eqb e 92 then Some 92     (* backslash *)
  else if N.eqb e 47 then Some 47     (* slash *)
  else if N.eqb e 98 then Some 8      (* b *)
  else if N.eqb e 102 then Some 12    (* f *)
  else if N.eqb e 110 then Some 10    (* n *)
  else if N.eqb e 114 then Some 13    (* r *)
  else if N.eqb e 116 then Some 9     (* t *)
  else None.

Definition cons_char (c : char16) (r : option (jsstring * jsstring)) :
  option (jsstring * jsstring) :=
  match r with
  | Some (str, rest) => Some (c :: str, rest)
  | None => None
  end.

(** The characters of a string literal after its opening quote, up to and
    including the closing quote. *)
Fixpoint parse_string_chars (s : jsstring) : option (jsstring * jsstring) :=
  match s with
  | [] => None
  | c :: s' =>
      if N.eqb c 34 then Some ([], s')
      else if N.eqb c 92 then
        match s' with
        | [] => None
        | e :: s'' =>
            if N.eqb e 117 then
              match s'' with
              | h1 :: h2 :: h3 :: h4 :: s3 =>
                  match hex4 h1 h2 h3 h4 with
                  | Some u => cons_char u (parse_string_chars s3)
                  | None => None
                  end
              | _ => None
              end
            else
              match simple_escape e with
              | Some x => cons_char x (parse_string_chars s'')
              | None => None
              end
        end
      else if c <? 32 then None
      else cons_char c (parse_string_chars s')
  end.

Definition map_parsed {A B : Type} (f : A -> B) (p : parsed A) : parsed B :=
  match p with
  | Parsed a r => Parsed (f a) r
  | NoParse => NoParse
  | NoFuel => NoFuel
  end.

Fixpoint parse_value (fuel : nat) (s : jsstring) : parsed value :=
  match fuel with
  | O => NoFuel
  | S f =>
      match s with
      | [] => NoParse
      | c :: s' =>
          if N.eqb c 91 then
            match skip_ws s' with
            | [] => NoParse
            | d :: r =>
                if N.eqb d 93 then Parsed (VArr []) r
                else map_parsed VArr (parse_elements f (d :: r))
            end
          else if N.eqb c 123 then
            match skip_ws s' with
            | [] => NoParse
            | d :: r =>
                if N.eqb d 125 then Parsed (VObj []) r
                else map_parsed VObj (parse_members f (d :: r))
            end
          else if N.eqb c 34 then
            match parse_string_chars s' with
            | Some (str, r) => Parsed (VStr str) r
            | None => NoParse
            end
          else if starts_with (lit "true") s then Parsed (VBool true) (skipn 4 s)
          else if starts_with (lit "false") s then Parsed (VBool false) (skipn 5 s)
          else if starts_with (lit "null") s then Parsed VNull (skipn 4 s)
          else
            match parse_number s with
            | Some (d, r) => Parsed (VNum d) r
            | None => NoParse
            end
      end
  end
with parse_elements (fuel : nat) (s : jsstring) : parsed (list value) :=
  match fuel with
  | O => NoFuel
  | S f =>
      match parse_value f s with
      | Parsed v r =>
          match skip_ws r with
          | [] => NoParse
          | c :: r' =>
              if N.eqb c 44
              then map_parsed (cons v) (parse_elements f (skip_ws r'))
              else if N.eqb c 93 then Parsed [v] r'
              else NoParse
          end
      | NoParse => NoParse
      | NoFuel => NoFuel
      end
  end
with parse_members (fuel : nat) (s : jsstring) : parsed (list (jsstring * value)) :=
  match fuel with
  | O => NoFuel
  | S f =>
      match s with
      | [] => NoParse
      | q :: s' =>
          if N.eqb q 34 then
            match parse_string_chars s' with
            | None => NoParse
            | Some (k, r) =>
                match skip_ws r with
                | [] => NoParse
                | c :: r' =>
                    if N.eqb c 58 then
                      match parse_value f (skip_ws r') with
                      | Parsed v r2 =>
                          match skip_ws r2 with
                          | [] => NoParse
                          | c2 :: r3 =>
                              if N.eqb c2 44
                              then map_parsed (cons (k, v))
                                     (parse_members f (skip_ws r3))
                              else if N.eqb c2 125 then Parsed [(k, v)] r3
                              else NoParse
                          end
                      | NoParse => NoParse
                      | NoFuel => NoFuel
                      end
                    else NoParse
                end
            end
          else NoParse
      end
  end.

(** Fuel that the descent never exhausts (lemmas [parse_fuel_enough] and
    [JSON_parse_fuel]). *)
Definition parse_fuel (s : jsstring) : nat := 2 * length s + 1.

(** [JSON.parse(s)]: [None] stands for the [SyntaxError] it throws. *)
Definition JSON_parse (s : jsstring) : option value :=
  match parse_value (parse_fuel s) (skip_ws s) with
  | Parsed v r => match skip_ws r with [] => Some v | _ :: _ => None end
  | NoParse => None
  | NoFuel => None
  end.

(* ================================================================== *)
(** ** Unicode operations of the engine

    [String.prototype.toLowerCase] and [String.prototype.normalize('NFD')] are
    driven by the Unicode character database of the engine; the development is
    parametric in them. *)

Class UnicodeOps := {
  toLowerCase : jsstring -> jsstring;
  normalizeNFD : jsstring -> jsstring
}.

(* ================================================================== *)
(** ** [extrairJson] *)

Definition fence_json : jsstring := lit "```json".
Definition fence : jsstring := lit "```".
Definition lbracket : char16 := 91.
Definition rbracket : char16 := 93.

(** [text.replace(/```json/g, '').replace(/```/g, '').trim()] *)
Definition strip_fences (text : jsstring) : jsstring :=
  trim (replace_literal fence (replace_literal fence_json text)).

(** The body of the [try] block.  The [console.error] of the [catch] block
    writes a diagnostic and has no part in the value returned. *)
Definition extrairJson_try (text : jsstring) : result value :=
  let limpo := strip_fences text in
  let inicio := indexOf lbracket limpo in
  let fim := lastIndexOf rbracket limpo in
  if (inicio =? -1)%Z || (fim =? -1)%Z then Ok (VArr [])
  else
    let limpo := substring limpo inicio (fim + 1) in
    match JSON_parse limpo with
    | Some v => Ok v
    | None => Throw SyntaxError
    end.

Definition extrairJson (text : jsstring) : result value :=
  try_catch (extrairJson_try text) (fun _ => Ok (VArr [])).

(** [consultarGemini]: the agent's answer is [None] when the request fails or
    the response carries no text; the function then returns an empty array. *)
Definition consultarGemini (answer : option jsstring) : result value :=
  match answer with
  | Some text =>
      match text with
      | [] => Ok (VArr [])
      | _ :: _ => try_catch (extrairJson text) (fun _ => Ok (VArr []))
      end
  | None => Ok (VArr [])
  end.

(* ================================================================== *)
(** ** [gerarIdEstavel] *)

(** [titulo.toLowerCase().normalize('NFD').replace(/[\u0300-\u036f]/g, '')
    .replace(/[^a-z0-9]/g, '')] *)
Definition tituloLimpo `{UnicodeOps} (titulo : jsstring) : jsstring :=
  replace_not_class is_az09
    (replace_class is_combining_mark (normalizeNFD (toLowerCase titulo))).

(** [prazo ? prazo.replace(/[^0-9]/g, '') : '0000'].  The arguments come from
    parsed JSON: a method call on a value that is not a string throws. *)
Definition slugPrazo (prazo : value) : result jsstring :=
  if truthy prazo
  then match prazo with
       | VStr p => Ok (replace_not_class is_digit p)
       | _ => Throw TypeError
       end
  else Ok (lit "0000").

Definition gerarIdEstavel `{UnicodeOps}
  (fonteNome : jsstring) (titulo prazo : value) : result jsstring :=
  match titulo with
  | VStr t =>
      let slugTitulo := substring (tituloLimpo t) 0 60 in
      sp <- slugPrazo prazo ;;
      Ok (fonteNome ++ lit "-" ++ slugTitulo ++ lit "-" ++ sp)
  | _ => Throw TypeError
  end.

(* ================================================================== *)
(** ** The table [oportunidades] and the run *)

Record Fonte := { nome : jsstring; url : jsstring; cor : jsstring }.

Definition FONTE_IPEA : Fonte :=
  {| nome := lit "IPEA";
     url := lit "https://www.ipea.gov.br/portal/bolsas-de-pesquisa";
     cor := lit "#2980b9" |}.
Definition FONTE_FNP : Fonte :=
  {| nome := lit "FNP";
     url := lit "https://fnp.org.br/transparencia/documentos?cat=37";
     cor := lit "#e67e22" |}.
Definition FONTE_UNDP : Fonte :=
  {| nome := lit "UNDP";
     url := lit "https://parceiros.undp.org.br/opportunities";
     cor := lit "#27ae60" |}.
Definition FONTE_ICLEI : Fonte :=
  {| nome := lit "ICLEI";
     url := lit "https://americadosul.iclei.org/trabalhe-conosco/?cat=15";
     cor := lit "#8e44ad" |}.

(** A row of [oportunidades (id TEXT PRIMARY KEY, projeto, prazo, fonte)];
    the column [data_detectada] is filled in by the database. *)
Record Row := {
  row_id : jsstring;
  row_projeto : value;
  row_prazo : value;
  row_fonte : jsstring
}.

Definition Table := list Row.

(** [db.get('SELECT id FROM oportunidades WHERE id = ?', id)] *)
Definition db_get (db : Table) (id : jsstring) : option Row :=
  find (fun r => str_eqb (row_id r) id) db.

(** [db.run('INSERT INTO oportunidades ...')]: the primary key rejects a
    second row with the same id. *)
Definition db_run_insert (db : Table) (r : Row) : result Table :=
  match db_get db (row_id r) with
  | Some _ => Throw SqliteConstraint
  | None => Ok (db ++ [r])
  end.

Record Oportunidade := {
  id_unico : jsstring;
  op_titulo : value;
  op_prazo : value;
  fonte_nome : jsstring;
  fonte_url : jsstring;
  op_cor : jsstring
}.

(** What the run writes to the console and hands to the mail transport. *)
Inductive Event :=
| LogDetectado (fonte : jsstring) (titulo60 : jsstring)
| LogEnviando (n : nat)
| LogNenhumaAlteracao
| SendMail (to : jsstring) (itens : list Oportunidade)
| LogEmailEnviado
| LogErroEmail.

Record State := {
  db : Table;
  novasOportunidades : list Oportunidade;
  console : list Event
}.

(** The state at the start of [main]: the table as the last run left it, and
    [novasOportunidades = []]. *)
Definition initial_state (db0 : Table) : State :=
  {| db := db0; novasOportunidades := []; console := [] |}.

(** The body of the inner loop for one [item] of [grupo.dados]. *)
Definition process_item `{UnicodeOps} (fonte : Fonte) (st : State) (item : value)
  : result State :=
  titulo <- get_prop item (lit "titulo") ;;
  if negb (truthy titulo) then Ok st
  else
    prazo <- get_prop item (lit "prazo") ;;
    idUnico <- gerarIdEstavel (nome fonte) titulo prazo ;;
    match db_get (db st) idUnico with
    | Some _ => Ok st
    | None =>
        let shown := match titulo with
                     | VStr t => substring t 0 60
                     | _ => []
                     end in
        db' <- db_run_insert (db st)
                 {| row_id := idUnico; row_projeto := titulo;
                    row_prazo := prazo; row_fonte := nome fonte |} ;;
        Ok {| db := db';
              novasOportunidades :=
                novasOportunidades st ++
                [{| id_unico := idUnico; op_titulo := titulo; op_prazo := prazo;
                    fonte_nome := nome fonte; fonte_url := url fonte;
                    op_cor := cor fonte |}];
              console := console st ++ [LogDetectado (nome fonte) shown] |}
    end.

(** [for (const item of grupo.dados) { ... }]: an exception leaves the loop;
    the rows inserted before it stay in the table. *)
Fixpoint for_items `{UnicodeOps} (fonte : Fonte) (items : list value) (st : State)
  : State * option exn :=
  match items with
  | [] => (st, None)
  | item :: rest =>
      match process_item fonte st item with
      | Ok st' => for_items fonte rest st'
      | Throw e => (st, Some e)
      end
  end.

(** [for (const grupo of todosResultados) { ... }] *)
Fixpoint for_grupos `{UnicodeOps} (grupos : list (Fonte * value)) (st : State)
  : State * option exn :=
  match grupos with
  | [] => (st, None)
  | (fonte, dados) :: rest =>
      match iterate dados with
      | Throw e => (st, Some e)
      | Ok items =>
          match for_items fonte items st with
          | (st', None) => for_grupos rest st'
          | (st', Some e) => (st', Some e)
          end
      end
  end.

(** The environment of the process: the mail settings, and whether the
    transport accepts the message. *)
Record Env := {
  EMAIL_USER : option jsstring;
  EMAIL_TO : option jsstring;
  sendMail_ok : bool
}.

Definition env_set (v : option jsstring) : bool :=
  match v with
  | Some (_ :: _) => true
  | _ => false
  end.

(** [enviarEmailResumo]: the events of one call. *)
Definition enviarEmailResumo (env : Env) (oportunidades : list Oportunidade)
  : list Event :=
  if negb (env_set (EMAIL_USER env)) || negb (env_set (EMAIL_TO env)) then []
  else
    [SendMail (match EMAIL_TO env with Some a => a | None => [] end) oportunidades;
     if sendMail_ok env then LogEmailEnviado else LogErroEmail].

(** The end of [main], after the loops: [if (novasOportunidades.length > 0)]. *)
Definition notify (env : Env) (novas : list Oportunidade) : list Event :=
  if (0 <? length novas)%nat
  then LogEnviando (length novas) :: enviarEmailResumo env novas
  else [LogNenhumaAlteracao].

Definition todosResultados (dadosIPEA dadosFNP dadosUNDP dadosICLEI : value)
  : list (Fonte * value) :=
  [(FONTE_IPEA, dadosIPEA); (FONTE_FNP, dadosFNP);
   (FONTE_UNDP, dadosUNDP); (FONTE_ICLEI, dadosICLEI)].

(** One run over consolidated results: the table and the console at the end,
    and the exception that ended the run early, if any. *)
Definition run `{UnicodeOps} (env : Env) (grupos : list (Fonte * value)) (db0 : Table)
  : Table * list Event * option exn :=
  match for_grupos grupos (initial_state db0) with
  | (st, None) => (db st, console st ++ notify env (novasOportunidades st), None)
  | (st, Some e) => (db st, console st, Some e)
  end.

(** [main]: the four agent answers, in the order of the requests.  The
    progress lines written before each request are not part of the trace.
    The store does what it is asked: [initDB] has opened the table [db0],
    and no awaited call rejects; [Store.main] below is [main] with a store
    that can fail. *)
Definition main `{UnicodeOps} (env : Env) (ipea fnp undp iclei : option jsstring)
  (db0 : Table) : Table * list Event * option exn :=
  match (dadosIPEA <- consultarGemini ipea ;;
         dadosFNP <- consultarGemini fnp ;;
         dadosUNDP <- consultarGemini undp ;;
         dadosICLEI <- consultarGemini iclei ;;
         Ok (todosResultados dadosIPEA dadosFNP dadosUNDP dadosICLEI)) with
  | Ok grupos => run env grupos db0
  | Throw e => (db0, [], Some e)
  end.

(* ================================================================== *)
(** ** Basic Latin and Latin-1 text

    The case mapping and the canonical decompositions of the code units below
    U+0100, from the Unicode character database. *)

Definition lower1 (c : char16) : char16 :=
  if is_upper_AZ c || (in_range 192 222 c && negb (N.eqb c 215)) then c + 32 else c.

(** Precomposed letter, base letter, combining mark. *)
Definition latin1_decompositions : list (char16 * (char16 * char16)) :=
  [ (192, (65, 768)); (193, (65, 769)); (194, (65, 770)); (195, (65, 771));
    (196, (65, 776)); (197, (65, 778)); (199, (67, 807)); (200, (69, 768));
    (201, (69, 769)); (202, (69, 770)); (203, (69, 776)); (204, (73, 768));
    (205, (73, 769)); (206, (73, 770)); (207, (73, 776)); (209, (78, 771));
    (210, (79, 768)); (211, (79, 769)); (212, (79, 770)); (213, (79, 771));
    (214, (79, 776)); (217, (85, 768)); (218, (85, 769)); (219, (85, 770));
    (220, (85, 776)); (221, (89, 769)); (224, (97, 768)); (225, (97, 769));
    (226, (97, 770)); (227, (97, 771)); (228, (97, 776)); (229, (97, 778));
    (231, (99, 807)); (232, (101, 768)); (233, (101, 769)); (234, (101, 770));
    (235, (101, 776)); (236, (105, 768)); (237, (105, 769)); (238, (105, 770));
    (239, (105, 776)); (241, (110, 771)); (242, (111, 768)); (243, (111, 769));
    (244, (111, 770)); (245, (111, 771)); (246, (111, 776)); (249, (117, 768));
    (250, (117, 769)); (251, (117, 770)); (252, (117, 776)); (253, (121, 769));
    (255, (121, 776)) ].

Definition decomposition (c : char16) : option (char16 * char16) :=
  match find (fun e => N.eqb (fst e) c) latin1_decompositions with
  | Some (_, d) => Some d
  | None => None
  end.

Definition decomp1 (c : char16) : jsstring :=
  match decomposition c with
  | Some (base, mark) => [base; mark]
  | None => [c]
  end.

(** An instance that agrees with the engine on Basic Latin and Latin-1 text. *)
Definition Latin1Ops : UnicodeOps :=
  {| toLowerCase := map lower1; normalizeNFD := flat_map decomp1 |}.

(* ================================================================== *)
(** ** Unicode character data

    Lowercase mappings, canonical decompositions and general categories, from
    the Unicode Character Database, version 14.0.0.  Characters of the Basic
    Multilingual Plane are given by their code unit, mappings as UTF-16. *)

(** Lowercase_Mapping, for every code unit that has one (UnicodeData.txt, and
    the unconditional mapping of U+0130 of SpecialCasing.txt). *)
Definition ucd_lowercase : list (char16 * jsstring) :=
    [(65, [97]); (66, [98]); (67, [99]); (68, [100]); (69, [101]); (70, [102]); (71, [103]);
     (72, [104]); (73, [105]); (74, [106]); (75, [107]); (76, [108]); (77, [109]); (78, [110]);
     (79, [111]); (80, [112]); (81, [113]); (82, [114]); (83, [115]); (84, [116]); (85, [117]);
     (86, [118]); (87, [119]); (88, [120]); (89, [121]); (90, [122]); (192, [224]); (193, [225]);
     (194, [226]); (195, [227]); (196, [228]); (197, [229]); (198, [230]); (199, [231]);
     (200, [232]); (201, [233]); (202, [234]); (203, [235]); (204, [236]); (205, [237]);
     (206, [238]); (207, [239]); (208, [240]); (209, [241]); (210, [242]); (211, [243]);
     (212, [244]); (213, [245]); (214, [246]); (216, [248]); (217, [249]); (218, [250]);
     (219, [251]); (220, [252]); (221, [253]); (222, [254]); (256, [257]); (258, [259]);
     (260, [261]); (262, [263])]
  ++
    [(264, [265]); (266, [267]); (268, [269]); (270, [271]); (272, [273]); (274, [275]);
     (276, [277]); (278, [279]); (280, [281]); (282, [283]); (284, [285]); (286, [287]);
     (288, [289]); (290, [291]); (292, [293]); (294, [295]); (296, [297]); (298, [299]);
     (300, [301]); (302, [303]); (304, [105; 775]); (306, [307]); (308, [309]); (310, [311]);
     (313, [314]); (315, [316]); (317, [318]); (319, [320]); (321, [322]); (323, [324]);
     (325, [326]); (327, [328]); (330, [331]); (332, [333]); (334, [335]); (336, [337]);
     (338, [339]); (340, [341]); (342, [343]); (344, [345]); (346, [347]); (348, [349]);
     (350, [351]); (352, [353]); (354, [355]); (356, [357]); (358, [359]); (360, [361]);
     (362, [363]); (364, [365]); (366, [367]); (368, [369]); (370, [371]); (372, [373]);
     (374, [375]); (376, [255]); (377, [378]); (379, [380]); (381, [382]); (385, [595])]
  ++
    [(386, [387]); (388, [389]); (390, [596]); (391, [392]); (393, [598]); (394, [599]);
     (395, [396]); (398, [477]); (399, [601]); (400, [603]); (401, [402]); (403, [608]);
     (404, [611]); (406, [617]); (407, [616]); (408, [409]); (412, [623]); (413, [626]);
     (415, [629]); (416, [417]); (418, [419]); (420, [421]); (422, [640]); (423, [424]);
     (425, [643]); (428, [429]); (430, [648]); (431, [432]); (433, [650]); (434, [651]);
     (435, [436]); (437, [438]); (439, [658]); (440, [441]); (444, [445]); (452, [454]);
     (453, [454]); (455, [457]); (456, [457]); (458, [460]); (459, [460]); (461, [462]);
     (463, [464]); (465, [466]); (467, [468]); (469, [470]); (471, [472]); (473, [474]);
     (475, [476]); (478, [479]); (480, [481]); (482, [483]); (484, [485]); (486, [487]);
     (488, [489]); (490, [491]); (492, [493]); (494, [495]); (497, [499]); (498, [499])]
  ++
    [(500, [501]); (502, [405]); (503, [447]); (504, [505]); (506, [507]); (508, [509]);
     (510, [511]); (512, [513]); (514, [515]); (516, [517]); (518, [519]); (520, [521]);
     (522, [523]); (524, [525]); (526, [527]); (528, [529]); (530, [531]); (532, [533]);
     (534, [535]); (536, [537]); (538, [539]); (540, [541]); (542, [543]); (544, [414]);
     (546, [547]); (548, [549]); (550, [551]); (552, [553]); (554, [555]); (556, [557]);
     (558, [559]); (560, [561]); (562, [563]); (570, [11365]); (571, [572]); (573, [410]);
     (574, [11366]); (577, [578]); (579, [384]); (580, [649]); (581, [652]); (582, [583]);
     (584, [585]); (586, [587]); (588, [589]); (590, [591]); (880, [881]); (882, [883]);
     (886, [887]); (895, [1011]); (902, [940]); (904, [941]); (905, [942]); (906, [943]);
     (908, [972]); (910, [973]); (911, [974]); (913, [945]); (914, [946]); (915, [947])]
  ++
    [(916, [948]); (917, [949]); (918, [950]); (919, [951]); (920, [952]); (921, [953]);
     (922, [954]); (923, [955]); (924, [956]); (925, [957]); (926, [958]); (927, [959]);
     (928, [960]); (929, [961]); (931, [963]); (932, [964]); (933, [965]); (934, [966]);
     (935, [967]); (936, [968]); (937, [969]); (938, [970]); (939, [971]); (975, [983]);
     (984, [985]); (986, [987]); (988, [989]); (990, [991]); (992, [993]); (994, [995]);
     (996, [997]); (998, [999]); (1000, [1001]); (1002, [1003]); (1004, [1005]); (1006, [1007]);
     (1012, [952]); (1015, [1016]); (1017, [1010]); (1018, [1019]); (1021, [891]); (1022, [892]);
     (1023, [893]); (1024, [1104]); (1025, [1105]); (1026, [1106]); (1027, [1107]);
     (1028, [1108]); (1029, [1109]); (1030, [1110]); (1031, [1111]); (1032, [1112]);
     (1033, [1113]); (1034, [1114]); (1035, [1115]); (1036, [1116]); (1037, [1117]);
     (1038, [1118]); (1039, [1119]); (1040, [1072])]
  ++
    [(1041, [1073]); (1042, [1074]); (1043, [1075]); (1044, [1076]); (1045, [1077]);
     (1046, [1078]); (1047, [1079]); (1048, [1080]); (1049, [1081]); (1050, [1082]);
     (1051, [1083]); (1052, [1084]); (1053, [1085]); (1054, [1086]); (1055, [1087]);
     (1056, [1088]); (1057, [1089]); (1058, [1090]); (1059, [1091]); (1060, [1092]);
     (1061, [1093]); (1062, [1094]); (1063, [1095]); (1064, [1096]); (1065, [1097]);
     (1066, [1098]); (1067, [1099]); (1068, [1100]); (1069, [1101]); (1070, [1102]);
     (1071, [1103]); (1120, [1121]); (1122, [1123]); (1124, [1125]); (1126, [1127]);
     (1128, [1129]); (1130, [1131]); (1132, [1133]); (1134, [1135]); (1136, [1137]);
     (1138, [1139]); (1140, [1141]); (1142, [1143]); (1144, [1145]); (1146, [1147]);
     (1148, [1149]); (1150, [1151]); (1152, [1153]); (1162, [1163]); (1164, [1165]);
     (1166, [1167]); (1168, [1169]); (1170, [1171]); (1172, [1173]); (1174, [1175]);
     (1176, [1177]); (1178, [1179]); (1180, [1181]); (1182, [1183]); (1184, [1185])]
  ++
    [(1186, [1187]); (1188, [1189]); (1190, [1191]); (1192, [1193]); (1194, [1195]);
     (1196, [1197]); (1198, [1199]); (1200, [1201]); (1202, [1203]); (1204, [1205]);
     (1206, [1207]); (1208, [1209]); (1210, [1211]); (1212, [1213]); (1214, [1215]);
     (1216, [1231]); (1217, [1218]); (1219, [1220]); (1221, [1222]); (1223, [1224]);
     (1225, [1226]); (1227, [1228]); (1229, [1230]); (1232, [1233]); (1234, [1235]);
     (1236, [1237]); (1238, [1239]); (1240, [1241]); (1242, [1243]); (1244, [1245]);
     (1246, [1247]); (1248, [1249]); (1250, [1251]); (1252, [1253]); (1254, [1255]);
     (1256, [1257]); (1258, [1259]); (1260, [1261]); (1262, [1263]); (1264, [1265]);
     (1266, [1267]); (1268, [1269]); (1270, [1271]); (1272, [1273]); (1274, [1275]);
     (1276, [1277]); (1278, [1279]); (1280, [1281]); (1282, [1283]); (1284, [1285]);
     (1286, [1287]); (1288, [1289]); (1290, [1291]); (1292, [1293]); (1294, [1295]);
     (1296, [1297]); (1298, [1299]); (1300, [1301]); (1302, [1303]); (1304, [1305])]
  ++
    [(1306, [1307]); (1308, [1309]); (1310, [1311]); (1312, [1313]); (1314, [1315]);
     (1316, [1317]); (1318, [1319]); (1320, [1321]); (1322, [1323]); (1324, [1325]);
     (1326, [1327]); (1329, [1377]); (1330, [1378]); (1331, [1379]); (1332, [1380]);
     (1333, [1381]); (1334, [1382]); (1335, [1383]); (1336, [1384]); (1337, [1385]);
     (1338, [1386]); (1339, [1387]); (1340, [1388]); (1341, [1389]); (1342, [1390]);
     (1343, [1391]); (1344, [1392]); (1345, [1393]); (1346, [1394]); (1347, [1395]);
     (1348, [1396]); (1349, [1397]); (1350, [1398]); (1351, [1399]); (1352, [1400]);
     (1353, [1401]); (1354, [1402]); (1355, [1403]); (1356, [1404]); (1357, [1405]);
     (1358, [1406]); (1359, [1407]); (1360, [1408]); (1361, [1409]); (1362, [1410]);
     (1363, [1411]); (1364, [1412]); (1365, [1413]); (1366, [1414]); (4256, [11520]);
     (4257, [11521]); (4258, [11522]); (4259, [11523]); (4260, [11524]); (4261, [11525]);
     (4262, [11526]); (4263, [11527]); (4264, [11528]); (4265, [11529]); (4266, [11530])]
  ++
    [(4267, [11531]); (4268, [11532]); (4269, [11533]); (4270, [11534]); (4271, [11535]);
     (4272, [11536]); (4273, [11537]); (4274, [11538]); (4275, [11539]); (4276, [11540]);
     (4277, [11541]); (4278, [11542]); (4279, [11543]); (4280, [11544]); (4281, [11545]);
     (4282, [11546]); (4283, [11547]); (4284, [11548]); (4285, [11549]); (4286, [11550]);
     (4287, [11551]); (4288, [11552]); (4289, [11553]); (4290, [11554]); (4291, [11555]);
     (4292, [11556]); (4293, [11557]); (4295, [11559]); (4301, [11565]); (5024, [43888]);
     (5025, [43889]); (5026, [43890]); (5027, [43891]); (5028, [43892]); (5029, [43893]);
     (5030, [43894]); (5031, [43895]); (5032, [43896]); (5033, [43897]); (5034, [43898]);
     (5035, [43899]); (5036, [43900]); (5037, [43901]); (5038, [43902]); (5039, [43903]);
     (5040, [43904]); (5041, [43905]); (5042, [43906]); (5043, [43907]); (5044, [43908]);
     (5045, [43909]); (5046, [43910]); (5047, [43911]); (5048, [43912]); (5049, [43913]);
     (5050, [43914]); (5051, [43915]); (5052, [43916]); (5053, [43917]); (5054, [43918])]
  ++
    [(5055, [43919]); (5056, [43920]); (5057, [43921]); (5058, [43922]); (5059, [43923]);
     (5060, [43924]); (5061, [43925]); (5062, [43926]); (5063, [43927]); (5064, [43928]);
     (5065, [43929]); (5066, [43930]); (5067, [43931]); (5068, [43932]); (5069, [43933]);
     (5070, [43934]); (5071, [43935]); (5072, [43936]); (5073, [43937]); (5074, [43938]);
     (5075, [43939]); (5076, [43940]); (5077, [43941]); (5078, [43942]); (5079, [43943]);
     (5080, [43944]); (5081, [43945]); (5082, [43946]); (5083, [43947]); (5084, [43948]);
     (5085, [43949]); (5086, [43950]); (5087, [43951]); (5088, [43952]); (5089, [43953]);
     (5090, [43954]); (5091, [43955]); (5092, [43956]); (5093, [43957]); (5094, [43958]);
     (5095, [43959]); (5096, [43960]); (5097, [43961]); (5098, [43962]); (5099, [43963]);
     (5100, [43964]); (5101, [43965]); (5102, [43966]); (5103, [43967]); (5104, [5112]);
     (5105, [5113]); (5106, [5114]); (5107, [5115]); (5108, [5116]); (5109, [5117]);
     (7312, [4304]); (7313, [4305]); (7314, [4306]); (7315, [4307]); (7316, [4308])]
  ++
    [(7317, [4309]); (7318, [4310]); (7319, [4311]); (7320, [4312]); (7321, [4313]);
     (7322, [4314]); (7323, [4315]); (7324, [4316]); (7325, [4317]); (7326, [4318]);
     (7327, [4319]); (7328, [4320]); (7329, [4321]); (7330, [4322]); (7331, [4323]);
     (7332, [4324]); (7333, [4325]); (7334, [4326]); (7335, [4327]); (7336, [4328]);
     (7337, [4329]); (7338, [4330]); (7339, [4331]); (7340, [4332]); (7341, [4333]);
     (7342, [4334]); (7343, [4335]); (7344, [4336]); (7345, [4337]); (7346, [4338]);
     (7347, [4339]); (7348, [4340]); (7349, [4341]); (7350, [4342]); (7351, [4343]);
     (7352, [4344]); (7353, [4345]); (7354, [4346]); (7357, [4349]); (7358, [4350]);
     (7359, [4351]); (7680, [7681]); (7682, [7683]); (7684, [7685]); (7686, [7687]);
     (7688, [7689]); (7690, [7691]); (7692, [7693]); (7694, [7695]); (7696, [7697]);
     (7698, [7699]); (7700, [7701]); (7702, [7703]); (7704, [7705]); (7706, [7707]);
     (7708, [7709]); (7710, [7711]); (7712, [7713]); (7714, [7715]); (7716, [7717])]
  ++
    [(7718, [7719]); (7720, [7721]); (7722, [7723]); (7724, [7725]); (7726, [7727]);
     (7728, [7729]); (7730, [7731]); (7732, [7733]); (7734, [7735]); (7736, [7737]);
     (7738, [7739]); (7740, [7741]); (7742, [7743]); (7744, [7745]); (7746, [7747]);
     (7748, [7749]); (7750, [7751]); (7752, [7753]); (7754, [7755]); (7756, [7757]);
     (7758, [7759]); (7760, [7761]); (7762, [7763]); (7764, [7765]); (7766, [7767]);
     (7768, [7769]); (7770, [7771]); (7772, [7773]); (7774, [7775]); (7776, [7777]);
     (7778, [7779]); (7780, [7781]); (7782, [7783]); (7784, [7785]); (7786, [7787]);
     (7788, [7789]); (7790, [7791]); (7792, [7793]); (7794, [7795]); (7796, [7797]);
     (7798, [7799]); (7800, [7801]); (7802, [7803]); (7804, [7805]); (7806, [7807]);
     (7808, [7809]); (7810, [7811]); (7812, [7813]); (7814, [7815]); (7816, [7817]);
     (7818, [7819]); (7820, [7821]); (7822, [7823]); (7824, [7825]); (7826, [7827]);
     (7828, [7829]); (7838, [223]); (7840, [7841]); (7842, [7843]); (7844, [7845])]
  ++
    [(7846, [7847]); (7848, [7849]); (7850, [7851]); (7852, [7853]); (7854, [7855]);
     (7856, [7857]); (7858, [7859]); (7860, [7861]); (7862, [7863]); (7864, [7865]);
     (7866, [7867]); (7868, [7869]); (7870, [7871]); (7872, [7873]); (7874, [7875]);
     (7876, [7877]); (7878, [7879]); (7880, [7881]); (7882, [7883]); (7884, [7885]);
     (7886, [7887]); (7888, [7889]); (7890, [7891]); (7892, [7893]); (7894, [7895]);
     (7896, [7897]); (7898, [7899]); (7900, [7901]); (7902, [7903]); (7904, [7905]);
     (7906, [7907]); (7908, [7909]); (7910, [7911]); (7912, [7913]); (7914, [7915]);
     (7916, [7917]); (7918, [7919]); (7920, [7921]); (7922, [7923]); (7924, [7925]);
     (7926, [7927]); (7928, [7929]); (7930, [7931]); (7932, [7933]); (7934, [7935]);
     (7944, [7936]); (7945, [7937]); (7946, [7938]); (7947, [7939]); (7948, [7940]);
     (7949, [7941]); (7950, [7942]); (7951, [7943]); (7960, [7952]); (7961, [7953]);
     (7962, [7954]); (7963, [7955]); (7964, [7956]); (7965, [7957]); (7976, [7968])]
  ++
    [(7977, [7969]); (7978, [7970]); (7979, [7971]); (7980, [7972]); (7981, [7973]);
     (7982, [7974]); (7983, [7975]); (7992, [7984]); (7993, [7985]); (7994, [7986]);
     (7995, [7987]); (7996, [7988]); (7997, [7989]); (7998, [7990]); (7999, [7991]);
     (8008, [8000]); (8009, [8001]); (8010, [8002]); (8011, [8003]); (8012, [8004]);
     (8013, [8005]); (8025, [8017]); (8027, [8019]); (8029, [8021]); (8031, [8023]);
     (8040, [8032]); (8041, [8033]); (8042, [8034]); (8043, [8035]); (8044, [8036]);
     (8045, [8037]); (8046, [8038]); (8047, [8039]); (8072, [8064]); (8073, [8065]);
     (8074, [8066]); (8075, [8067]); (8076, [8068]); (8077, [8069]); (8078, [8070]);
     (8079, [8071]); (8088, [8080]); (8089, [8081]); (8090, [8082]); (8091, [8083]);
     (8092, [8084]); (8093, [8085]); (8094, [8086]); (8095, [8087]); (8104, [8096]);
     (8105, [8097]); (8106, [8098]); (8107, [8099]); (8108, [8100]); (8109, [8101]);
     (8110, [8102]); (8111, [8103]); (8120, [8112]); (8121, [8113]); (8122, [8048])]
  ++
    [(8123, [8049]); (8124, [8115]); (8136, [8050]); (8137, [8051]); (8138, [8052]);
     (8139, [8053]); (8140, [8131]); (8152, [8144]); (8153, [8145]); (8154, [8054]);
     (8155, [8055]); (8168, [8160]); (8169, [8161]); (8170, [8058]); (8171, [8059]);
     (8172, [8165]); (8184, [8056]); (8185, [8057]); (8186, [8060]); (8187, [8061]);
     (8188, [8179]); (8486, [969]); (8490, [107]); (8491, [229]); (8498, [8526]); (8544, [8560]);
     (8545, [8561]); (8546, [8562]); (8547, [8563]); (8548, [8564]); (8549, [8565]);
     (8550, [8566]); (8551, [8567]); (8552, [8568]); (8553, [8569]); (8554, [8570]);
     (8555, [8571]); (8556, [8572]); (8557, [8573]); (8558, [8574]); (8559, [8575]);
     (8579, [8580]); (9398, [9424]); (9399, [9425]); (9400, [9426]); (9401, [9427]);
     (9402, [9428]); (9403, [9429]); (9404, [9430]); (9405, [9431]); (9406, [9432]);
     (9407, [9433]); (9408, [9434]); (9409, [9435]); (9410, [9436]); (9411, [9437]);
     (9412, [9438]); (9413, [9439]); (9414, [9440]); (9415, [9441])]
  ++
    [(9416, [9442]); (9417, [9443]); (9418, [9444]); (9419, [9445]); (9420, [9446]);
     (9421, [9447]); (9422, [9448]); (9423, [9449]); (11264, [11312]); (11265, [11313]);
     (11266, [11314]); (11267, [11315]); (11268, [11316]); (11269, [11317]); (11270, [11318]);
     (11271, [11319]); (11272, [11320]); (11273, [11321]); (11274, [11322]); (11275, [11323]);
     (11276, [11324]); (11277, [11325]); (11278, [11326]); (11279, [11327]); (11280, [11328]);
     (11281, [11329]); (11282, [11330]); (11283, [11331]); (11284, [11332]); (11285, [11333]);
     (11286, [11334]); (11287, [11335]); (11288, [11336]); (11289, [11337]); (11290, [11338]);
     (11291, [11339]); (11292, [11340]); (11293, [11341]); (11294, [11342]); (11295, [11343]);
     (11296, [11344]); (11297, [11345]); (11298, [11346]); (11299, [11347]); (11300, [11348]);
     (11301, [11349]); (11302, [11350]); (11303, [11351]); (11304, [11352]); (11305, [11353]);
     (11306, [11354]); (11307, [11355]); (11308, [11356]); (11309, [11357]); (11310, [11358]);
     (11311, [11359]); (11360, [11361]); (11362, [619]); (11363, [7549]); (11364, [637])]
  ++
    [(11367, [11368]); (11369, [11370]); (11371, [11372]); (11373, [593]); (11374, [625]);
     (11375, [592]); (11376, [594]); (11378, [11379]); (11381, [11382]); (11390, [575]);
     (11391, [576]); (11392, [11393]); (11394, [11395]); (11396, [11397]); (11398, [11399]);
     (11400, [11401]); (11402, [11403]); (11404, [11405]); (11406, [11407]); (11408, [11409]);
     (11410, [11411]); (11412, [11413]); (11414, [11415]); (11416, [11417]); (11418, [11419]);
     (11420, [11421]); (11422, [11423]); (11424, [11425]); (11426, [11427]); (11428, [11429]);
     (11430, [11431]); (11432, [11433]); (11434, [11435]); (11436, [11437]); (11438, [11439]);
     (11440, [11441]); (11442, [11443]); (11444, [11445]); (11446, [11447]); (11448, [11449]);
     (11450, [11451]); (11452, [11453]); (11454, [11455]); (11456, [11457]); (11458, [11459]);
     (11460, [11461]); (11462, [11463]); (11464, [11465]); (11466, [11467]); (11468, [11469]);
     (11470, [11471]); (11472, [11473]); (11474, [11475]); (11476, [11477]); (11478, [11479]);
     (11480, [11481]); (11482, [11483]); (11484, [11485]); (11486, [11487]); (11488, [11489])]
  ++
    [(11490, [11491]); (11499, [11500]); (11501, [11502]); (11506, [11507]); (42560, [42561]);
     (42562, [42563]); (42564, [42565]); (42566, [42567]); (42568, [42569]); (42570, [42571]);
     (42572, [42573]); (42574, [42575]); (42576, [42577]); (42578, [42579]); (42580, [42581]);
     (42582, [42583]); (42584, [42585]); (42586, [42587]); (42588, [42589]); (42590, [42591]);
     (42592, [42593]); (42594, [42595]); (42596, [42597]); (42598, [42599]); (42600, [42601]);
     (42602, [42603]); (42604, [42605]); (42624, [42625]); (42626, [42627]); (42628, [42629]);
     (42630, [42631]); (42632, [42633]); (42634, [42635]); (42636, [42637]); (42638, [42639]);
     (42640, [42641]); (42642, [42643]); (42644, [42645]); (42646, [42647]); (42648, [42649]);
     (42650, [42651]); (42786, [42787]); (42788, [42789]); (42790, [42791]); (42792, [42793]);
     (42794, [42795]); (42796, [42797]); (42798, [42799]); (42802, [42803]); (42804, [42805]);
     (42806, [42807]); (42808, [42809]); (42810, [42811]); (42812, [42813]); (42814, [42815]);
     (42816, [42817]); (42818, [42819]); (42820, [42821]); (42822, [42823]); (42824, [42825])]
  ++
    [(42826, [42827]); (42828, [42829]); (42830, [42831]); (42832, [42833]); (42834, [42835]);
     (42836, [42837]); (42838, [42839]); (42840, [42841]); (42842, [42843]); (42844, [42845]);
     (42846, [42847]); (42848, [42849]); (42850, [42851]); (42852, [42853]); (42854, [42855]);
     (42856, [42857]); (42858, [42859]); (42860, [42861]); (42862, [42863]); (42873, [42874]);
     (42875, [42876]); (42877, [7545]); (42878, [42879]); (42880, [42881]); (42882, [42883]);
     (42884, [42885]); (42886, [42887]); (42891, [42892]); (42893, [613]); (42896, [42897]);
     (42898, [42899]); (42902, [42903]); (42904, [42905]); (42906, [42907]); (42908, [42909]);
     (42910, [42911]); (42912, [42913]); (42914, [42915]); (42916, [42917]); (42918, [42919]);
     (42920, [42921]); (42922, [614]); (42923, [604]); (42924, [609]); (42925, [620]);
     (42926, [618]); (42928, [670]); (42929, [647]); (42930, [669]); (42931, [43859]);
     (42932, [42933]); (42934, [42935]); (42936, [42937]); (42938, [42939]); (42940, [42941]);
     (42942, [42943]); (42944, [42945]); (42946, [42947]); (42948, [42900]); (42949, [642])]
  ++
    [(42950, [7566]); (42951, [42952]); (42953, [42954]); (42960, [42961]); (42966, [42967]);
     (42968, [42969]); (42997, [42998]); (65313, [65345]); (65314, [65346]); (65315, [65347]);
     (65316, [65348]); (65317, [65349]); (65318, [65350]); (65319, [65351]); (65320, [65352]);
     (65321, [65353]); (65322, [65354]); (65323, [65355]); (65324, [65356]); (65325, [65357]);
     (65326, [65358]); (65327, [65359]); (65328, [65360]); (65329, [65361]); (65330, [65362]);
     (65331, [65363]); (65332, [65364]); (65333, [65365]); (65334, [65366]); (65335, [65367]);
     (65336, [65368]); (65337, [65369]); (65338, [65370])].

(** Lowercase mappings outside the Basic Multilingual Plane: first and last
    code point of a run, and the distance to the lowercase letters. *)
Definition ucd_lowercase_supplementary : list (N * N * N) :=
  [(66560, 66599, 40); (66736, 66771, 40); (66928, 66938, 39); (66940, 66954, 39);
   (66956, 66962, 39); (66964, 66965, 39); (68736, 68786, 64); (71840, 71871, 32);
   (93760, 93791, 32); (125184, 125217, 34)].

(** The canonical decomposition (NFD) of every code unit whose decomposition
    has a combining diacritical mark, U+0300 to U+036F. *)
Definition ucd_decompositions : list (char16 * jsstring) :=
    [(192, [65; 768]); (193, [65; 769]); (194, [65; 770]); (195, [65; 771]); (196, [65; 776]);
     (197, [65; 778]); (199, [67; 807]); (200, [69; 768]); (201, [69; 769]); (202, [69; 770]);
     (203, [69; 776]); (204, [73; 768]); (205, [73; 769]); (206, [73; 770]); (207, [73; 776]);
     (209, [78; 771]); (210, [79; 768]); (211, [79; 769]); (212, [79; 770]); (213, [79; 771]);
     (214, [79; 776]); (217, [85; 768]); (218, [85; 769]); (219, [85; 770]); (220, [85; 776]);
     (221, [89; 769]); (224, [97; 768]); (225, [97; 769]); (226, [97; 770]); (227, [97; 771]);
     (228, [97; 776]); (229, [97; 778]); (231, [99; 807]); (232, [101; 768]); (233, [101; 769]);
     (234, [101; 770]); (235, [101; 776]); (236, [105; 768]); (237, [105; 769]);
     (238, [105; 770]); (239, [105; 776]); (241, [110; 771]); (242, [111; 768]);
     (243, [111; 769]); (244, [111; 770]); (245, [111; 771]); (246, [111; 776]);
     (249, [117; 768]); (250, [117; 769]); (251, [117; 770]); (252, [117; 776]);
     (253, [121; 769]); (255, [121; 776]); (256, [65; 772]); (257, [97; 772]); (258, [65; 774]);
     (259, [97; 774]); (260, [65; 808]); (261, [97; 808]); (262, [67; 769])]
  ++
    [(263, [99; 769]); (264, [67; 770]); (265, [99; 770]); (266, [67; 775]); (267, [99; 775]);
     (268, [67; 780]); (269, [99; 780]); (270, [68; 780]); (271, [100; 780]); (274, [69; 772]);
     (275, [101; 772]); (276, [69; 774]); (277, [101; 774]); (278, [69; 775]); (279, [101; 775]);
     (280, [69; 808]); (281, [101; 808]); (282, [69; 780]); (283, [101; 780]); (284, [71; 770]);
     (285, [103; 770]); (286, [71; 774]); (287, [103; 774]); (288, [71; 775]); (289, [103; 775]);
     (290, [71; 807]); (291, [103; 807]); (292, [72; 770]); (293, [104; 770]); (296, [73; 771]);
     (297, [105; 771]); (298, [73; 772]); (299, [105; 772]); (300, [73; 774]); (301, [105; 774]);
     (302, [73; 808]); (303, [105; 808]); (304, [73; 775]); (308, [74; 770]); (309, [106; 770]);
     (310, [75; 807]); (311, [107; 807]); (313, [76; 769]); (314, [108; 769]); (315, [76; 807]);
     (316, [108; 807]); (317, [76; 780]); (318, [108; 780]); (323, [78; 769]); (324, [110; 769]);
     (325, [78; 807]); (326, [110; 807]); (327, [78; 780]); (328, [110; 780]); (332, [79; 772]);
     (333, [111; 772]); (334, [79; 774]); (335, [111; 774]); (336, [79; 779]); (337, [111; 779])]
  ++
    [(340, [82; 769]); (341, [114; 769]); (342, [82; 807]); (343, [114; 807]); (344, [82; 780]);
     (345, [114; 780]); (346, [83; 769]); (347, [115; 769]); (348, [83; 770]); (349, [115; 770]);
     (350, [83; 807]); (351, [115; 807]); (352, [83; 780]); (353, [115; 780]); (354, [84; 807]);
     (355, [116; 807]); (356, [84; 780]); (357, [116; 780]); (360, [85; 771]); (361, [117; 771]);
     (362, [85; 772]); (363, [117; 772]); (364, [85; 774]); (365, [117; 774]); (366, [85; 778]);
     (367, [117; 778]); (368, [85; 779]); (369, [117; 779]); (370, [85; 808]); (371, [117; 808]);
     (372, [87; 770]); (373, [119; 770]); (374, [89; 770]); (375, [121; 770]); (376, [89; 776]);
     (377, [90; 769]); (378, [122; 769]); (379, [90; 775]); (380, [122; 775]); (381, [90; 780]);
     (382, [122; 780]); (416, [79; 795]); (417, [111; 795]); (431, [85; 795]); (432, [117; 795]);
     (461, [65; 780]); (462, [97; 780]); (463, [73; 780]); (464, [105; 780]); (465, [79; 780]);
     (466, [111; 780]); (467, [85; 780]); (468, [117; 780]); (469, [85; 776; 772]);
     (470, [117; 776; 772]); (471, [85; 776; 769]); (472, [117; 776; 769]);
     (473, [85; 776; 780]); (474, [117; 776; 780]); (475, [85; 776; 768])]
  ++
    [(476, [117; 776; 768]); (478, [65; 776; 772]); (479, [97; 776; 772]); (480, [65; 775; 772]);
     (481, [97; 775; 772]); (482, [198; 772]); (483, [230; 772]); (486, [71; 780]);
     (487, [103; 780]); (488, [75; 780]); (489, [107; 780]); (490, [79; 808]); (491, [111; 808]);
     (492, [79; 808; 772]); (493, [111; 808; 772]); (494, [439; 780]); (495, [658; 780]);
     (496, [106; 780]); (500, [71; 769]); (501, [103; 769]); (504, [78; 768]); (505, [110; 768]);
     (506, [65; 778; 769]); (507, [97; 778; 769]); (508, [198; 769]); (509, [230; 769]);
     (510, [216; 769]); (511, [248; 769]); (512, [65; 783]); (513, [97; 783]); (514, [65; 785]);
     (515, [97; 785]); (516, [69; 783]); (517, [101; 783]); (518, [69; 785]); (519, [101; 785]);
     (520, [73; 783]); (521, [105; 783]); (522, [73; 785]); (523, [105; 785]); (524, [79; 783]);
     (525, [111; 783]); (526, [79; 785]); (527, [111; 785]); (528, [82; 783]); (529, [114; 783]);
     (530, [82; 785]); (531, [114; 785]); (532, [85; 783]); (533, [117; 783]); (534, [85; 785]);
     (535, [117; 785]); (536, [83; 806]); (537, [115; 806]); (538, [84; 806]); (539, [116; 806]);
     (542, [72; 780]); (543, [104; 780]); (550, [65; 775]); (551, [97; 775])]
  ++
    [(552, [69; 807]); (553, [101; 807]); (554, [79; 776; 772]); (555, [111; 776; 772]);
     (556, [79; 771; 772]); (557, [111; 771; 772]); (558, [79; 775]); (559, [111; 775]);
     (560, [79; 775; 772]); (561, [111; 775; 772]); (562, [89; 772]); (563, [121; 772]);
     (832, [768]); (833, [769]); (835, [787]); (836, [776; 769]); (901, [168; 769]);
     (902, [913; 769]); (904, [917; 769]); (905, [919; 769]); (906, [921; 769]);
     (908, [927; 769]); (910, [933; 769]); (911, [937; 769]); (912, [953; 776; 769]);
     (938, [921; 776]); (939, [933; 776]); (940, [945; 769]); (941, [949; 769]);
     (942, [951; 769]); (943, [953; 769]); (944, [965; 776; 769]); (970, [953; 776]);
     (971, [965; 776]); (972, [959; 769]); (973, [965; 769]); (974, [969; 769]);
     (979, [978; 769]); (980, [978; 776]); (1024, [1045; 768]); (1025, [1045; 776]);
     (1027, [1043; 769]); (1031, [1030; 776]); (1036, [1050; 769]); (1037, [1048; 768]);
     (1038, [1059; 774]); (1049, [1048; 774]); (1081, [1080; 774]); (1104, [1077; 768]);
     (1105, [1077; 776]); (1107, [1075; 769]); (1111, [1110; 776]); (1116, [1082; 769]);
     (1117, [1080; 768]); (1118, [1091; 774]); (1142, [1140; 783]); (1143, [1141; 783]);
     (1217, [1046; 774]); (1218, [1078; 774]); (1232, [1040; 774])]
  ++
    [(1233, [1072; 774]); (1234, [1040; 776]); (1235, [1072; 776]); (1238, [1045; 774]);
     (1239, [1077; 774]); (1242, [1240; 776]); (1243, [1241; 776]); (1244, [1046; 776]);
     (1245, [1078; 776]); (1246, [1047; 776]); (1247, [1079; 776]); (1250, [1048; 772]);
     (1251, [1080; 772]); (1252, [1048; 776]); (1253, [1080; 776]); (1254, [1054; 776]);
     (1255, [1086; 776]); (1258, [1256; 776]); (1259, [1257; 776]); (1260, [1069; 776]);
     (1261, [1101; 776]); (1262, [1059; 772]); (1263, [1091; 772]); (1264, [1059; 776]);
     (1265, [1091; 776]); (1266, [1059; 779]); (1267, [1091; 779]); (1268, [1063; 776]);
     (1269, [1095; 776]); (1272, [1067; 776]); (1273, [1099; 776]); (7680, [65; 805]);
     (7681, [97; 805]); (7682, [66; 775]); (7683, [98; 775]); (7684, [66; 803]);
     (7685, [98; 803]); (7686, [66; 817]); (7687, [98; 817]); (7688, [67; 807; 769]);
     (7689, [99; 807; 769]); (7690, [68; 775]); (7691, [100; 775]); (7692, [68; 803]);
     (7693, [100; 803]); (7694, [68; 817]); (7695, [100; 817]); (7696, [68; 807]);
     (7697, [100; 807]); (7698, [68; 813]); (7699, [100; 813]); (7700, [69; 772; 768]);
     (7701, [101; 772; 768]); (7702, [69; 772; 769]); (7703, [101; 772; 769]); (7704, [69; 813]);
     (7705, [101; 813]); (7706, [69; 816]); (7707, [101; 816]); (7708, [69; 807; 774])]
  ++
    [(7709, [101; 807; 774]); (7710, [70; 775]); (7711, [102; 775]); (7712, [71; 772]);
     (7713, [103; 772]); (7714, [72; 775]); (7715, [104; 775]); (7716, [72; 803]);
     (7717, [104; 803]); (7718, [72; 776]); (7719, [104; 776]); (7720, [72; 807]);
     (7721, [104; 807]); (7722, [72; 814]); (7723, [104; 814]); (7724, [73; 816]);
     (7725, [105; 816]); (7726, [73; 776; 769]); (7727, [105; 776; 769]); (7728, [75; 769]);
     (7729, [107; 769]); (7730, [75; 803]); (7731, [107; 803]); (7732, [75; 817]);
     (7733, [107; 817]); (7734, [76; 803]); (7735, [108; 803]); (7736, [76; 803; 772]);
     (7737, [108; 803; 772]); (7738, [76; 817]); (7739, [108; 817]); (7740, [76; 813]);
     (7741, [108; 813]); (7742, [77; 769]); (7743, [109; 769]); (7744, [77; 775]);
     (7745, [109; 775]); (7746, [77; 803]); (7747, [109; 803]); (7748, [78; 775]);
     (7749, [110; 775]); (7750, [78; 803]); (7751, [110; 803]); (7752, [78; 817]);
     (7753, [110; 817]); (7754, [78; 813]); (7755, [110; 813]); (7756, [79; 771; 769]);
     (7757, [111; 771; 769]); (7758, [79; 771; 776]); (7759, [111; 771; 776]);
     (7760, [79; 772; 768]); (7761, [111; 772; 768]); (7762, [79; 772; 769]);
     (7763, [111; 772; 769]); (7764, [80; 769]); (7765, [112; 769]); (7766, [80; 775]);
     (7767, [112; 775]); (7768, [82; 775])]
  ++
    [(7769, [114; 775]); (7770, [82; 803]); (7771, [114; 803]); (7772, [82; 803; 772]);
     (7773, [114; 803; 772]); (7774, [82; 817]); (7775, [114; 817]); (7776, [83; 775]);
     (7777, [115; 775]); (7778, [83; 803]); (7779, [115; 803]); (7780, [83; 769; 775]);
     (7781, [115; 769; 775]); (7782, [83; 780; 775]); (7783, [115; 780; 775]);
     (7784, [83; 803; 775]); (7785, [115; 803; 775]); (7786, [84; 775]); (7787, [116; 775]);
     (7788, [84; 803]); (7789, [116; 803]); (7790, [84; 817]); (7791, [116; 817]);
     (7792, [84; 813]); (7793, [116; 813]); (7794, [85; 804]); (7795, [117; 804]);
     (7796, [85; 816]); (7797, [117; 816]); (7798, [85; 813]); (7799, [117; 813]);
     (7800, [85; 771; 769]); (7801, [117; 771; 769]); (7802, [85; 772; 776]);
     (7803, [117; 772; 776]); (7804, [86; 771]); (7805, [118; 771]); (7806, [86; 803]);
     (7807, [118; 803]); (7808, [87; 768]); (7809, [119; 768]); (7810, [87; 769]);
     (7811, [119; 769]); (7812, [87; 776]); (7813, [119; 776]); (7814, [87; 775]);
     (7815, [119; 775]); (7816, [87; 803]); (7817, [119; 803]); (7818, [88; 775]);
     (7819, [120; 775]); (7820, [88; 776]); (7821, [120; 776]); (7822, [89; 775]);
     (7823, [121; 775]); (7824, [90; 770]); (7825, [122; 770]); (7826, [90; 803]);
     (7827, [122; 803]); (7828, [90; 817])]
  ++
    [(7829, [122; 817]); (7830, [104; 817]); (7831, [116; 776]); (7832, [119; 778]);
     (7833, [121; 778]); (7835, [383; 775]); (7840, [65; 803]); (7841, [97; 803]);
     (7842, [65; 777]); (7843, [97; 777]); (7844, [65; 770; 769]); (7845, [97; 770; 769]);
     (7846, [65; 770; 768]); (7847, [97; 770; 768]); (7848, [65; 770; 777]);
     (7849, [97; 770; 777]); (7850, [65; 770; 771]); (7851, [97; 770; 771]);
     (7852, [65; 803; 770]); (7853, [97; 803; 770]); (7854, [65; 774; 769]);
     (7855, [97; 774; 769]); (7856, [65; 774; 768]); (7857, [97; 774; 768]);
     (7858, [65; 774; 777]); (7859, [97; 774; 777]); (7860, [65; 774; 771]);
     (7861, [97; 774; 771]); (7862, [65; 803; 774]); (7863, [97; 803; 774]); (7864, [69; 803]);
     (7865, [101; 803]); (7866, [69; 777]); (7867, [101; 777]); (7868, [69; 771]);
     (7869, [101; 771]); (7870, [69; 770; 769]); (7871, [101; 770; 769]); (7872, [69; 770; 768]);
     (7873, [101; 770; 768]); (7874, [69; 770; 777]); (7875, [101; 770; 777]);
     (7876, [69; 770; 771]); (7877, [101; 770; 771]); (7878, [69; 803; 770]);
     (7879, [101; 803; 770]); (7880, [73; 777]); (7881, [105; 777]); (7882, [73; 803]);
     (7883, [105; 803]); (7884, [79; 803]); (7885, [111; 803]); (7886, [79; 777]);
     (7887, [111; 777]); (7888, [79; 770; 769]); (7889, [111; 770; 769]); (7890, [79; 770; 768]);
     (7891, [111; 770; 768]); (7892, [79; 770; 777]); (7893, [111; 770; 777])]
  ++
    [(7894, [79; 770; 771]); (7895, [111; 770; 771]); (7896, [79; 803; 770]);
     (7897, [111; 803; 770]); (7898, [79; 795; 769]); (7899, [111; 795; 769]);
     (7900, [79; 795; 768]); (7901, [111; 795; 768]); (7902, [79; 795; 777]);
     (7903, [111; 795; 777]); (7904, [79; 795; 771]); (7905, [111; 795; 771]);
     (7906, [79; 795; 803]); (7907, [111; 795; 803]); (7908, [85; 803]); (7909, [117; 803]);
     (7910, [85; 777]); (7911, [117; 777]); (7912, [85; 795; 769]); (7913, [117; 795; 769]);
     (7914, [85; 795; 768]); (7915, [117; 795; 768]); (7916, [85; 795; 777]);
     (7917, [117; 795; 777]); (7918, [85; 795; 771]); (7919, [117; 795; 771]);
     (7920, [85; 795; 803]); (7921, [117; 795; 803]); (7922, [89; 768]); (7923, [121; 768]);
     (7924, [89; 803]); (7925, [121; 803]); (7926, [89; 777]); (7927, [121; 777]);
     (7928, [89; 771]); (7929, [121; 771]); (7936, [945; 787]); (7937, [945; 788]);
     (7938, [945; 787; 768]); (7939, [945; 788; 768]); (7940, [945; 787; 769]);
     (7941, [945; 788; 769]); (7942, [945; 787; 834]); (7943, [945; 788; 834]);
     (7944, [913; 787]); (7945, [913; 788]); (7946, [913; 787; 768]); (7947, [913; 788; 768]);
     (7948, [913; 787; 769]); (7949, [913; 788; 769]); (7950, [913; 787; 834]);
     (7951, [913; 788; 834]); (7952, [949; 787]); (7953, [949; 788]); (7954, [949; 787; 768]);
     (7955, [949; 788; 768]); (7956, [949; 787; 769]); (7957, [949; 788; 769]);
     (7960, [917; 787]); (7961, [917; 788])]
  ++
    [(7962, [917; 787; 768]); (7963, [917; 788; 768]); (7964, [917; 787; 769]);
     (7965, [917; 788; 769]); (7968, [951; 787]); (7969, [951; 788]); (7970, [951; 787; 768]);
     (7971, [951; 788; 768]); (7972, [951; 787; 769]); (7973, [951; 788; 769]);
     (7974, [951; 787; 834]); (7975, [951; 788; 834]); (7976, [919; 787]); (7977, [919; 788]);
     (7978, [919; 787; 768]); (7979, [919; 788; 768]); (7980, [919; 787; 769]);
     (7981, [919; 788; 769]); (7982, [919; 787; 834]); (7983, [919; 788; 834]);
     (7984, [953; 787]); (7985, [953; 788]); (7986, [953; 787; 768]); (7987, [953; 788; 768]);
     (7988, [953; 787; 769]); (7989, [953; 788; 769]); (7990, [953; 787; 834]);
     (7991, [953; 788; 834]); (7992, [921; 787]); (7993, [921; 788]); (7994, [921; 787; 768]);
     (7995, [921; 788; 768]); (7996, [921; 787; 769]); (7997, [921; 788; 769]);
     (7998, [921; 787; 834]); (7999, [921; 788; 834]); (8000, [959; 787]); (8001, [959; 788]);
     (8002, [959; 787; 768]); (8003, [959; 788; 768]); (8004, [959; 787; 769]);
     (8005, [959; 788; 769]); (8008, [927; 787]); (8009, [927; 788]); (8010, [927; 787; 768]);
     (8011, [927; 788; 768]); (8012, [927; 787; 769]); (8013, [927; 788; 769]);
     (8016, [965; 787]); (8017, [965; 788]); (8018, [965; 787; 768]); (8019, [965; 788; 768]);
     (8020, [965; 787; 769]); (8021, [965; 788; 769]); (8022, [965; 787; 834]);
     (8023, [965; 788; 834]); (8025, [933; 788]); (8027, [933; 788; 768]);
     (8029, [933; 788; 769]); (8031, [933; 788; 834])]
  ++
    [(8032, [969; 787]); (8033, [969; 788]); (8034, [969; 787; 768]); (8035, [969; 788; 768]);
     (8036, [969; 787; 769]); (8037, [969; 788; 769]); (8038, [969; 787; 834]);
     (8039, [969; 788; 834]); (8040, [937; 787]); (8041, [937; 788]); (8042, [937; 787; 768]);
     (8043, [937; 788; 768]); (8044, [937; 787; 769]); (8045, [937; 788; 769]);
     (8046, [937; 787; 834]); (8047, [937; 788; 834]); (8048, [945; 768]); (8049, [945; 769]);
     (8050, [949; 768]); (8051, [949; 769]); (8052, [951; 768]); (8053, [951; 769]);
     (8054, [953; 768]); (8055, [953; 769]); (8056, [959; 768]); (8057, [959; 769]);
     (8058, [965; 768]); (8059, [965; 769]); (8060, [969; 768]); (8061, [969; 769]);
     (8064, [945; 787; 837]); (8065, [945; 788; 837]); (8066, [945; 787; 768; 837]);
     (8067, [945; 788; 768; 837]); (8068, [945; 787; 769; 837]); (8069, [945; 788; 769; 837]);
     (8070, [945; 787; 834; 837]); (8071, [945; 788; 834; 837]); (8072, [913; 787; 837]);
     (8073, [913; 788; 837]); (8074, [913; 787; 768; 837]); (8075, [913; 788; 768; 837]);
     (8076, [913; 787; 769; 837]); (8077, [913; 788; 769; 837]); (8078, [913; 787; 834; 837]);
     (8079, [913; 788; 834; 837]); (8080, [951; 787; 837]); (8081, [951; 788; 837]);
     (8082, [951; 787; 768; 837]); (8083, [951; 788; 768; 837]); (8084, [951; 787; 769; 837]);
     (8085, [951; 788; 769; 837]); (8086, [951; 787; 834; 837]); (8087, [951; 788; 834; 837]);
     (8088, [919; 787; 837]); (8089, [919; 788; 837]); (8090, [919; 787; 768; 837]);
     (8091, [919; 788; 768; 837]); (8092, [919; 787; 769; 837]); (8093, [919; 788; 769; 837])]
  ++
    [(8094, [919; 787; 834; 837]); (8095, [919; 788; 834; 837]); (8096, [969; 787; 837]);
     (8097, [969; 788; 837]); (8098, [969; 787; 768; 837]); (8099, [969; 788; 768; 837]);
     (8100, [969; 787; 769; 837]); (8101, [969; 788; 769; 837]); (8102, [969; 787; 834; 837]);
     (8103, [969; 788; 834; 837]); (8104, [937; 787; 837]); (8105, [937; 788; 837]);
     (8106, [937; 787; 768; 837]); (8107, [937; 788; 768; 837]); (8108, [937; 787; 769; 837]);
     (8109, [937; 788; 769; 837]); (8110, [937; 787; 834; 837]); (8111, [937; 788; 834; 837]);
     (8112, [945; 774]); (8113, [945; 772]); (8114, [945; 768; 837]); (8115, [945; 837]);
     (8116, [945; 769; 837]); (8118, [945; 834]); (8119, [945; 834; 837]); (8120, [913; 774]);
     (8121, [913; 772]); (8122, [913; 768]); (8123, [913; 769]); (8124, [913; 837]);
     (8129, [168; 834]); (8130, [951; 768; 837]); (8131, [951; 837]); (8132, [951; 769; 837]);
     (8134, [951; 834]); (8135, [951; 834; 837]); (8136, [917; 768]); (8137, [917; 769]);
     (8138, [919; 768]); (8139, [919; 769]); (8140, [919; 837]); (8141, [8127; 768]);
     (8142, [8127; 769]); (8143, [8127; 834]); (8144, [953; 774]); (8145, [953; 772]);
     (8146, [953; 776; 768]); (8147, [953; 776; 769]); (8150, [953; 834]);
     (8151, [953; 776; 834]); (8152, [921; 774]); (8153, [921; 772]); (8154, [921; 768]);
     (8155, [921; 769]); (8157, [8190; 768]); (8158, [8190; 769]); (8159, [8190; 834]);
     (8160, [965; 774]); (8161, [965; 772]); (8162, [965; 776; 768])]
  ++
    [(8163, [965; 776; 769]); (8164, [961; 787]); (8165, [961; 788]); (8166, [965; 834]);
     (8167, [965; 776; 834]); (8168, [933; 774]); (8169, [933; 772]); (8170, [933; 768]);
     (8171, [933; 769]); (8172, [929; 788]); (8173, [168; 768]); (8174, [168; 769]);
     (8178, [969; 768; 837]); (8179, [969; 837]); (8180, [969; 769; 837]); (8182, [969; 834]);
     (8183, [969; 834; 837]); (8184, [927; 768]); (8185, [927; 769]); (8186, [937; 768]);
     (8187, [937; 769]); (8188, [937; 837]); (8491, [65; 778]); (8602, [8592; 824]);
     (8603, [8594; 824]); (8622, [8596; 824]); (8653, [8656; 824]); (8654, [8660; 824]);
     (8655, [8658; 824]); (8708, [8707; 824]); (8713, [8712; 824]); (8716, [8715; 824]);
     (8740, [8739; 824]); (8742, [8741; 824]); (8769, [8764; 824]); (8772, [8771; 824]);
     (8775, [8773; 824]); (8777, [8776; 824]); (8800, [61; 824]); (8802, [8801; 824]);
     (8813, [8781; 824]); (8814, [60; 824]); (8815, [62; 824]); (8816, [8804; 824]);
     (8817, [8805; 824]); (8820, [8818; 824]); (8821, [8819; 824]); (8824, [8822; 824]);
     (8825, [8823; 824]); (8832, [8826; 824]); (8833, [8827; 824]); (8836, [8834; 824]);
     (8837, [8835; 824]); (8840, [8838; 824]); (8841, [8839; 824]); (8876, [8866; 824]);
     (8877, [8872; 824]); (8878, [8873; 824]); (8879, [8875; 824]); (8928, [8828; 824])]
  ++
    [(8929, [8829; 824]); (8930, [8849; 824]); (8931, [8850; 824]); (8938, [8882; 824]);
     (8939, [8883; 824]); (8940, [8884; 824]); (8941, [8885; 824]); (10972, [10973; 824])].

(** The code points of the general categories P (punctuation), S (symbols),
    Z (separators), Cc (controls) and Cf (format characters), as ranges. *)
Definition ucd_punctuation_symbols_spaces : list (N * N) :=
    [(0, 47); (58, 64); (91, 96); (123, 169); (171, 177); (180, 180); (182, 184); (187, 187);
     (191, 191); (215, 215); (247, 247); (706, 709); (722, 735); (741, 747); (749, 749);
     (751, 767); (885, 885); (894, 894); (900, 901); (903, 903); (1014, 1014); (1154, 1154);
     (1370, 1375); (1417, 1418); (1421, 1423); (1470, 1470); (1472, 1472); (1475, 1475);
     (1478, 1478); (1523, 1524); (1536, 1551); (1563, 1567); (1642, 1645); (1748, 1748);
     (1757, 1758); (1769, 1769); (1789, 1790); (1792, 1805); (1807, 1807); (2038, 2041);
     (2046, 2047); (2096, 2110); (2142, 2142); (2184, 2184); (2192, 2193); (2274, 2274);
     (2404, 2405); (2416, 2416); (2546, 2547); (2554, 2555); (2557, 2557); (2678, 2678);
     (2800, 2801); (2928, 2928); (3059, 3066); (3191, 3191); (3199, 3199); (3204, 3204);
     (3407, 3407); (3449, 3449); (3572, 3572); (3647, 3647); (3663, 3663); (3674, 3675);
     (3841, 3863); (3866, 3871); (3892, 3892); (3894, 3894); (3896, 3896); (3898, 3901);
     (3973, 3973); (4030, 4037); (4039, 4044); (4046, 4058); (4170, 4175); (4254, 4255);
     (4347, 4347); (4960, 4968); (5008, 5017); (5120, 5120); (5741, 5742); (5760, 5760);
     (5787, 5788); (5867, 5869); (5941, 5942); (6100, 6102); (6104, 6107); (6144, 6154);
     (6158, 6158); (6464, 6464); (6468, 6469); (6622, 6655); (6686, 6687); (6816, 6822);
     (6824, 6829); (7002, 7018); (7028, 7038); (7164, 7167); (7227, 7231); (7294, 7295);
     (7360, 7367); (7379, 7379); (8125, 8125); (8127, 8129); (8141, 8143); (8157, 8159);
     (8173, 8175); (8189, 8190); (8192, 8292); (8294, 8303); (8314, 8318); (8330, 8334);
     (8352, 8384); (8448, 8449); (8451, 8454); (8456, 8457); (8468, 8468); (8470, 8472);
     (8478, 8483); (8485, 8485)]
  ++
    [(8487, 8487); (8489, 8489); (8494, 8494); (8506, 8507); (8512, 8516); (8522, 8525);
     (8527, 8527); (8586, 8587); (8592, 9254); (9280, 9290); (9372, 9449); (9472, 10101);
     (10132, 11123); (11126, 11157); (11159, 11263); (11493, 11498); (11513, 11516);
     (11518, 11519); (11632, 11632); (11776, 11822); (11824, 11869); (11904, 11929);
     (11931, 12019); (12032, 12245); (12272, 12283); (12288, 12292); (12296, 12320);
     (12336, 12336); (12342, 12343); (12349, 12351); (12443, 12444); (12448, 12448);
     (12539, 12539); (12688, 12689); (12694, 12703); (12736, 12771); (12800, 12830);
     (12842, 12871); (12880, 12880); (12896, 12927); (12938, 12976); (12992, 13311);
     (19904, 19967); (42128, 42182); (42238, 42239); (42509, 42511); (42611, 42611);
     (42622, 42622); (42738, 42743); (42752, 42774); (42784, 42785); (42889, 42890);
     (43048, 43051); (43062, 43065); (43124, 43127); (43214, 43215); (43256, 43258);
     (43260, 43260); (43310, 43311); (43359, 43359); (43457, 43469); (43486, 43487);
     (43612, 43615); (43639, 43641); (43742, 43743); (43760, 43761); (43867, 43867);
     (43882, 43883); (44011, 44011); (64297, 64297); (64434, 64450); (64830, 64847);
     (64975, 64975); (65020, 65023); (65040, 65049); (65072, 65106); (65108, 65126);
     (65128, 65131); (65279, 65279); (65281, 65295); (65306, 65312); (65339, 65344);
     (65371, 65381); (65504, 65510); (65512, 65518); (65529, 65533); (65792, 65794);
     (65847, 65855); (65913, 65929); (65932, 65934); (65936, 65948); (65952, 65952);
     (66000, 66044); (66463, 66463); (66512, 66512); (66927, 66927); (67671, 67671);
     (67703, 67704); (67871, 67871); (67903, 67903); (68176, 68184); (68223, 68223);
     (68296, 68296); (68336, 68342); (68409, 68415); (68505, 68508); (69293, 69293);
     (69461, 69465); (69510, 69513); (69703, 69709); (69819, 69825); (69837, 69837);
     (69952, 69955); (70004, 70005); (70085, 70088); (70093, 70093); (70107, 70107);
     (70109, 70111); (70200, 70205); (70313, 70313)]
  ++
    [(70731, 70735); (70746, 70747); (70749, 70749); (70854, 70854); (71105, 71127);
     (71233, 71235); (71264, 71276); (71353, 71353); (71484, 71487); (71739, 71739);
     (72004, 72006); (72162, 72162); (72255, 72262); (72346, 72348); (72350, 72354);
     (72769, 72773); (72816, 72817); (73463, 73464); (73685, 73713); (73727, 73727);
     (74864, 74868); (77809, 77810); (78896, 78904); (92782, 92783); (92917, 92917);
     (92983, 92991); (92996, 92997); (93847, 93850); (94178, 94178); (113820, 113820);
     (113823, 113827); (118608, 118723); (118784, 119029); (119040, 119078); (119081, 119140);
     (119146, 119148); (119155, 119162); (119171, 119172); (119180, 119209); (119214, 119274);
     (119296, 119361); (119365, 119365); (119552, 119638); (120513, 120513); (120539, 120539);
     (120571, 120571); (120597, 120597); (120629, 120629); (120655, 120655); (120687, 120687);
     (120713, 120713); (120745, 120745); (120771, 120771); (120832, 121343); (121399, 121402);
     (121453, 121460); (121462, 121475); (121477, 121483); (123215, 123215); (123647, 123647);
     (125278, 125279); (126124, 126124); (126128, 126128); (126254, 126254); (126704, 126705);
     (126976, 127019); (127024, 127123); (127136, 127150); (127153, 127167); (127169, 127183);
     (127185, 127221); (127245, 127405); (127462, 127490); (127504, 127547); (127552, 127560);
     (127568, 127569); (127584, 127589); (127744, 128727); (128733, 128748); (128752, 128764);
     (128768, 128883); (128896, 128984); (128992, 129003); (129008, 129008); (129024, 129035);
     (129040, 129095); (129104, 129113); (129120, 129159); (129168, 129197); (129200, 129201);
     (129280, 129619); (129632, 129645); (129648, 129652); (129656, 129660); (129664, 129670);
     (129680, 129708); (129712, 129722); (129728, 129733); (129744, 129753); (129760, 129767);
     (129776, 129782); (129792, 129938); (129940, 129994); (917505, 917505); (917536, 917631)].

(** The blocks of combining diacritical marks: U+0300-036F, U+1AB0-1AFF,
    U+1DC0-1DFF, U+20D0-20FF and U+FE20-FE2F. *)
Definition combining_mark_blocks : list (N * N) :=
  [(768, 879); (6832, 6911); (7616, 7679); (8400, 8447); (65056, 65071)].

(** The entry of a code unit in a table. *)
Definition lookup_unit (c : char16) (table : list (char16 * jsstring)) : option jsstring :=
  match find (fun e => N.eqb (fst e) c) table with
  | Some (_, l) => Some l
  | None => None
  end.

Definition in_ranges (ranges : list (N * N)) (cp : N) : bool :=
  existsb (fun r => in_range (fst r) (snd r) cp) ranges.

(** The code units of a code point: itself, or a surrogate pair. *)
Definition utf16 (cp : N) : jsstring :=
  if cp <? 65536 then [cp]
  else [55296 + (cp - 65536) / 1024; 56320 + (cp - 65536) mod 1024].

(** The lowercase letter of a letter outside the Basic Multilingual Plane. *)
Definition lower_supplementary (cp : N) : option N :=
  match find (fun r => in_range (fst (fst r)) (snd (fst r)) cp)
          ucd_lowercase_supplementary with
  | Some r => Some (cp + snd r)
  | None => None
  end.

Definition ucd_lower (c : char16) : jsstring :=
  match lookup_unit c ucd_lowercase with
  | Some l => l
  | None => [c]
  end.

Definition ucd_decomp (c : char16) : jsstring :=
  match lookup_unit c ucd_decompositions with
  | Some d => d
  | None => [c]
  end.

(** What one code unit contributes to a normalized title: the letters [a-z]
    and the digits of its lowercase mapping, decomposed.  A surrogate
    contributes nothing. *)
Definition ucd_skeleton (c : char16) : jsstring :=
  replace_not_class is_az09
    (replace_class is_combining_mark (flat_map ucd_decomp (ucd_lower c))).

(** An engine that implements Unicode.  [toLowerCase] looks at what surrounds
    a capital sigma and [normalize] reorders the marks that follow a letter,
    so neither works one code unit at a time; what the two replacements of
    [gerarIdEstavel] leave of their result does, for every text: the
    letters [a-z] and the digits come from one character each, in the order
    of the characters, and no character outside the Basic Multilingual Plane
    has any. *)
Definition UnicodeEngine (U : UnicodeOps) : Prop :=
  forall s,
    replace_not_class is_az09
      (replace_class is_combining_mark (normalizeNFD (toLowerCase s)))
    = flat_map ucd_skeleton s.

(** An instance that lowers case and decomposes one code unit at a time. *)
Definition UcdOps : UnicodeOps :=
  {| toLowerCase := flat_map ucd_lower; normalizeNFD := flat_map ucd_decomp |}.

(** The code points of a range, in order. *)
Definition code_points_of (r : N * N) : list N :=
  map (fun i => fst r + N.of_nat i) (seq 0 (N.to_nat (snd r + 1 - fst r))).

(* ================================================================== *)
(** ** Vocabulary of the statements *)

(** One difference of case, punctuation, white space or accent between two
    titles, anywhere in a title: a letter against its lowercase mapping; a
    character of punctuation, a symbol, a separator or a control or format
    character more or less; a letter with diacritical marks against its
    canonical decomposition without the marks U+0300 to U+036F; a combining
    diacritical mark more or less. *)
Inductive title_step : jsstring -> jsstring -> Prop :=
| step_case a c l b :
    lookup_unit c ucd_lowercase = Some l ->
    title_step (a ++ c :: b) (a ++ l ++ b)
| step_case_supplementary a cp cp' b :
    lower_supplementary cp = Some cp' ->
    title_step (a ++ utf16 cp ++ b) (a ++ utf16 cp' ++ b)
| step_punct a cp b :
    in_ranges ucd_punctuation_symbols_spaces cp = true ->
    title_step (a ++ utf16 cp ++ b) (a ++ b)
| step_accent a c d b :
    lookup_unit c ucd_decompositions = Some d ->
    title_step (a ++ c :: b) (a ++ replace_class is_combining_mark d ++ b)
| step_mark a m b :
    in_ranges combining_mark_blocks m = true ->
    title_step (a ++ m :: b) (a ++ b).

(** Titles that differ only in case, punctuation, white space or accents. *)
Definition title_variant : jsstring -> jsstring -> Prop :=
  clos_refl_sym_trans jsstring title_step.

(** The uppercase mapping of the letters of Basic Latin and Latin-1; that of
    the sharp s is two letters (SpecialCasing.txt). *)
Definition upper1 (c : char16) : jsstring :=
  if N.eqb c 223 then [83; 83]
  else if N.eqb c 181 then [924]
  else if N.eqb c 255 then [376]
  else if is_lower_az c || (in_range 224 254 c && negb (N.eqb c 247)) then [c - 32]
  else [c].

(** One separator more or less in a deadline. *)
Inductive prazo_step : jsstring -> jsstring -> Prop :=
| step_separator a c b :
    is_digit c = false -> prazo_step (a ++ c :: b) (a ++ b).

(** Deadlines that differ only in separator characters. *)
Definition prazo_variant : jsstring -> jsstring -> Prop :=
  clos_refl_sym_trans jsstring prazo_step.

(** A candidate record as the prompt asks for it: [titulo] and [prazo], each
    a string or missing. *)
Record Candidate := { c_titulo : option jsstring; c_prazo : option jsstring }.

Definition member (k : String.string) (v : option jsstring) : list (jsstring * value) :=
  match v with
  | Some s => [(lit k, VStr s)]
  | None => []
  end.
Arguments member k%_string v.

Definition candidate_value (c : Candidate) : value :=
  VObj (member "titulo" (c_titulo c) ++ member "prazo" (c_prazo c)).

Definition field_value (v : option jsstring) : value :=
  match v with
  | Some s => VStr s
  | None => VUndefined
  end.

(** A valid candidate has a non-empty title. *)
Definition valid (c : Candidate) : bool :=
  match c_titulo c with
  | Some (_ :: _) => true
  | _ => false
  end.

(** The identity of a candidate in the words of the specification: source,
    first 60 characters of the normalized title, digits of the deadline or
    the placeholder. *)
Definition identity `{UnicodeOps} (fonte : Fonte) (c : Candidate) : jsstring :=
  nome fonte ++ lit "-"
  ++ firstn 60 (tituloLimpo (match c_titulo c with Some t => t | None => [] end))
  ++ lit "-"
  ++ match c_prazo c with
     | Some (d :: p) => filter is_digit (d :: p)
     | _ => lit "0000"
     end.

(** The record pushed for a new candidate. *)
Definition oportunidade_of `{UnicodeOps} (fonte : Fonte) (c : Candidate) : Oportunidade :=
  {| id_unico := identity fonte c;
     op_titulo := field_value (c_titulo c);
     op_prazo := field_value (c_prazo c);
     fonte_nome := nome fonte;
     fonte_url := url fonte;
     op_cor := cor fonte |}.

Definition row_of `{UnicodeOps} (fonte : Fonte) (c : Candidate) : Row :=
  {| row_id := identity fonte c;
     row_projeto := field_value (c_titulo c);
     row_prazo := field_value (c_prazo c);
     row_fonte := nome fonte |}.

(** One reconciliation pass over the candidates of one source, from a table
    and an empty batch. *)
Definition reconcile `{UnicodeOps} (fonte : Fonte) (cands : list Candidate) (db0 : Table)
  : State * option exn :=
  for_items fonte (map candidate_value cands) (initial_state db0).

(** The state after a candidate has been recorded as new. *)
Definition record_new `{UnicodeOps} (fonte : Fonte) (st : State) (c : Candidate) : State :=
  {| db := db st ++ [row_of fonte c];
     novasOportunidades := novasOportunidades st ++ [oportunidade_of fonte c];
     console :=
       console st ++
       [LogDetectado (nome fonte)
          (firstn 60 (match c_titulo c with Some t => t | None => [] end))] |}.

(** The valid candidates whose identity is not yet among [seen], each
    identity at its first occurrence. *)
Fixpoint first_seen `{UnicodeOps} (fonte : Fonte) (seen : list jsstring)
  (cands : list Candidate) : list Candidate :=
  match cands with
  | [] => []
  | c :: rest =>
      if valid c && negb (existsb (str_eqb (identity fonte c)) seen)
      then c :: first_seen fonte (seen ++ [identity fonte c]) rest
      else first_seen fonte seen rest
  end.

Definition is_send (e : Event) : bool :=
  match e with
  | SendMail _ _ => true
  | _ => false
  end.

Definition ids_of_table (t : Table) : list jsstring := map row_id t.
Definition ids_of_batch (b : list Oportunidade) : list jsstring := map id_unico b.


(** A fenced code block with prose around it. *)
Definition fenced (before body after : jsstring) : jsstring :=
  before ++ fence_json ++ body ++ fence ++ after.

(* ================================================================== *)
(** ** Sample texts and records *)

Definition dquote : jsstring := [34].

(** A quoted JSON string with plain content. *)
Definition quoted (s : String.string) : jsstring := dquote ++ lit s ++ dquote.
Arguments quoted s%_string.

(** The array text with one record, title [Edital 01/2025] and deadline
    [15/12/2025]. *)
Definition sample_array : jsstring :=
  lit "[{" ++ quoted "titulo" ++ lit ": " ++ quoted "Edital 01/2025" ++ lit ", "
  ++ quoted "prazo" ++ lit ": " ++ quoted "15/12/2025" ++ lit "}]".

Definition sample_record : value :=
  VObj [(lit "titulo", VStr (lit "Edital 01/2025"));
        (lit "prazo", VStr (lit "15/12/2025"))].

(** Two records of one listing whose titles differ in case and whose
    deadlines differ in the separator, and a record without a title. *)
Definition sample_candidate : Candidate :=
  {| c_titulo := Some (lit "Edital 01/2025"); c_prazo := Some (lit "15/12/2025") |}.

Definition sample_candidate_upper : Candidate :=
  {| c_titulo := Some (lit "EDITAL 01/2025"); c_prazo := Some (lit "15-12-2025") |}.

Definition sample_untitled : value :=
  VObj [(lit "prazo", VStr (lit "15/12/2025"))].

Definition sample_env : Env :=
  {| EMAIL_USER := Some (lit "monitor@example.org");
     EMAIL_TO := Some (lit "equipe@example.org");
     sendMail_ok := true |}.

(* ================================================================== *)
(** ** One item of the loop, apart from the table *)

(** What [process_item] computes before it consults the table: an exception,
    nothing for a title that is not truthy, or the row, the record and the
    console line of the item. *)
Definition item_entry `{UnicodeOps} (fonte : Fonte) (item : value)
  : result (option (Row * Oportunidade * Event)) :=
  titulo <- get_prop item (lit "titulo") ;;
  if negb (truthy titulo) then Ok None
  else
    prazo <- get_prop item (lit "prazo") ;;
    idUnico <- gerarIdEstavel (nome fonte) titulo prazo ;;
    Ok (Some ({| row_id := idUnico; row_projeto := titulo;
                 row_prazo := prazo; row_fonte := nome fonte |},
              {| id_unico := idUnico; op_titulo := titulo; op_prazo := prazo;
                 fonte_nome := nome fonte; fonte_url := url fonte;
                 op_cor := cor fonte |},
              LogDetectado (nome fonte)
                (match titulo with VStr t => substring t 0 60 | _ => [] end))).

(** The state after a new entry has been inserted and pushed. *)
Definition record_entry (st : State) (e : Row * Oportunidade * Event) : State :=
  {| db := db st ++ [fst (fst e)];
     novasOportunidades := novasOportunidades st ++ [snd (fst e)];
     console := console st ++ [snd e] |}.

(** A row and a record that describe the same item. *)
Definition row_matches (r : Row) (o : Oportunidade) : Prop :=
  row_id r = id_unico o /\ row_projeto r = op_titulo o
  /\ row_prazo r = op_prazo o /\ row_fonte r = fonte_nome o.

(** A record as the loop builds it: a non-empty string title, a deadline that
    is a string or a value that is not truthy, and the name, address and
    colour of one of the sources. *)
Definition well_formed_record (fontes : list Fonte) (o : Oportunidade) : Prop :=
  (exists t, op_titulo o = VStr t /\ t <> [])
  /\ ((exists p, op_prazo o = VStr p) \/ truthy (op_prazo o) = false)
  /\ exists f, In f fontes /\ fonte_nome o = nome f /\ fonte_url o = url f
               /\ op_cor o = cor f.

(** The separator of the template [${fonteNome}-${slugTitulo}-${slugPrazo}]. *)
Definition hyphen : char16 := 45.

Definition backtick : char16 := 96.

(** The rest of a text lets a token end here: it is empty or starts with a
    code unit outside [more]. *)
Definition halts (more : char16 -> bool) (r : jsstring) : bool :=
  match r with
  | [] => true
  | c :: _ => negb (more c)
  end.

(** A number literal cannot be continued by what follows. *)
Definition number_ends (r : jsstring) : bool :=
  halts (fun c => is_digit c || N.eqb c 46 || N.eqb c 101 || N.eqb c 69) r.

Definition is_number (v : value) : bool :=
  match v with
  | VNum _ => true
  | _ => false
  end.

(* ================================================================== *)
(** ** The message of [enviarEmailResumo] *)

(** [Number::toString] of the engine, for a number that is not a zero. *)
Class NumberOps := {
  numberToString : decimal -> jsstring
}.

(** ToString, as a template literal applies it to [${...}].  The values come
    from parsed JSON: an array is joined with commas, [null] and [undefined]
    items left empty; an object has no callable member of its own, so one
    with a member [toString] cannot be converted, and every other one is
    printed by [Object.prototype.toString]. *)
Fixpoint ToString `{NumberOps} (v : value) : result jsstring :=
  match v with
  | VUndefined => Ok (lit "undefined")
  | VNull => Ok (lit "null")
  | VBool b => Ok (if b then lit "true" else lit "false")
  | VNum d => Ok (if rounds_to_zero d then lit "0" else numberToString d)
  | VStr s => Ok s
  | VArr items =>
      (fix join (l : list value) : result jsstring :=
         match l with
         | [] => Ok []
         | x :: rest =>
             next <- match x with
                     | VUndefined | VNull => Ok []
                     | _ => ToString x
                     end ;;
             match rest with
             | [] => Ok next
             | _ :: _ => r <- join rest ;; Ok (next ++ lit "," ++ r)
             end
         end) items
  | VObj props =>
      match lookup_prop (lit "toString") props with
      | Some _ => Throw TypeError
      | None => Ok (lit "[object Object]")
      end
  end.

(** The text between the interpolations of the template of one item. *)
Definition item_text_1 : jsstring :=
  lit "
        <li style="
  ++ dquote
  ++ lit "margin-bottom: 20px; padding-bottom: 15px; border-bottom: 1px solid #eee;"
  ++ dquote
  ++ lit ">
            <div style="
  ++ dquote
  ++ lit "font-size: 10px; font-weight: bold; text-transform: uppercase; color: #fff; background-color: ".

Definition item_text_2 : jsstring :=
  lit "; padding: 2px 6px; display: inline-block; border-radius: 3px; margin-bottom: 5px;"
  ++ dquote
  ++ lit ">
                ".

Definition item_text_3 : jsstring :=
  lit "
            </div>
            <div style="
  ++ dquote
  ++ lit "font-size: 14px; font-weight: bold; color: #333;"
  ++ dquote
  ++ lit ">".

Definition item_text_4 : jsstring :=
  lit "</div>
            <div style="
  ++ dquote
  ++ lit "font-size: 0.9em; color: #777; margin-top: 4px;"
  ++ dquote
  ++ lit ">"
  ++ [55357; 56517]
  ++ lit " ".

Definition item_text_5 : jsstring :=
  lit "</div>
            <div style="
  ++ dquote
  ++ lit "margin-top: 5px;"
  ++ dquote
  ++ lit ">
                <a href="
  ++ dquote.

Definition item_text_6 : jsstring :=
  dquote
  ++ lit " style="
  ++ dquote
  ++ lit "font-size: 12px; color: ".

Definition item_text_7 : jsstring :=
  lit "; text-decoration: none; font-weight: bold;"
  ++ dquote
  ++ lit ">"
  ++ [10140]
  ++ lit " Ver na fonte</a>
            </div>
        </li>
    ".

(** The template of one item:
    [${op.cor}], [${op.fonte_nome}], [${op.titulo}], [${op.prazo}],
    [${op.fonte_url}] and [${op.cor}] between the seven texts. *)
Definition item_html `{NumberOps} (op : Oportunidade) : result jsstring :=
  titulo <- ToString (op_titulo op) ;;
  prazo <- ToString (op_prazo op) ;;
  Ok (item_text_1 ++ op_cor op ++ item_text_2 ++ fonte_nome op ++ item_text_3
      ++ titulo ++ item_text_4 ++ prazo ++ item_text_5 ++ fonte_url op
      ++ item_text_6 ++ op_cor op ++ item_text_7).

(** [oportunidades.map(op => `...`).join('')] *)
Fixpoint itensHtml `{NumberOps} (oportunidades : list Oportunidade)
  : result jsstring :=
  match oportunidades with
  | [] => Ok []
  | op :: rest =>
      h <- item_html op ;;
      t <- itensHtml rest ;;
      Ok (h ++ t)
  end.

Definition from_text_1 : jsstring :=
  dquote
  ++ lit "Monitor de Editais"
  ++ dquote
  ++ lit " <".

Definition from_text_2 : jsstring :=
  lit ">".

Definition subject_text_1 : jsstring :=
  [55357; 56596]
  ++ lit " ".

Definition subject_text_2 : jsstring :=
  lit " Novos Itens Detectados".

Definition html_text_1 : jsstring :=
  lit "
            <div style="
  ++ dquote
  ++ lit "font-family: Arial, sans-serif; max-width: 600px;"
  ++ dquote
  ++ lit ">
                <h2 style="
  ++ dquote
  ++ lit "color: #2c3e50;"
  ++ dquote
  ++ lit ">Novas Oportunidades</h2>
                <p style="
  ++ dquote
  ++ lit "font-size: 13px; color: #666;"
  ++ dquote
  ++ lit ">Novos itens encontrados nas listas monitoradas:</p>
                <ul style="
  ++ dquote
  ++ lit "list-style: none; padding-left: 0;"
  ++ dquote
  ++ lit ">".

Definition html_text_2 : jsstring :=
  lit "</ul>
                <p style="
  ++ dquote
  ++ lit "font-size: 12px; color: #888;"
  ++ dquote
  ++ lit ">Monitoramento via Gemini Flash Lite.</p>
            </div>
        ".

(** [${oportunidades.length}]: the decimal digits of a length. *)
Definition length_text (n : nat) : jsstring :=
  lit (DecimalString.NilEmpty.string_of_uint (Nat.to_uint n)).

Record MailOptions := {
  mail_from : jsstring;
  mail_to : jsstring;
  subject : jsstring;
  html : jsstring
}.

(** [mailOptions], for the settings [EMAIL_USER] and [EMAIL_TO] that passed
    the guard of the first line. *)
Definition mailOptions `{NumberOps} (user to : jsstring)
  (oportunidades : list Oportunidade) : result MailOptions :=
  itens <- itensHtml oportunidades ;;
  Ok {| mail_from := from_text_1 ++ user ++ from_text_2;
        mail_to := to;
        subject := subject_text_1 ++ length_text (length oportunidades)
                   ++ subject_text_2;
        html := html_text_1 ++ itens ++ html_text_2 |}.

(** A stand-in for the engine's number printing in the examples, none of
    which prints a number other than a zero. *)
Definition sample_numbers : NumberOps := {| numberToString := fun _ => [] |}.

(* ================================================================== *)
(** ** The run with a store that can fail

    [main] awaits [initDB], [db.get], [db.run] and [db.close] outside any
    [try]: when one of them rejects, the run ends there.  [rejects n] says
    that the awaited call number [n] of a run rejects, counting from 0 in
    the order in which [main] makes the calls; a store that rejects nothing
    gives the run of [main] above. *)

Inductive failure :=
| Thrown (e : exn)
| Rejected.

Module Store.
Section WithStore.
Context `{UnicodeOps}.
Variable rejects : nat -> bool.

(** The body of the inner loop for one [item], from the state [st] and after
    [n] awaited calls: the state and the number of calls at the end of the
    body, or where it was left. *)
Definition process_item (fonte : Fonte) (st : State) (n : nat) (item : value)
  : State * nat * option failure :=
  match get_prop item (lit "titulo") with
  | Throw e => (st, n, Some (Thrown e))
  | Ok titulo =>
      if negb (truthy titulo) then (st, n, None)
      else
        match get_prop item (lit "prazo") with
        | Throw e => (st, n, Some (Thrown e))
        | Ok prazo =>
            match gerarIdEstavel (nome fonte) titulo prazo with
            | Throw e => (st, n, Some (Thrown e))
            | Ok idUnico =>
                (* await db.get(...) *)
                if rejects n then (st, S n, Some Rejected)
                else
                  match db_get (db st) idUnico with
                  | Some _ => (st, S n, None)
                  | None =>
                      let shown := match titulo with
                                   | VStr t => substring t 0 60
                                   | _ => []
                                   end in
                      let logged :=
                        {| db := db st;
                           novasOportunidades := novasOportunidades st;
                           console := console st ++ [LogDetectado (nome fonte) shown] |} in
                      (* await db.run(...) *)
                      if rejects (S n) then (logged, S (S n), Some Rejected)
                      else
                        match db_run_insert (db st)
                                {| row_id := idUnico; row_projeto := titulo;
                                   row_prazo := prazo; row_fonte := nome fonte |} with
                        | Throw e => (logged, S (S n), Some (Thrown e))
                        | Ok db' =>
                            ({| db := db';
                                novasOportunidades :=
                                  novasOportunidades st ++
                                  [{| id_unico := idUnico; op_titulo := titulo;
                                      op_prazo := prazo; fonte_nome := nome fonte;
                                      fonte_url := url fonte; op_cor := cor fonte |}];
                                console := console logged |},
                             S (S n), None)
                        end
                  end
            end
        end
  end.

Fixpoint for_items (fonte : Fonte) (items : list value) (st : State) (n : nat)
  : State * nat * option failure :=
  match items with
  | [] => (st, n, None)
  | item :: rest =>
      match process_item fonte st n item with
      | (st', n', None) => for_items fonte rest st' n'
      | (st', n', Some f) => (st', n', Some f)
      end
  end.

Fixpoint for_grupos (grupos : list (Fonte * value)) (st : State) (n : nat)
  : State * nat * option failure :=
  match grupos with
  | [] => (st, n, None)
  | (fonte, dados) :: rest =>
      match iterate dados with
      | Throw e => (st, n, Some (Thrown e))
      | Ok items =>
          match for_items fonte items st n with
          | (st', n', None) => for_grupos rest st' n'
          | (st', n', Some f) => (st', n', Some f)
          end
      end
  end.

(** [main]: [await initDB()] is the call number 0, the requests follow, then
    the loops, the notification, and [await db.close()] as the last call. *)
Definition main (env : Env) (ipea fnp undp iclei : option jsstring) (db0 : Table)
  : Table * list Event * option failure :=
  if rejects 0%nat then (db0, [], Some Rejected)
  else
    match (dadosIPEA <- consultarGemini ipea ;;
           dadosFNP <- consultarGemini fnp ;;
           dadosUNDP <- consultarGemini undp ;;
           dadosICLEI <- consultarGemini iclei ;;
           Ok (todosResultados dadosIPEA dadosFNP dadosUNDP dadosICLEI)) with
    | Throw e => (db0, [], Some (Thrown e))
    | Ok grupos =>
        match for_grupos grupos (initial_state db0) 1%nat with
        | (st, n, Some f) => (db st, console st, Some f)
        | (st, n, None) =>
            (db st, console st ++ notify env (novasOportunidades st),
             if rejects n then Some Rejected else None)
        end
    end.

End WithStore.
End Store.

(* ================================================================== *)
(** ** Proof automation *)

(** Case analysis on the scrutinee of a [match] in hypothesis [H]. *)
Ltac break_match H :=
  match type of H with
  | context [match ?x with _ => _ end] => destruct x eqn:?
  end.

(** Both sides of an equation between concatenations, associated to the right. *)
Ltac norm_app :=
  repeat first [rewrite <- app_assoc | progress cbn [app]]; try reflexivity.

(* ================================================================== *)
(** ** Strings: equality, classes, [substring] *)

Lemma str_eqb_spec (a b : jsstring) : str_eqb a b = true <-> a = b.
Proof.
  revert b; induction a as [|x a IH]; intros [|y b]; simpl; split; intro H;
    try reflexivity; try discriminate.
  - apply andb_true_iff in H as [Hx Hab].
    apply N.eqb_eq in Hx. apply IH in Hab. now subst.
  - injection H as -> ->. rewrite N.eqb_refl. simpl. now apply IH.
Qed.

Lemma str_eqb_refl (a : jsstring) : str_eqb a a = true.
Proof. now apply str_eqb_spec. Qed.

Lemma str_eqb_neq (a b : jsstring) : a <> b -> str_eqb a b = false.
Proof.
  intro H. destruct (str_eqb a b) eqn:E; [|reflexivity].
  apply str_eqb_spec in E. contradiction.
Qed.

Lemma replace_not_class_filter (cls : char16 -> bool) (s : jsstring) :
  replace_not_class cls s = filter cls s.
Proof.
  unfold replace_not_class, replace_class.
  apply filter_ext. intro c. apply negb_involutive.
Qed.

Lemma replace_class_app (cls : char16 -> bool) (a b : jsstring) :
  replace_class cls (a ++ b) = replace_class cls a ++ replace_class cls b.
Proof. apply filter_app. Qed.

Lemma firstn_min_length {A : Type} (n : nat) (l : list A) :
  firstn (Nat.min n (length l)) l = firstn n l.
Proof.
  destruct (Nat.le_ge_cases n (length l)) as [H|H].
  - now rewrite Nat.min_l.
  - rewrite Nat.min_r by assumption.
    rewrite firstn_all. symmetry. now apply firstn_all2.
Qed.

(** [s.substring(0, n)] is the first [n] code units of [s]. *)
Lemma substring_prefix (s : jsstring) (n : nat) :
  substring s 0 (Z.of_nat n) = firstn n s.
Proof.
  unfold substring, clamp_index. simpl Z.to_nat.
  rewrite Nat2Z.id. simpl Nat.min.
  rewrite Nat.max_0_l, Nat.sub_0_r. simpl skipn.
  apply firstn_min_length.
Qed.

Lemma substring_0_60 (s : jsstring) : substring s 0 60 = firstn 60 s.
Proof. exact (substring_prefix s 60). Qed.

(** The segment between two positions of a string. *)
Lemma substring_middle (a m b : jsstring) :
  substring (a ++ m ++ b) (Z.of_nat (length a)) (Z.of_nat (length a + length m)) = m.
Proof.
  unfold substring, clamp_index.
  rewrite !Nat2Z.id, !length_app.
  rewrite (Nat.min_l (length a)) by lia.
  rewrite (Nat.min_l (length a + length m)) by lia.
  rewrite Nat.min_l, Nat.max_r by lia.
  replace (length a + length m - length a)%nat with (length m) by lia.
  rewrite skipn_app, skipn_all, Nat.sub_diag. simpl.
  rewrite firstn_app, firstn_all, Nat.sub_diag. simpl.
  apply app_nil_r.
Qed.

(* ================================================================== *)
(** ** [indexOf], [lastIndexOf] *)

Lemma indexOf_lower_bound (c : char16) (s : jsstring) : (-1 <= indexOf c s)%Z.
Proof.
  induction s as [|d s IH]; simpl; [lia|].
  destruct (N.eqb d c); [lia|].
  destruct (Z.ltb_spec (indexOf c s) 0); lia.
Qed.

Lemma indexOf_absent (c : char16) (s : jsstring) :
  ~ In c s -> indexOf c s = (-1)%Z.
Proof.
  induction s as [|d s IH]; simpl; intro H; [reflexivity|].
  destruct (N.eqb_spec d c) as [->|Hd]; [exfalso; auto|].
  rewrite IH by tauto. reflexivity.
Qed.

Lemma indexOf_present (c : char16) (a b : jsstring) :
  ~ In c a -> indexOf c (a ++ c :: b) = Z.of_nat (length a).
Proof.
  induction a as [|d a IH]; simpl; intro H.
  - now rewrite N.eqb_refl.
  - destruct (N.eqb_spec d c) as [->|Hd]; [exfalso; auto|].
    rewrite IH by tauto.
    destruct (Z.ltb_spec (Z.of_nat (length a)) 0); lia.
Qed.

Lemma indexOf_minus1 (c : char16) (s : jsstring) :
  indexOf c s = (-1)%Z -> ~ In c s.
Proof.
  induction s as [|d s IH]; simpl; intro H; [tauto|].
  destruct (N.eqb_spec d c) as [->|Hd]; [discriminate|].
  pose proof (indexOf_lower_bound c s) as L.
  destruct (Z.ltb_spec (indexOf c s) 0); [|lia].
  intros [E|E]; [contradiction|]. apply IH; [lia|assumption].
Qed.

Lemma lastIndexOf_lower_bound (c : char16) (s : jsstring) : (-1 <= lastIndexOf c s)%Z.
Proof.
  induction s as [|d s IH]; simpl; [lia|].
  destruct (Z.ltb_spec (lastIndexOf c s) 0); [|lia].
  destruct (N.eqb d c); lia.
Qed.

Lemma lastIndexOf_absent (c : char16) (s : jsstring) :
  ~ In c s -> lastIndexOf c s = (-1)%Z.
Proof.
  induction s as [|d s IH]; simpl; intro H; [reflexivity|].
  rewrite IH by tauto. simpl.
  destruct (N.eqb_spec d c) as [->|Hd]; [exfalso; auto|reflexivity].
Qed.

Lemma lastIndexOf_present (c : char16) (a b : jsstring) :
  ~ In c b -> lastIndexOf c (a ++ c :: b) = Z.of_nat (length a).
Proof.
  intro H. induction a as [|d a IH]; simpl.
  - rewrite lastIndexOf_absent by assumption. simpl. now rewrite N.eqb_refl.
  - rewrite IH. destruct (Z.ltb_spec (Z.of_nat (length a)) 0); lia.
Qed.

Lemma lastIndexOf_minus1 (c : char16) (s : jsstring) :
  lastIndexOf c s = (-1)%Z -> ~ In c s.
Proof.
  induction s as [|d s IH]; simpl; intro H; [tauto|].
  pose proof (lastIndexOf_lower_bound c s) as L.
  destruct (Z.ltb_spec (lastIndexOf c s) 0); [|lia].
  destruct (N.eqb_spec d c) as [->|Hd]; [discriminate|].
  intros [E|E]; [contradiction|]. apply IH; [lia|assumption].
Qed.

(* ================================================================== *)
(** ** Global replacement of a literal, [trim] *)

Lemma starts_with_length (pat s : jsstring) :
  starts_with pat s = true -> (length pat <= length s)%nat.
Proof.
  revert s; induction pat as [|p pat IH]; intros [|c s]; simpl; intro H;
    try lia; try discriminate.
  apply andb_true_iff in H as [_ H]. apply IH in H. lia.
Qed.

(** A match cannot run over a code unit that the pattern does not contain. *)
Lemma starts_with_barrier (pat x z : jsstring) (c : char16) :
  ~ In c pat -> starts_with pat (x ++ c :: z) = starts_with pat x.
Proof.
  revert x; induction pat as [|p pat IH]; intros x H; [reflexivity|].
  destruct x as [|d x]; simpl.
  - destruct (N.eqb_spec p c) as [->|_]; [exfalso; apply H; now left|reflexivity].
  - rewrite IH; [reflexivity|]. intro Hin. apply H. now right.
Qed.

Lemma replace_literal_from_barrier (pat x z : jsstring) (c : char16) (k : nat) :
  ~ In c pat -> (k <= length x)%nat ->
  replace_literal_from pat k (x ++ c :: z)
  = replace_literal_from pat k x ++ c :: replace_literal_from pat 0 z.
Proof.
  intro Hc. revert k. induction x as [|d x IH]; intros k Hk.
  - assert (k = 0)%nat as -> by (simpl in Hk; lia). simpl.
    destruct pat as [|p pat']; [reflexivity|].
    pose proof (starts_with_barrier (p :: pat') [] z c Hc) as E.
    cbn [app] in E. cbn [app replace_literal_from]. rewrite E. reflexivity.
  - destruct k as [|k].
    + destruct pat as [|p pat'].
      * simpl. f_equal. now apply (IH 0%nat), Nat.le_0_l.
      * change ((d :: x) ++ c :: z) with (d :: (x ++ c :: z)).
        cbn [replace_literal_from].
        change (d :: x ++ c :: z) with ((d :: x) ++ c :: z).
        rewrite (starts_with_barrier (p :: pat') (d :: x) z c Hc).
        destruct (starts_with (p :: pat') (d :: x)) eqn:E.
        -- apply IH. apply starts_with_length in E. simpl in E. lia.
        -- simpl. f_equal. now apply (IH 0%nat), Nat.le_0_l.
    + simpl. apply IH. simpl in Hk. lia.
Qed.

Lemma replace_literal_barrier (pat x z : jsstring) (c : char16) :
  ~ In c pat ->
  replace_literal pat (x ++ c :: z) = replace_literal pat x ++ c :: replace_literal pat z.
Proof.
  intro H. unfold replace_literal.
  now apply replace_literal_from_barrier, Nat.le_0_l.
Qed.

(** Replacement by the empty string only deletes code units. *)
Lemma replace_literal_from_incl (pat s : jsstring) (k : nat) (c : char16) :
  In c (replace_literal_from pat k s) -> In c s.
Proof.
  revert k; induction s as [|d s IH]; intros k; [simpl; tauto|].
  cbn [replace_literal_from].
  destruct k as [|k].
  - destruct pat as [|p pat'].
    + intros [E|E]; [now left|right; eapply IH; eassumption].
    + destruct (starts_with (p :: pat') (d :: s)).
      * intro E. right. eapply IH; eassumption.
      * intros [E|E]; [now left|right; eapply IH; eassumption].
  - intro E. right. eapply IH; eassumption.
Qed.

Lemma replace_literal_incl (pat s : jsstring) (c : char16) :
  In c (replace_literal pat s) -> In c s.
Proof. apply replace_literal_from_incl. Qed.

(** The unfolding of the replacement at a match and away from one. *)
Lemma replace_literal_from_skip (pat s : jsstring) (k : nat) :
  replace_literal_from pat k s = replace_literal_from pat 0 (skipn k s).
Proof.
  revert k; induction s as [|d s IH]; intros [|k]; try reflexivity.
  simpl. apply IH.
Qed.

Lemma replace_literal_match (pat s : jsstring) :
  pat <> [] -> starts_with pat s = true ->
  replace_literal pat s = replace_literal pat (skipn (length pat) s).
Proof.
  intros Hp H. unfold replace_literal.
  destruct pat as [|p pat']; [contradiction|].
  destruct s as [|d s]; [discriminate|].
  cbn [replace_literal_from length skipn]. rewrite H.
  apply replace_literal_from_skip.
Qed.

Lemma replace_literal_no_match (pat : jsstring) (d : char16) (s : jsstring) :
  starts_with pat (d :: s) = false ->
  replace_literal pat (d :: s) = d :: replace_literal pat s.
Proof.
  intro H. unfold replace_literal.
  destruct pat as [|p pat']; [discriminate|].
  cbn [replace_literal_from]. now rewrite H.
Qed.

Lemma trim_start_barrier (p r : jsstring) (c : char16) :
  is_js_space c = false -> trim_start (p ++ c :: r) = trim_start p ++ c :: r.
Proof.
  intro H. induction p as [|d p IH]; simpl.
  - now rewrite H.
  - destruct (is_js_space d); [assumption|reflexivity].
Qed.

Lemma trim_start_incl (s : jsstring) (c : char16) : In c (trim_start s) -> In c s.
Proof.
  induction s as [|d s IH]; simpl; [tauto|].
  destruct (is_js_space d); [|tauto]. intro H. right. now apply IH.
Qed.

(** [trim] leaves everything between two code units that are not white space. *)
Lemma trim_between (p m q : jsstring) (c d : char16) :
  is_js_space c = false -> is_js_space d = false ->
  trim (p ++ c :: m ++ d :: q)
  = trim_start p ++ c :: m ++ d :: rev (trim_start (rev q)).
Proof.
  intros Hc Hd. unfold trim.
  rewrite trim_start_barrier by assumption.
  replace (trim_start p ++ c :: m ++ d :: q)
    with ((trim_start p ++ c :: m) ++ d :: q)
    by (rewrite <- app_assoc; reflexivity).
  rewrite rev_app_distr. cbn [rev]. rewrite <- app_assoc. cbn [app].
  rewrite trim_start_barrier by assumption.
  rewrite rev_app_distr. cbn [rev]. rewrite rev_involutive.
  rewrite <- !app_assoc. reflexivity.
Qed.

(* ================================================================== *)
(** ** [extrairJson] on a text with a bracketed segment *)

Lemma lbracket_not_in_fences : ~ In lbracket fence_json /\ ~ In lbracket fence.
Proof.
  split; intro H; simpl in H;
    repeat (destruct H as [H|H]; [discriminate H|]); exact H.
Qed.

Lemma rbracket_not_in_fences : ~ In rbracket fence_json /\ ~ In rbracket fence.
Proof.
  split; intro H; simpl in H;
    repeat (destruct H as [H|H]; [discriminate H|]); exact H.
Qed.

Lemma strip_fences_bracketed (p m q : jsstring) :
  strip_fences (p ++ lbracket :: m ++ rbracket :: q)
  = trim_start (replace_literal fence (replace_literal fence_json p))
    ++ lbracket :: replace_literal fence (replace_literal fence_json m)
    ++ rbracket
       :: rev (trim_start (rev (replace_literal fence (replace_literal fence_json q)))).
Proof.
  unfold strip_fences.
  destruct lbracket_not_in_fences as [L1 L2].
  destruct rbracket_not_in_fences as [R1 R2].
  rewrite (replace_literal_barrier fence_json p _ lbracket L1).
  rewrite (replace_literal_barrier fence_json m q rbracket R1).
  rewrite (replace_literal_barrier fence _ _ lbracket L2).
  rewrite (replace_literal_barrier fence _ _ rbracket R2).
  now apply trim_between.
Qed.

(** When the stripped text has its first opening bracket before its last
    closing one, the segment between them is what is parsed. *)
Lemma extrairJson_segment (text a m b : jsstring) :
  strip_fences text = a ++ lbracket :: m ++ rbracket :: b ->
  ~ In lbracket a -> ~ In rbracket b ->
  extrairJson text
  = match JSON_parse (lbracket :: m ++ [rbracket]) with
    | Some v => Ok v
    | None => Ok (VArr [])
    end.
Proof.
  intros E Ha Hb. unfold extrairJson, extrairJson_try. rewrite E. cbv zeta.
  rewrite (indexOf_present lbracket a (m ++ rbracket :: b) Ha).
  replace (a ++ lbracket :: m ++ rbracket :: b)
    with ((a ++ lbracket :: m) ++ rbracket :: b) by norm_app.
  rewrite (lastIndexOf_present rbracket (a ++ lbracket :: m) b Hb).
  destruct (Z.eqb_spec (Z.of_nat (length a)) (-1)) as [F|_]; [lia|].
  destruct (Z.eqb_spec (Z.of_nat (length (a ++ lbracket :: m))) (-1)) as [F|_]; [lia|].
  cbn [orb].
  replace ((a ++ lbracket :: m) ++ rbracket :: b)
    with (a ++ (lbracket :: m ++ [rbracket]) ++ b) by norm_app.
  replace (Z.of_nat (length (a ++ lbracket :: m)) + 1)%Z
    with (Z.of_nat (length a + length (lbracket :: m ++ [rbracket]))).
  2:{ rewrite length_app. cbn [length]. rewrite length_app. cbn [length]. lia. }
  rewrite substring_middle.
  destruct (JSON_parse (lbracket :: m ++ [rbracket])); reflexivity.
Qed.

(** When the text before a bracketed segment has no opening bracket and the
    text after it no closing one, the result depends on the segment alone. *)
Lemma extrairJson_bracketed (p m q : jsstring) :
  ~ In lbracket p -> ~ In rbracket q ->
  extrairJson (p ++ lbracket :: m ++ rbracket :: q)
  = match JSON_parse
            (lbracket :: replace_literal fence (replace_literal fence_json m)
             ++ [rbracket]) with
    | Some v => Ok v
    | None => Ok (VArr [])
    end.
Proof.
  intros Hp Hq.
  apply (extrairJson_segment _ _ _ _ (strip_fences_bracketed p m q)).
  - intro H. apply Hp.
    now apply trim_start_incl, replace_literal_incl, replace_literal_incl in H.
  - intro H. apply Hq. apply in_rev in H.
    apply trim_start_incl in H. apply in_rev in H.
    now apply replace_literal_incl, replace_literal_incl in H.
Qed.

(* ================================================================== *)
(** ** [JSON.parse]: what is consumed, and the shape of an array text *)

Lemma skip_ws_split (s : jsstring) :
  exists w, s = w ++ skip_ws s /\ forallb is_json_ws w = true.
Proof.
  induction s as [|c s (w & E & W)]; simpl.
  - now exists [].
  - destruct (is_json_ws c) eqn:Hc.
    + exists (c :: w). simpl. rewrite Hc, W. split; [now f_equal|reflexivity].
    + now exists [].
Qed.

Lemma skip_ws_length (s : jsstring) : (length (skip_ws s) <= length s)%nat.
Proof.
  destruct (skip_ws_split s) as (w & E & _).
  rewrite E at 2. rewrite length_app. lia.
Qed.

Lemma take_digits_split (s ds r : jsstring) :
  take_digits s = (ds, r) -> s = ds ++ r.
Proof.
  revert ds r; induction s as [|c s IH]; simpl; intros ds r H.
  - now injection H as <- <-.
  - destruct (is_digit c).
    + destruct (take_digits s) as [ds' r'] eqn:E.
      injection H as <- <-. simpl. f_equal. now apply IH.
    + now injection H as <- <-.
Qed.

Lemma parse_int_suffix (s ds r : jsstring) :
  parse_int s = Some (ds, r) -> s = ds ++ r.
Proof.
  unfold parse_int. intro H.
  destruct s as [|c t]; [discriminate|].
  destruct (N.eqb c 48).
  - now injection H as <- <-.
  - destruct (in_range 49 57 c); [|discriminate].
    injection H as H. now apply take_digits_split.
Qed.

Lemma parse_frac_suffix (s ds r : jsstring) :
  parse_frac s = Some (ds, r) -> exists c, s = c ++ r.
Proof.
  unfold parse_frac. intro H.
  destruct s as [|c t]; [injection H as <- <-; now exists []|].
  destruct (N.eqb c 46).
  - destruct (take_digits t) as [fs r'] eqn:E.
    apply take_digits_split in E.
    destruct fs; [discriminate|]. injection H as <- <-.
    exists (c :: c0 :: fs). now rewrite E.
  - injection H as <- <-. now exists [].
Qed.

Lemma parse_exp_sign_suffix (s r : jsstring) (b : bool) :
  parse_exp_sign s = (b, r) -> exists c, s = c ++ r.
Proof.
  unfold parse_exp_sign. intro H.
  destruct s as [|g u]; [injection H as <- <-; now exists []|].
  destruct (N.eqb g 43); [injection H as <- <-; now exists [g]|].
  destruct (N.eqb g 45); injection H as <- <-; [now exists [g]|now exists []].
Qed.

Lemma parse_exp_suffix (s r : jsstring) (e : Z) :
  parse_exp s = Some (e, r) -> exists c, s = c ++ r.
Proof.
  unfold parse_exp. intro H.
  destruct s as [|c t]; [injection H as <- <-; now exists []|].
  destruct (N.eqb c 101 || N.eqb c 69).
  - destruct (parse_exp_sign t) as [eneg u] eqn:Es.
    apply parse_exp_sign_suffix in Es as [c1 ->].
    destruct (take_digits u) as [es r'] eqn:E.
    apply take_digits_split in E.
    destruct es; [discriminate|]. injection H as <- <-.
    exists (c :: c1 ++ c0 :: es). rewrite E. simpl. now rewrite <- app_assoc.
  - injection H as <- <-. now exists [].
Qed.

Lemma parse_number_suffix (s r : jsstring) (d : decimal) :
  parse_number s = Some (d, r) -> exists c, s = c ++ r.
Proof.
  unfold parse_number. intro H.
  destruct (parse_minus s) as [neg s1] eqn:Em.
  assert (exists c0, s = c0 ++ s1) as [c0 ->].
  { unfold parse_minus in Em. destruct s as [|c t].
    - injection Em as <- <-. now exists [].
    - destruct (N.eqb c 45); injection Em as <- <-; [now exists [c]|now exists []]. }
  destruct (parse_int s1) as [[ids r1]|] eqn:Ei; [|discriminate].
  apply parse_int_suffix in Ei as ->.
  destruct (parse_frac r1) as [[fds r2]|] eqn:Ef; [|discriminate].
  apply parse_frac_suffix in Ef as [c2 ->].
  destruct (parse_exp r2) as [[e r3]|] eqn:Ee; [|discriminate].
  apply parse_exp_suffix in Ee as [c3 ->].
  injection H as _ <-.
  exists (c0 ++ ids ++ c2 ++ c3). now rewrite <- !app_assoc.
Qed.

Lemma parse_string_chars_suffix_upto (n : nat) (s str r : jsstring) :
  (length s <= n)%nat ->
  parse_string_chars s = Some (str, r) -> exists c, s = c ++ r.
Proof.
  revert s str r; induction n as [|n IH]; intros s str r Hn H.
  - destruct s; [discriminate|simpl in Hn; lia].
  - destruct s as [|c s']; [discriminate|]. simpl in Hn. cbn [parse_string_chars] in H.
    destruct (N.eqb c 34); [injection H as <- <-; now exists [c]|].
    destruct (N.eqb c 92).
    + destruct s' as [|e s'']; [discriminate|]. simpl in Hn.
      destruct (N.eqb e 117).
      * destruct s'' as [|h1 [|h2 [|h3 [|h4 s3]]]]; try discriminate.
        simpl in Hn.
        destruct (hex4 h1 h2 h3 h4); [|discriminate].
        destruct (parse_string_chars s3) as [[str' r']|] eqn:E; [|discriminate].
        injection H as <- <-.
        apply IH in E as [c' ->]; [|lia].
        now exists (c :: e :: h1 :: h2 :: h3 :: h4 :: c').
      * destruct (simple_escape e); [|discriminate].
        destruct (parse_string_chars s'') as [[str' r']|] eqn:E; [|discriminate].
        injection H as <- <-.
        apply IH in E as [c' ->]; [|lia].
        now exists (c :: e :: c').
    + destruct (c <? 32); [discriminate|].
      destruct (parse_string_chars s') as [[str' r']|] eqn:E; [|discriminate].
      injection H as <- <-.
      apply IH in E as [c' ->]; [|lia].
      now exists (c :: c').
Qed.

Lemma parse_string_chars_suffix (s str r : jsstring) :
  parse_string_chars s = Some (str, r) -> exists c, s = c ++ r.
Proof. apply (parse_string_chars_suffix_upto (length s)). apply Nat.le_refl. Qed.

Lemma skipn_suffix (n : nat) (s : jsstring) : exists c, s = c ++ skipn n s.
Proof. exists (firstn n s). symmetry. apply firstn_skipn. Qed.

(** What each parser returns is a suffix of its input; an array has consumed
    an opening bracket first and a closing bracket last. *)
Lemma parse_consumes (f : nat) :
  (forall s v r, parse_value f s = Parsed v r ->
     (exists c, s = c ++ r) /\
     (forall l, v = VArr l -> exists m, s = lbracket :: m ++ rbracket :: r))
  /\ (forall s l r, parse_elements f s = Parsed l r ->
        exists m, s = m ++ rbracket :: r)
  /\ (forall s l r, parse_members f s = Parsed l r -> exists c, s = c ++ r).
Proof.
  induction f as [|f (IHv & IHe & IHm)];
    [repeat split; intros; discriminate|].
  split; [|split].
  - intros s v r H. cbn [parse_value] in H.
    destruct s as [|c s']; [discriminate|].
    destruct (N.eqb_spec c 91) as [->|Hc].
    { destruct (skip_ws_split s') as (w & Ew & _).
      destruct (skip_ws s') as [|d r0]; [discriminate|].
      destruct (N.eqb_spec d 93) as [->|Hd].
      - injection H as <- <-. rewrite Ew.
        split; [exists (91 :: w ++ [93]); simpl; now rewrite <- app_assoc|].
        intros l _. now exists w.
      - unfold map_parsed in H.
        destruct (parse_elements f (d :: r0)) as [l r1| |] eqn:E; try discriminate.
        injection H as <- <-.
        apply IHe in E as [m Em]. rewrite Ew, Em.
        split.
        + exists (91 :: w ++ m ++ [rbracket]).
          simpl. rewrite <- !app_assoc. reflexivity.
        + intros l' _. exists (w ++ m). now rewrite <- app_assoc. }
    destruct (N.eqb_spec c 123) as [->|Hc2].
    { destruct (skip_ws_split s') as (w & Ew & _).
      destruct (skip_ws s') as [|d r0]; [discriminate|].
      destruct (N.eqb d 125).
      - injection H as <- <-. rewrite Ew.
        split; [now exists (123 :: w ++ [d]); simpl; rewrite <- app_assoc|].
        intros l Hl. discriminate.
      - unfold map_parsed in H.
        destruct (parse_members f (d :: r0)) as [l r1| |] eqn:E; try discriminate.
        injection H as <- <-.
        apply IHm in E as [m Em]. rewrite Ew, Em.
        split; [|intros l' Hl; discriminate].
        exists (123 :: w ++ m). simpl. now rewrite <- app_assoc. }
    destruct (N.eqb c 34).
    { destruct (parse_string_chars s') as [[str r1]|] eqn:E; [|discriminate].
      injection H as <- <-. apply parse_string_chars_suffix in E as [c' ->].
      split; [now exists (c :: c')|intros l Hl; discriminate]. }
    destruct (starts_with (lit "true") (c :: s')).
    { injection H as <- <-.
      split; [exact (skipn_suffix 4 (c :: s'))|intros l Hl; discriminate]. }
    destruct (starts_with (lit "false") (c :: s')).
    { injection H as <- <-.
      split; [exact (skipn_suffix 5 (c :: s'))|intros l Hl; discriminate]. }
    destruct (starts_with (lit "null") (c :: s')).
    { injection H as <- <-.
      split; [exact (skipn_suffix 4 (c :: s'))|intros l Hl; discriminate]. }
    destruct (parse_number (c :: s')) as [[d r1]|] eqn:E; [|discriminate].
    injection H as <- <-. apply parse_number_suffix in E.
    split; [assumption|intros l Hl; discriminate].
  - intros s l r H. cbn [parse_elements] in H.
    destruct (parse_value f s) as [v r0| |] eqn:Ev; try discriminate.
    apply IHv in Ev as [[c0 ->] _].
    destruct (skip_ws_split r0) as (w & Ew & _).
    destruct (skip_ws r0) as [|c r']; [discriminate|].
    destruct (N.eqb_spec c 44) as [->|Hc].
    + unfold map_parsed in H.
      destruct (skip_ws_split r') as (w' & Ew' & _).
      destruct (parse_elements f (skip_ws r')) as [l' r1| |] eqn:E; try discriminate.
      injection H as <- <-.
      apply IHe in E as [m Em]. rewrite Ew, Ew', Em.
      exists (c0 ++ w ++ 44 :: w' ++ m). norm_app.
    + destruct (N.eqb_spec c 93) as [->|Hc']; [|discriminate].
      injection H as <- <-. rewrite Ew.
      exists (c0 ++ w). now rewrite <- app_assoc.
  - intros s l r H. cbn [parse_members] in H.
    destruct s as [|q s']; [discriminate|].
    destruct (N.eqb q 34); [|discriminate].
    destruct (parse_string_chars s') as [[k r0]|] eqn:Ek; [|discriminate].
    apply parse_string_chars_suffix in Ek as [c0 ->].
    destruct (skip_ws_split r0) as (w & Ew & _).
    destruct (skip_ws r0) as [|c r']; [discriminate|].
    destruct (N.eqb c 58); [|discriminate].
    destruct (skip_ws_split r') as (w' & Ew' & _).
    destruct (parse_value f (skip_ws r')) as [v r2| |] eqn:Ev; try discriminate.
    apply IHv in Ev as [[c1 Ec1] _].
    destruct (skip_ws_split r2) as (w2 & Ew2 & _).
    destruct (skip_ws r2) as [|c2 r3]; [discriminate|].
    destruct (N.eqb c2 44).
    + unfold map_parsed in H.
      destruct (skip_ws_split r3) as (w3 & Ew3 & _).
      destruct (parse_members f (skip_ws r3)) as [l' r4| |] eqn:E; try discriminate.
      injection H as <- <-.
      apply IHm in E as [c4 Ec4].
      rewrite Ew, Ew', Ec1, Ew2, Ew3, Ec4.
      exists (q :: c0 ++ w ++ c :: w' ++ c1 ++ w2 ++ c2 :: w3 ++ c4).
      norm_app.
    + destruct (N.eqb c2 125); [|discriminate].
      injection H as <- <-.
      rewrite Ew, Ew', Ec1, Ew2.
      exists (q :: c0 ++ w ++ c :: w' ++ c1 ++ w2 ++ [c2]).
      norm_app.
Qed.

Lemma forallb_ws_skip (w : jsstring) : forallb is_json_ws w = true -> skip_ws w = [].
Proof.
  induction w as [|c w IH]; simpl; [reflexivity|].
  intro H. apply andb_true_iff in H as [Hc Hw]. rewrite Hc. now apply IH.
Qed.

(** A text that parses to an array is an opening bracket, a body and a closing
    bracket between white space. *)
Lemma JSON_parse_array_shape (a : jsstring) (items : list value) :
  JSON_parse a = Some (VArr items) ->
  exists w1 m w2,
    a = w1 ++ lbracket :: m ++ rbracket :: w2
    /\ forallb is_json_ws w1 = true /\ forallb is_json_ws w2 = true.
Proof.
  unfold JSON_parse. intro H.
  destruct (parse_value (parse_fuel a) (skip_ws a)) as [v r| |] eqn:E; try discriminate.
  destruct (skip_ws_split r) as (w2 & E2 & W2).
  destruct (skip_ws r); [|discriminate]. injection H as ->.
  rewrite app_nil_r in E2. subst r.
  destruct (parse_consumes (parse_fuel a)) as (Hv & _ & _).
  apply Hv in E as [_ E]. destruct (E items eq_refl) as [m Em].
  destruct (skip_ws_split a) as (w1 & E1 & W1).
  exists w1, m, w2. rewrite <- Em. auto.
Qed.

Lemma map_parsed_fuel {A B : Type} (g : A -> B) (p : parsed A) :
  p <> NoFuel -> map_parsed g p <> NoFuel.
Proof. destruct p; simpl; congruence. Qed.

(** The descent does not run out of fuel that is twice the length of its
    input, and a little more. *)
Lemma parse_fuel_enough (f : nat) :
  (forall s, (2 * length s + 1 <= f)%nat -> parse_value f s <> NoFuel)
  /\ (forall s, (2 * length s + 2 <= f)%nat -> parse_elements f s <> NoFuel)
  /\ (forall s, (2 * length s + 2 <= f)%nat -> parse_members f s <> NoFuel).
Proof.
  induction f as [|f (IHv & IHe & IHm)]; [repeat split; intros; lia|].
  destruct (parse_consumes f) as (Cv & _ & _).
  split; [|split].
  - intros s Hf. cbn [parse_value].
    destruct s as [|c s']; [discriminate|]. cbn [length] in Hf.
    destruct (N.eqb c 91).
    { pose proof (skip_ws_length s') as L.
      destruct (skip_ws s') as [|d r0]; [discriminate|].
      destruct (N.eqb d 93); [discriminate|].
      apply map_parsed_fuel, IHe. cbn [length] in *. lia. }
    destruct (N.eqb c 123).
    { pose proof (skip_ws_length s') as L.
      destruct (skip_ws s') as [|d r0]; [discriminate|].
      destruct (N.eqb d 125); [discriminate|].
      apply map_parsed_fuel, IHm. cbn [length] in *. lia. }
    destruct (N.eqb c 34).
    { destruct (parse_string_chars s') as [[str r]|]; discriminate. }
    destruct (starts_with (lit "true") (c :: s')); [discriminate|].
    destruct (starts_with (lit "false") (c :: s')); [discriminate|].
    destruct (starts_with (lit "null") (c :: s')); [discriminate|].
    destruct (parse_number (c :: s')) as [[d r]|]; discriminate.
  - intros s Hf. cbn [parse_elements].
    pose proof (IHv s) as Fv.
    destruct (parse_value f s) as [v r| |] eqn:E;
      [|discriminate|exfalso; apply Fv; [lia|reflexivity]].
    apply Cv in E as [[c0 ->] _]. rewrite length_app in Hf.
    pose proof (skip_ws_length r) as L.
    destruct (skip_ws r) as [|c r']; [discriminate|]. cbn [length] in L.
    destruct (N.eqb c 44).
    + apply map_parsed_fuel, IHe.
      pose proof (skip_ws_length r'). lia.
    + destruct (N.eqb c 93); discriminate.
  - intros s Hf. cbn [parse_members].
    destruct s as [|q s']; [discriminate|]. cbn [length] in Hf.
    destruct (N.eqb q 34); [|discriminate].
    destruct (parse_string_chars s') as [[k r0]|] eqn:Ek; [|discriminate].
    apply parse_string_chars_suffix in Ek as [c0 ->]. rewrite length_app in Hf.
    pose proof (skip_ws_length r0) as L0.
    destruct (skip_ws r0) as [|c r']; [discriminate|]. cbn [length] in L0.
    destruct (N.eqb c 58); [|discriminate].
    pose proof (skip_ws_length r') as L1.
    pose proof (IHv (skip_ws r')) as Fv.
    destruct (parse_value f (skip_ws r')) as [v r2| |] eqn:Ev;
      [|discriminate|exfalso; apply Fv; [lia|reflexivity]].
    apply Cv in Ev as [[c1 Ec1] _].
    assert (length r2 <= length (skip_ws r'))%nat as L2
        by (rewrite Ec1, length_app; lia).
    pose proof (skip_ws_length r2) as L3.
    destruct (skip_ws r2) as [|c2 r3]; [discriminate|]. cbn [length] in L3.
    destruct (N.eqb c2 44).
    + apply map_parsed_fuel, IHm.
      pose proof (skip_ws_length r3). lia.
    + destruct (N.eqb c2 125); discriminate.
Qed.

(** [JSON_parse] answers [None] only for a text outside the grammar. *)
Lemma JSON_parse_fuel (s : jsstring) :
  parse_value (parse_fuel s) (skip_ws s) <> NoFuel.
Proof.
  destruct (parse_fuel_enough (parse_fuel s)) as (Hv & _ & _).
  apply Hv. unfold parse_fuel. pose proof (skip_ws_length s). lia.
Qed.

(* ================================================================== *)
(** ** Extraction: totality, no partial parse, fences and prose *)

Lemma not_in_existsb (c : char16) (s : jsstring) :
  existsb (N.eqb c) s = false -> ~ In c s.
Proof.
  intros H Hin. assert (existsb (N.eqb c) s = true); [|congruence].
  apply existsb_exists. exists c. split; [assumption|apply N.eqb_refl].
Qed.

(** The value returned is the empty array or the complete parse of the
    segment cut out of the stripped text. *)
Lemma extrairJson_cases (text : jsstring) :
  extrairJson text = Ok (VArr [])
  \/ exists v,
       JSON_parse (substring (strip_fences text)
                     (indexOf lbracket (strip_fences text))
                     (lastIndexOf rbracket (strip_fences text) + 1)) = Some v
       /\ extrairJson text = Ok v.
Proof.
  unfold extrairJson, extrairJson_try. cbv zeta.
  destruct (_ || _); [now left|].
  destruct (JSON_parse _) as [v|] eqn:E; [right; now exists v|now left].
Qed.

(** C5. Extraction is total and never returns a partial parse: for every
    input, [extrairJson] returns a value instead of throwing; when the
    stripped text has no opening or no closing bracket the value is the empty
    array; when the segment from the first opening bracket to the last
    closing bracket is not a JSON text the value is the empty array; and in
    every case the value is the empty array or a complete parse. *)
Theorem extrairJson_total_no_partial_parse (text : jsstring) :
  (exists v, extrairJson text = Ok v)
  /\ (~ In lbracket (strip_fences text) \/ ~ In rbracket (strip_fences text) ->
      extrairJson text = Ok (VArr []))
  /\ (forall a m b,
        strip_fences text = a ++ lbracket :: m ++ rbracket :: b ->
        ~ In lbracket a -> ~ In rbracket b ->
        JSON_parse (lbracket :: m ++ [rbracket]) = None ->
        extrairJson text = Ok (VArr []))
  /\ (extrairJson text = Ok (VArr [])
      \/ exists v,
           JSON_parse (substring (strip_fences text)
                         (indexOf lbracket (strip_fences text))
                         (lastIndexOf rbracket (strip_fences text) + 1)) = Some v
           /\ extrairJson text = Ok v).
Proof.
  repeat split.
  - destruct (extrairJson_cases text) as [E|(v & _ & E)]; eauto.
  - intros H. unfold extrairJson, extrairJson_try. cbv zeta.
    destruct H as [H|H].
    + rewrite (indexOf_absent _ _ H). reflexivity.
    + rewrite (lastIndexOf_absent _ _ H).
      now rewrite orb_true_r.
  - intros a m b E Ha Hb Hparse.
    rewrite (extrairJson_segment text a m b E Ha Hb), Hparse. reflexivity.
  - apply extrairJson_cases.
Qed.

(** C6, as amended. Fences and prose around an array text do not change what
    is extracted, provided the prose before has no opening bracket and the
    prose after has no closing bracket: for every text [a] that parses to an
    array, [extrairJson] of [a] inside a fenced block between such prose
    equals [extrairJson] of [a] alone, whether the block opens with the fence
    marked [json] or with the bare fence. *)
Theorem extrairJson_fenced_prose
  (a : jsstring) (items : list value) (before after : jsstring) :
  JSON_parse a = Some (VArr items) ->
  ~ In lbracket before -> ~ In rbracket after ->
  extrairJson (fenced before a after) = extrairJson a
  /\ extrairJson (before ++ fence ++ a ++ fence ++ after) = extrairJson a.
Proof.
  intros Hparse Hb Ha.
  destruct (JSON_parse_array_shape a items Hparse) as (w1 & m & w2 & -> & W1 & W2).
  assert (Hws : forall w c, forallb is_json_ws w = true -> is_json_ws c = false -> ~ In c w).
  { intros w c Hw Hc Hin. rewrite forallb_forall in Hw.
    apply Hw in Hin. congruence. }
  destruct lbracket_not_in_fences as [L1 L2].
  destruct rbracket_not_in_fences as [_ R2].
  rewrite (extrairJson_bracketed w1 m w2);
    [|now apply Hws|now apply Hws].
  unfold fenced. split.
  - replace (before ++ fence_json ++ (w1 ++ lbracket :: m ++ rbracket :: w2) ++ fence ++ after)
      with ((before ++ fence_json ++ w1) ++ lbracket :: m ++ rbracket :: (w2 ++ fence ++ after))
      by norm_app.
    apply extrairJson_bracketed.
    + rewrite !in_app_iff. intros [H|[H|H]]; [auto|auto|].
      revert H. now apply Hws.
    + rewrite !in_app_iff. intros [H|[H|H]]; [|auto|auto].
      revert H. now apply Hws.
  - replace (before ++ fence ++ (w1 ++ lbracket :: m ++ rbracket :: w2) ++ fence ++ after)
      with ((before ++ fence ++ w1) ++ lbracket :: m ++ rbracket :: (w2 ++ fence ++ after))
      by norm_app.
    apply extrairJson_bracketed.
    + rewrite !in_app_iff. intros [H|[H|H]]; [auto|auto|].
      revert H. now apply Hws.
    + rewrite !in_app_iff. intros [H|[H|H]]; [|auto|auto].
      revert H. now apply Hws.
Qed.

Lemma extrairJson_fenced_prose_witness :
  JSON_parse ([10] ++ sample_array ++ [10]) = Some (VArr [sample_record])
  /\ extrairJson (fenced (lit "Segue o resultado: ") ([10] ++ sample_array ++ [10])
                    (lit " Fim."))
     = extrairJson ([10] ++ sample_array ++ [10]).
Proof.
  assert (H1 : JSON_parse ([10] ++ sample_array ++ [10]) = Some (VArr [sample_record]))
    by reflexivity.
  assert (H2 : ~ In lbracket (lit "Segue o resultado: "))
    by (apply not_in_existsb; reflexivity).
  assert (H3 : ~ In rbracket (lit " Fim."))
    by (apply not_in_existsb; reflexivity).
  split; [exact H1|].
  exact (proj1 (extrairJson_fenced_prose _ _ _ _ H1 H2 H3)).
Defined.

(** C6, as stated, fails when the prose has a bracket of its own: the segment
    then starts in the prose, is not a JSON text, and nothing is extracted. *)
Lemma extrairJson_fenced_counterexample :
  JSON_parse sample_array = Some (VArr [sample_record])
  /\ extrairJson sample_array = Ok (VArr [sample_record])
  /\ extrairJson (fenced (lit "Veja [1]: ") sample_array (lit " Fim.")) = Ok (VArr [])
  /\ extrairJson (fenced (lit "Veja [1]: ") sample_array (lit " Fim."))
     <> extrairJson sample_array.
Proof.
  repeat split; try reflexivity.
  vm_compute. discriminate.
Qed.

(* ================================================================== *)
(** ** [gerarIdEstavel] on strings *)

Lemma Ok_inj {A : Type} (a b : A) : Ok a = Ok b -> a = b.
Proof. intro H. now inversion H. Qed.

Section Identity.
Context {U : UnicodeOps}.

Lemma slugPrazo_string (d : jsstring) :
  slugPrazo (VStr d)
  = Ok (match d with [] => lit "0000" | _ :: _ => filter is_digit d end).
Proof.
  unfold slugPrazo. destruct d as [|c d]; [reflexivity|].
  cbn [truthy]. now rewrite replace_not_class_filter.
Qed.

Lemma gerarIdEstavel_strings (fonteNome t d : jsstring) :
  gerarIdEstavel fonteNome (VStr t) (VStr d)
  = Ok (fonteNome ++ lit "-" ++ firstn 60 (tituloLimpo t) ++ lit "-"
        ++ match d with [] => lit "0000" | _ :: _ => filter is_digit d end).
Proof.
  unfold gerarIdEstavel. rewrite slugPrazo_string, substring_0_60. reflexivity.
Qed.

Lemma gerarIdEstavel_no_prazo (fonteNome t : jsstring) :
  gerarIdEstavel fonteNome (VStr t) VUndefined
  = Ok (fonteNome ++ lit "-" ++ firstn 60 (tituloLimpo t) ++ lit "-" ++ lit "0000").
Proof. unfold gerarIdEstavel. now rewrite substring_0_60. Qed.

(** C4. Distinctness: with title and deadline fixed, different source names
    give different identities; with source name and deadline fixed, the
    identities differ whenever the first 60 characters of the normalized
    titles differ, and agree whenever those agree. *)
Theorem gerarIdEstavel_distinct (s1 s2 t1 t2 d : jsstring) :
  (s1 <> s2 ->
   gerarIdEstavel s1 (VStr t1) (VStr d) <> gerarIdEstavel s2 (VStr t1) (VStr d))
  /\ (firstn 60 (tituloLimpo t1) <> firstn 60 (tituloLimpo t2) ->
      gerarIdEstavel s1 (VStr t1) (VStr d) <> gerarIdEstavel s1 (VStr t2) (VStr d))
  /\ (firstn 60 (tituloLimpo t1) = firstn 60 (tituloLimpo t2) ->
      gerarIdEstavel s1 (VStr t1) (VStr d) = gerarIdEstavel s1 (VStr t2) (VStr d)).
Proof.
  rewrite !gerarIdEstavel_strings. repeat split.
  - intros Hs E. apply Hs. apply Ok_inj in E.
    now apply app_inv_tail in E.
  - intros Ht E. apply Ht. apply Ok_inj in E.
    apply app_inv_head in E. apply app_inv_head in E.
    now apply app_inv_tail in E.
  - intros ->. reflexivity.
Qed.

(** C8. Deadline normalization: the last component of the identity is the
    digits of the deadline, in their order, when the deadline is not empty,
    and the placeholder [0000] when it is empty or missing; either way the
    identity is defined and its deadline component holds digits only. *)
Theorem gerarIdEstavel_deadline (fonteNome t d : jsstring) :
  exists comp,
    gerarIdEstavel fonteNome (VStr t) (VStr d)
    = Ok (fonteNome ++ lit "-" ++ firstn 60 (tituloLimpo t) ++ lit "-" ++ comp)
    /\ comp = match d with [] => lit "0000" | _ :: _ => filter is_digit d end
    /\ forallb is_digit comp = true
    /\ gerarIdEstavel fonteNome (VStr t) VUndefined
       = Ok (fonteNome ++ lit "-" ++ firstn 60 (tituloLimpo t) ++ lit "-" ++ lit "0000").
Proof.
  eexists. split; [apply gerarIdEstavel_strings|].
  split; [reflexivity|]. split; [|apply gerarIdEstavel_no_prazo].
  destruct d as [|c d]; [reflexivity|].
  apply forallb_forall. intros x Hx. now apply filter_In in Hx.
Qed.

(** C10. Deadlines as digit sequences: two non-empty deadlines with the same
    digits in the same order give the same identity under a fixed source and
    title; and when such a deadline has no digit at all its component is the
    empty string, so its identity differs from that of the empty deadline,
    whose component is [0000]. *)
Theorem gerarIdEstavel_digit_subsequence (fonteNome t d1 d2 : jsstring) :
  d1 <> [] -> d2 <> [] -> filter is_digit d1 = filter is_digit d2 ->
  gerarIdEstavel fonteNome (VStr t) (VStr d1)
  = gerarIdEstavel fonteNome (VStr t) (VStr d2)
  /\ (filter is_digit d1 = [] ->
      gerarIdEstavel fonteNome (VStr t) (VStr d1)
      = Ok (fonteNome ++ lit "-" ++ firstn 60 (tituloLimpo t) ++ lit "-")
      /\ gerarIdEstavel fonteNome (VStr t) (VStr d1)
         <> gerarIdEstavel fonteNome (VStr t) (VStr [])).
Proof.
  intros H1 H2 E. rewrite !gerarIdEstavel_strings.
  destruct d1 as [|c1 d1]; [contradiction|].
  destruct d2 as [|c2 d2]; [contradiction|].
  split; [now rewrite E|].
  intro Hnil. rewrite Hnil. rewrite app_nil_r.
  split; [reflexivity|].
  intro F. apply Ok_inj in F.
  apply app_inv_head in F. apply app_inv_head in F.
  apply (f_equal (@length char16)) in F. rewrite !length_app in F.
  cbn [length lit map String.list_ascii_of_string] in F. lia.
Qed.

End Identity.

Lemma gerarIdEstavel_digit_subsequence_witness :
  @gerarIdEstavel Latin1Ops (lit "IPEA") (VStr (lit "Chamada 56/2025")) (VStr (lit "--/--"))
  = @gerarIdEstavel Latin1Ops (lit "IPEA") (VStr (lit "Chamada 56/2025")) (VStr (lit "a definir"))
  /\ @gerarIdEstavel Latin1Ops (lit "IPEA") (VStr (lit "Chamada 56/2025")) (VStr (lit "--/--"))
     <> @gerarIdEstavel Latin1Ops (lit "IPEA") (VStr (lit "Chamada 56/2025")) (VStr []).
Proof.
  destruct (@gerarIdEstavel_digit_subsequence Latin1Ops (lit "IPEA")
              (lit "Chamada 56/2025") (lit "--/--") (lit "a definir"))
    as [E H]; [discriminate|discriminate|reflexivity|].
  split; [exact E|]. exact (proj2 (H eq_refl)).
Defined.

(* ================================================================== *)
(** ** Titles: what a character contributes *)

Lemma in_range_spec (lo hi c : char16) :
  in_range lo hi c = true <-> lo <= c <= hi.
Proof.
  unfold in_range. rewrite andb_true_iff, !N.leb_le. reflexivity.
Qed.

Lemma replace_not_class_app (cls : char16 -> bool) (a b : jsstring) :
  replace_not_class cls (a ++ b) = replace_not_class cls a ++ replace_not_class cls b.
Proof. unfold replace_not_class. apply replace_class_app. Qed.

Lemma lookup_unit_In (c : char16) (table : list (char16 * jsstring)) (l : jsstring) :
  lookup_unit c table = Some l -> In (c, l) table.
Proof.
  unfold lookup_unit.
  destruct (find (fun e => N.eqb (fst e) c) table) as [[c' l']|] eqn:E;
    [|discriminate].
  intro H. injection H as ->. apply find_some in E as [Hin Hc].
  cbn [fst] in Hc. apply N.eqb_eq in Hc. now subst c'.
Qed.

Lemma code_points_of_In (r : N * N) (cp : N) :
  fst r <= cp <= snd r -> In cp (code_points_of r).
Proof.
  intros [H1 H2]. unfold code_points_of. apply in_map_iff.
  exists (N.to_nat (cp - fst r)). split; [lia|]. apply in_seq. lia.
Qed.

(** A property checked on every code point of every range of a table holds
    of each code point the table covers. *)
Lemma forall_in_ranges (P : N -> bool) (ranges : list (N * N)) :
  forallb (fun r => forallb P (code_points_of r)) ranges = true ->
  forall cp, in_ranges ranges cp = true -> P cp = true.
Proof.
  intros H cp Hin. unfold in_ranges in Hin.
  apply existsb_exists in Hin as (r & Hr & Hc).
  rewrite forallb_forall in H. specialize (H r Hr). rewrite forallb_forall in H.
  apply H. apply code_points_of_In. now apply in_range_spec.
Qed.

(** Punctuation, symbols, separators, controls and format characters
    contribute nothing, in any plane. *)
Lemma punctuation_skeleton (cp : N) :
  in_ranges ucd_punctuation_symbols_spaces cp = true ->
  flat_map ucd_skeleton (utf16 cp) = [].
Proof.
  intro H. apply str_eqb_spec.
  apply (forall_in_ranges (fun cp => str_eqb (flat_map ucd_skeleton (utf16 cp)) [])
           ucd_punctuation_symbols_spaces); [vm_compute; reflexivity|exact H].
Qed.

Lemma mark_skeleton (m : char16) :
  in_ranges combining_mark_blocks m = true -> ucd_skeleton m = [].
Proof.
  intro H. apply str_eqb_spec.
  apply (forall_in_ranges (fun m => str_eqb (ucd_skeleton m) [])
           combining_mark_blocks); [vm_compute; reflexivity|exact H].
Qed.

(** A letter and its lowercase mapping contribute the same. *)
Lemma lowercase_skeleton (c : char16) (l : jsstring) :
  lookup_unit c ucd_lowercase = Some l ->
  flat_map ucd_skeleton l = ucd_skeleton c.
Proof.
  intro H. apply lookup_unit_In in H.
  assert (forallb (fun e => str_eqb (flat_map ucd_skeleton (snd e)) (ucd_skeleton (fst e)))
            ucd_lowercase = true) as T by (vm_compute; reflexivity).
  rewrite forallb_forall in T. apply str_eqb_spec. exact (T _ H).
Qed.

Lemma lowercase_supplementary_skeleton (cp cp' : N) :
  lower_supplementary cp = Some cp' ->
  flat_map ucd_skeleton (utf16 cp) = [] /\ flat_map ucd_skeleton (utf16 cp') = [].
Proof.
  unfold lower_supplementary.
  destruct (find (fun r => in_range (fst (fst r)) (snd (fst r)) cp)
              ucd_lowercase_supplementary) as [[[lo hi] delta]|] eqn:E;
    [|discriminate].
  intro H. injection H as <-. apply find_some in E as [Hin Hc].
  cbn [fst snd] in *.
  assert (forallb
            (fun r => forallb
                        (fun cp => str_eqb (flat_map ucd_skeleton (utf16 cp)) []
                                   && str_eqb (flat_map ucd_skeleton (utf16 (cp + snd r))) [])
                        (code_points_of (fst r)))
            ucd_lowercase_supplementary = true) as T by (vm_compute; reflexivity).
  rewrite forallb_forall in T. specialize (T _ Hin). cbn [fst snd] in T.
  rewrite forallb_forall in T.
  specialize (T cp (code_points_of_In (lo, hi) cp (proj1 (in_range_spec lo hi cp) Hc))).
  apply andb_true_iff in T as [T1 T2]. split; now apply str_eqb_spec.
Qed.

(** A letter with diacritical marks and its decomposition without the marks
    contribute the same. *)
Lemma decomposition_skeleton (c : char16) (d : jsstring) :
  lookup_unit c ucd_decompositions = Some d ->
  flat_map ucd_skeleton (replace_class is_combining_mark d) = ucd_skeleton c.
Proof.
  intro H. apply lookup_unit_In in H.
  assert (forallb (fun e => str_eqb
                              (flat_map ucd_skeleton
                                 (replace_class is_combining_mark (snd e)))
                              (ucd_skeleton (fst e)))
            ucd_decompositions = true) as T by (vm_compute; reflexivity).
  rewrite forallb_forall in T. apply str_eqb_spec. exact (T _ H).
Qed.

Lemma title_step_skeleton (t1 t2 : jsstring) :
  title_step t1 t2 -> flat_map ucd_skeleton t1 = flat_map ucd_skeleton t2.
Proof.
  intros [a c l b H|a cp cp' b H|a cp b H|a c d b H|a m b H];
    rewrite ?flat_map_app; cbn [flat_map]; rewrite ?flat_map_app.
  - now rewrite (lowercase_skeleton c l H).
  - apply lowercase_supplementary_skeleton in H as [-> ->]. reflexivity.
  - now rewrite (punctuation_skeleton cp H).
  - now rewrite (decomposition_skeleton c d H).
  - now rewrite (mark_skeleton m H).
Qed.

Lemma title_variant_skeleton (t1 t2 : jsstring) :
  title_variant t1 t2 -> flat_map ucd_skeleton t1 = flat_map ucd_skeleton t2.
Proof.
  induction 1 as [x y H|x|x y _ IH|x y z _ IH1 _ IH2].
  - now apply title_step_skeleton.
  - reflexivity.
  - now symmetry.
  - now transitivity (flat_map ucd_skeleton y).
Qed.

(** On an engine that implements Unicode the normalized title is assembled
    character by character. *)
Lemma tituloLimpo_skeleton (U : UnicodeOps) (t : jsstring) :
  UnicodeEngine U -> tituloLimpo t = flat_map ucd_skeleton t.
Proof. intro H. apply H. Qed.

Lemma UcdOps_engine : UnicodeEngine UcdOps.
Proof.
  intro s. cbn [toLowerCase normalizeNFD UcdOps].
  induction s as [|c s IH]; [reflexivity|]. cbn [flat_map].
  rewrite flat_map_app, replace_class_app, replace_not_class_app, IH. reflexivity.
Qed.

(** On Basic Latin and Latin-1 the two instances are the same. *)
Lemma Latin1Ops_agrees (c : char16) :
  c < 256 -> ucd_lower c = [lower1 c] /\ ucd_decomp c = decomp1 c.
Proof.
  intro H.
  assert (in_ranges [(0, 255)] c = true) as Hr.
  { unfold in_ranges. cbn [existsb fst snd]. rewrite orb_false_r.
    apply in_range_spec. lia. }
  pose proof (forall_in_ranges
                (fun c => str_eqb (ucd_lower c) [lower1 c]
                          && str_eqb (ucd_decomp c) (decomp1 c))
                [(0, 255)] ltac:(vm_compute; reflexivity) c Hr) as T.
  apply andb_true_iff in T as [T1 T2]. split; now apply str_eqb_spec.
Qed.

Lemma prazo_variant_digits (d1 d2 : jsstring) :
  prazo_variant d1 d2 -> filter is_digit d1 = filter is_digit d2.
Proof.
  induction 1 as [x y H|x|x y _ IH|x y z _ IH1 _ IH2].
  - destruct H as [a c b Hc]. rewrite !filter_app. cbn [filter]. now rewrite Hc.
  - reflexivity.
  - now symmetry.
  - now transitivity (filter is_digit y).
Qed.

(** C3, as amended. Normalization invariance: on an engine that implements
    the case mappings and the canonical decompositions of Unicode, two
    titles, of any characters, have the same identity when they differ only
    in punctuation, symbols, white space and other separators, in accents (a
    combining diacritical mark more or less, a letter with marks against its
    decomposition without them), or in case as lowercasing removes it (a
    letter against its lowercase mapping), and their deadlines differ only
    in separator characters and are both empty or both non-empty; in
    particular the identity of [Edital 01/2025] with deadline [15/12/2025] is
    that of [  EDITAL 01/2025!! ] with deadline [15-12-2025]. *)
Theorem gerarIdEstavel_normalization (U : UnicodeOps) :
  UnicodeEngine U ->
  (forall fonteNome t1 t2 d1 d2,
     title_variant t1 t2 -> prazo_variant d1 d2 -> (d1 = [] <-> d2 = []) ->
     gerarIdEstavel fonteNome (VStr t1) (VStr d1)
     = gerarIdEstavel fonteNome (VStr t2) (VStr d2))
  /\ gerarIdEstavel (lit "X") (VStr (lit "Edital 01/2025")) (VStr (lit "15/12/2025"))
     = gerarIdEstavel (lit "X") (VStr (lit "  EDITAL 01/2025!! "))
         (VStr (lit "15-12-2025")).
Proof.
  intros HU. split.
  - intros fonteNome t1 t2 d1 d2 Ht Hd He.
    rewrite !gerarIdEstavel_strings.
    rewrite !(tituloLimpo_skeleton U _ HU).
    rewrite (title_variant_skeleton t1 t2 Ht).
    apply prazo_variant_digits in Hd.
    destruct d1 as [|c1 d1], d2 as [|c2 d2].
    + reflexivity.
    + destruct He as [He _]. discriminate (He eq_refl).
    + destruct He as [_ He]. discriminate (He eq_refl).
    + now rewrite Hd.
  - rewrite !gerarIdEstavel_strings.
    rewrite !(tituloLimpo_skeleton U _ HU).
    vm_compute. reflexivity.
Qed.

(** The titles [Ç–Ő] (with an en dash) and [co] with the deadlines [1/2] and
    [12]. *)
Lemma gerarIdEstavel_normalization_witness :
  @gerarIdEstavel UcdOps (lit "X") (VStr [199; 8211; 336]) (VStr (lit "1/2"))
  = @gerarIdEstavel UcdOps (lit "X") (VStr (lit "co")) (VStr (lit "12")).
Proof.
  apply (proj1 (gerarIdEstavel_normalization UcdOps UcdOps_engine)).
  - apply rst_trans with (y := [231; 8211; 336]);
      [apply rst_step; exact (step_case [] 199 [231] [8211; 336] eq_refl)|].
    apply rst_trans with (y := [99; 8211; 336]);
      [apply rst_step; exact (step_accent [] 231 [99; 807] [8211; 336] eq_refl)|].
    apply rst_trans with (y := [99; 336]);
      [apply rst_step; exact (step_punct [99] 8211 [336] eq_refl)|].
    apply rst_trans with (y := [99; 337]);
      [apply rst_step; exact (step_case [99] 336 [337] [] eq_refl)|].
    apply rst_step. exact (step_accent [99] 337 [111; 779] [] eq_refl).
  - apply rst_step. exact (step_separator (lit "1") 47 (lit "2") eq_refl).
  - split; discriminate.
Defined.

(** C3, as stated, fails in two ways.  A deadline made of separators only
    differs from the empty deadline only in separator characters, and its
    identity ends in an empty component where the other ends in [0000].  And
    [STRASSE] and [straße] differ only in case, both being [STRASSE] in
    capitals, but lowercasing does not bring them together: the sharp s
    stays and is then removed, so the identities have [strasse] and
    [strae]. *)
Lemma gerarIdEstavel_normalization_counterexample :
  (title_variant (lit "Edital 01/2025") (lit "Edital 01/2025")
   /\ prazo_variant (lit "-") []
   /\ @gerarIdEstavel UcdOps (lit "X") (VStr (lit "Edital 01/2025")) (VStr (lit "-"))
      = Ok (lit "X-edital012025-")
   /\ @gerarIdEstavel UcdOps (lit "X") (VStr (lit "Edital 01/2025")) (VStr [])
      = Ok (lit "X-edital012025-0000")
   /\ @gerarIdEstavel UcdOps (lit "X") (VStr (lit "Edital 01/2025")) (VStr (lit "-"))
      <> @gerarIdEstavel UcdOps (lit "X") (VStr (lit "Edital 01/2025")) (VStr []))
  /\ (flat_map upper1 (lit "STRASSE") = lit "STRASSE"
      /\ flat_map upper1 [115; 116; 114; 97; 223; 101] = lit "STRASSE"
      /\ @gerarIdEstavel UcdOps (lit "X") (VStr (lit "STRASSE")) (VStr (lit "1"))
         = Ok (lit "X-strasse-1")
      /\ @gerarIdEstavel UcdOps (lit "X") (VStr [115; 116; 114; 97; 223; 101])
           (VStr (lit "1"))
         = Ok (lit "X-strae-1")
      /\ @gerarIdEstavel UcdOps (lit "X") (VStr (lit "STRASSE")) (VStr (lit "1"))
         <> @gerarIdEstavel UcdOps (lit "X") (VStr [115; 116; 114; 97; 223; 101])
              (VStr (lit "1"))).
Proof.
  split.
  - split; [apply rst_refl|].
    split; [apply rst_step; exact (step_separator [] 45 [] eq_refl)|].
    split; [vm_compute; reflexivity|]. split; [vm_compute; reflexivity|].
    vm_compute. discriminate.
  - split; [reflexivity|]. split; [reflexivity|].
    split; [vm_compute; reflexivity|]. split; [vm_compute; reflexivity|].
    vm_compute. discriminate.
Qed.

(* ================================================================== *)
(** ** The table and one step of the loop *)

Lemma db_get_none (t : Table) (id : jsstring) :
  db_get t id = None <-> ~ In id (ids_of_table t).
Proof.
  unfold db_get, ids_of_table. induction t as [|r t IH]; simpl; [tauto|].
  destruct (str_eqb (row_id r) id) eqn:E.
  - apply str_eqb_spec in E. split; [discriminate|]. intro H. exfalso. auto.
  - rewrite IH. split; [|tauto].
    intros H [F|F]; [|auto]. subst. now rewrite str_eqb_refl in E.
Qed.

Lemma existsb_str_eqb (id : jsstring) (l : list jsstring) :
  existsb (str_eqb id) l = true <-> In id l.
Proof.
  rewrite existsb_exists. split.
  - intros (x & Hx & E). apply str_eqb_spec in E. now subst.
  - intro H. exists id. split; [assumption|apply str_eqb_refl].
Qed.

(** After the membership check has answered "absent", the insertion cannot
    violate the primary key. *)
Lemma db_run_insert_absent (t : Table) (r : Row) :
  db_get t (row_id r) = None -> db_run_insert t r = Ok (t ++ [r]).
Proof. unfold db_run_insert. now intros ->. Qed.

Section Loop.
Context {U : UnicodeOps}.

(** An item with a title that is not truthy leaves the state as it is. *)
Lemma process_item_falsy (fonte : Fonte) (st : State) (item titulo : value) :
  get_prop item (lit "titulo") = Ok titulo -> truthy titulo = false ->
  process_item fonte st item = Ok st.
Proof. unfold process_item. intros -> H. cbn [bind]. now rewrite H. Qed.

(** An item whose identity is in the table leaves the state as it is. *)
Lemma process_item_seen (fonte : Fonte) (st : State) (item titulo prazo : value)
  (id : jsstring) :
  get_prop item (lit "titulo") = Ok titulo -> truthy titulo = true ->
  get_prop item (lit "prazo") = Ok prazo ->
  gerarIdEstavel (nome fonte) titulo prazo = Ok id ->
  In id (ids_of_table (db st)) ->
  process_item fonte st item = Ok st.
Proof.
  unfold process_item. intros Et Ht Ep Eid Hin.
  rewrite Et. cbn [bind]. rewrite Ht. cbn [negb].
  rewrite Ep. cbn [bind]. rewrite Eid. cbn [bind].
  destruct (db_get (db st) id) eqn:E; [reflexivity|].
  apply db_get_none in E. contradiction.
Qed.

(** An item whose identity is not in the table is inserted and pushed. *)
Lemma process_item_new (fonte : Fonte) (st : State) (item titulo prazo : value)
  (id : jsstring) :
  get_prop item (lit "titulo") = Ok titulo -> truthy titulo = true ->
  get_prop item (lit "prazo") = Ok prazo ->
  gerarIdEstavel (nome fonte) titulo prazo = Ok id ->
  ~ In id (ids_of_table (db st)) ->
  process_item fonte st item
  = Ok {| db := db st ++ [{| row_id := id; row_projeto := titulo;
                             row_prazo := prazo; row_fonte := nome fonte |}];
          novasOportunidades :=
            novasOportunidades st ++
            [{| id_unico := id; op_titulo := titulo; op_prazo := prazo;
                fonte_nome := nome fonte; fonte_url := url fonte;
                op_cor := cor fonte |}];
          console :=
            console st ++
            [LogDetectado (nome fonte)
               (match titulo with VStr t => substring t 0 60 | _ => [] end)] |}.
Proof.
  unfold process_item. intros Et Ht Ep Eid Hin.
  rewrite Et. cbn [bind]. rewrite Ht. cbn [negb].
  rewrite Ep. cbn [bind]. rewrite Eid. cbn [bind].
  apply db_get_none in Hin. rewrite Hin.
  rewrite db_run_insert_absent by exact Hin. reflexivity.
Qed.

(** Every step either keeps the state or appends one row, one record with the
    same fresh identity, and one console line. *)
Lemma process_item_cases (fonte : Fonte) (st st' : State) (item : value) :
  process_item fonte st item = Ok st' ->
  st' = st
  \/ exists r o e,
       ~ In (row_id r) (ids_of_table (db st))
       /\ id_unico o = row_id r /\ is_send e = false
       /\ db st' = db st ++ [r]
       /\ novasOportunidades st' = novasOportunidades st ++ [o]
       /\ console st' = console st ++ [e].
Proof.
  intro H.
  destruct (get_prop item (lit "titulo")) as [titulo|e] eqn:Et;
    [|unfold process_item in H; rewrite Et in H; discriminate].
  destruct (truthy titulo) eqn:Htr;
    [|rewrite (process_item_falsy fonte st item titulo Et Htr) in H;
      left; now inversion H].
  destruct (get_prop item (lit "prazo")) as [prazo|e] eqn:Ep;
    [|unfold process_item in H; rewrite Et in H; cbn [bind] in H;
      rewrite Htr, Ep in H; discriminate].
  destruct (gerarIdEstavel (nome fonte) titulo prazo) as [id|e] eqn:Eid;
    [|unfold process_item in H; rewrite Et in H; cbn [bind] in H;
      rewrite Htr, Ep in H; cbn [bind negb] in H; rewrite Eid in H; discriminate].
  destruct (in_dec (list_eq_dec N.eq_dec) id (ids_of_table (db st))) as [Hin|Hout].
  - rewrite (process_item_seen fonte st item titulo prazo id Et Htr Ep Eid Hin) in H.
    left. now inversion H.
  - rewrite (process_item_new fonte st item titulo prazo id Et Htr Ep Eid Hout) in H.
    right. inversion H. subst st'. cbn [db novasOportunidades console].
    eexists _, _, _. repeat split; try reflexivity. exact Hout.
Qed.

Lemma for_items_app (fonte : Fonte) (a b : list value) (st : State) :
  for_items fonte (a ++ b) st
  = match for_items fonte a st with
    | (st', None) => for_items fonte b st'
    | (st', Some e) => (st', Some e)
    end.
Proof.
  revert st; induction a as [|x a IH]; intro st; [reflexivity|].
  cbn [app for_items]. destruct (process_item fonte st x); [apply IH|reflexivity].
Qed.


Lemma no_send_step (fonte : Fonte) (st st' : State) (item : value) :
  existsb is_send (console st) = false -> process_item fonte st item = Ok st' ->
  existsb is_send (console st') = false.
Proof.
  intros Hc H.
  apply process_item_cases in H
    as [->|(r & o & e & _ & _ & He & _ & _ & Hcon)]; [assumption|].
  rewrite Hcon, existsb_app, Hc. cbn [existsb]. now rewrite He.
Qed.

Lemma no_send_items (fonte : Fonte) (items : list value) (st : State) :
  existsb is_send (console st) = false ->
  existsb is_send (console (fst (for_items fonte items st))) = false.
Proof.
  revert st; induction items as [|x items IH]; intros st Hst; [exact Hst|].
  cbn [for_items]. destruct (process_item fonte st x) as [st'|e] eqn:E; [|exact Hst].
  apply IH. eapply no_send_step; eassumption.
Qed.

Lemma no_send_grupos (grupos : list (Fonte * value)) (st : State) :
  existsb is_send (console st) = false ->
  existsb is_send (console (fst (for_grupos grupos st))) = false.
Proof.
  revert st; induction grupos as [|[fonte dados] grupos IH]; intros st Hst;
    [exact Hst|].
  cbn [for_grupos]. destruct (iterate dados) as [items|e]; [|exact Hst].
  pose proof (no_send_items fonte items st Hst) as Hi.
  destruct (for_items fonte items st) as [st' [e|]]; [exact Hi|].
  now apply IH.
Qed.




End Loop.

(* ================================================================== *)
(** ** The run: duplicates, invalid records, the notification *)



(** C7. Invalid-record skip: a candidate whose [titulo] is missing or empty
    leaves the table, the batch and the console as they are and raises no
    error, whatever its other fields; a run over a list with such a candidate
    is the run over the list without it. *)
Theorem invalid_record_skipped (U : UnicodeOps)
  (fonte : Fonte) (st : State) (item titulo : value) :
  get_prop item (lit "titulo") = Ok titulo ->
  titulo = VUndefined \/ titulo = VStr [] ->
  process_item fonte st item = Ok st
  /\ forall before after st0,
       for_items fonte (before ++ item :: after) st0
       = for_items fonte (before ++ after) st0.
Proof.
  intros Et Hempty.
  assert (Hf : truthy titulo = false) by (destruct Hempty; subst; reflexivity).
  split; [now apply (process_item_falsy fonte st item titulo)|].
  intros before after st0. rewrite !for_items_app.
  destruct (for_items fonte before st0) as [st1 [e|]]; [reflexivity|].
  cbn [for_items].
  now rewrite (process_item_falsy fonte st1 item titulo Et Hf).
Qed.

Lemma invalid_record_skipped_witness :
  @process_item Latin1Ops FONTE_IPEA (initial_state []) sample_untitled
  = Ok (initial_state [])
  /\ @for_items Latin1Ops FONTE_IPEA
       [sample_untitled; candidate_value sample_candidate] (initial_state [])
     = @for_items Latin1Ops FONTE_IPEA
         [candidate_value sample_candidate] (initial_state []).
Proof.
  destruct (invalid_record_skipped Latin1Ops FONTE_IPEA (initial_state [])
              sample_untitled VUndefined eq_refl (or_introl eq_refl)) as [H1 H2].
  split; [exact H1|]. exact (H2 [] [candidate_value sample_candidate] (initial_state [])).
Defined.

Lemma enviarEmailResumo_sends (env : Env) (ops : list Oportunidade)
  (to : jsstring) (itens : list Oportunidade) :
  In (SendMail to itens) (enviarEmailResumo env ops) ->
  itens = ops /\ env_set (EMAIL_USER env) = true /\ env_set (EMAIL_TO env) = true.
Proof.
  unfold enviarEmailResumo.
  destruct (env_set (EMAIL_USER env)), (env_set (EMAIL_TO env)); cbn [negb orb In];
    try tauto.
  intros [H|[H|F]]; [|exfalso|contradiction].
  - inversion H. auto.
  - destruct (sendMail_ok env); discriminate.
Qed.

Lemma no_send_in (to : jsstring) (itens : list Oportunidade) (l : list Event) :
  existsb is_send l = false -> ~ In (SendMail to itens) l.
Proof.
  intros H Hin. assert (existsb is_send l = true); [|congruence].
  apply existsb_exists. now exists (SendMail to itens).
Qed.

(** C9. Empty-batch suppression: in every run, when the list of new records
    is empty no message is composed or handed to the transport; a message in
    the trace means that the loops ended without an exception, that it carries
    the new records, that there is at least one, and that sender and
    recipient are configured. *)
Theorem empty_batch_suppression (U : UnicodeOps)
  (env : Env) (grupos : list (Fonte * value)) (db0 : Table) :
  let r := for_grupos grupos (initial_state db0) in
  let events := snd (fst (run env grupos db0)) in
  (novasOportunidades (fst r) = [] -> existsb is_send events = false)
  /\ (forall to itens,
        In (SendMail to itens) events ->
        snd r = None /\ itens = novasOportunidades (fst r) /\ itens <> []
        /\ env_set (EMAIL_USER env) = true /\ env_set (EMAIL_TO env) = true)
  /\ notify env [] = [LogNenhumaAlteracao].
Proof.
  intros r events.
  pose proof (no_send_grupos grupos (initial_state db0) eq_refl) as Hc.
  fold r in Hc. unfold events, run. fold r.
  destruct r as [st [e|]]; cbn [fst snd] in *.
  - split; [intros _; exact Hc|]. split; [|reflexivity].
    intros to itens Hin. exfalso. revert Hin. now apply no_send_in.
  - split; [|split; [|reflexivity]].
    + intros ->. rewrite existsb_app, Hc. reflexivity.
    + intros to itens Hin. apply in_app_or in Hin as [Hin|Hin];
        [exfalso; revert Hin; now apply no_send_in|].
      unfold notify in Hin.
      destruct (novasOportunidades st) as [|o ops] eqn:En.
      * cbn in Hin. destruct Hin as [Hin|[]]. discriminate.
      * cbn [length Nat.ltb Nat.leb] in Hin. destruct Hin as [Hin|Hin]; [discriminate|].
        apply enviarEmailResumo_sends in Hin as (-> & Hu & Ht).
        repeat split; try assumption. discriminate.
Qed.

(* ================================================================== *)
(** ** Reconciliation of a list of candidate records *)

Lemma get_titulo_candidate (c : Candidate) :
  get_prop (candidate_value c) (lit "titulo") = Ok (field_value (c_titulo c)).
Proof. destruct c as [[t|] [p|]]; reflexivity. Qed.

Lemma get_prazo_candidate (c : Candidate) :
  get_prop (candidate_value c) (lit "prazo") = Ok (field_value (c_prazo c)).
Proof. destruct c as [[t|] [p|]]; reflexivity. Qed.

Section Reconcile.
Context {U : UnicodeOps}.
Variable fonte : Fonte.

Lemma truthy_titulo_candidate (c : Candidate) :
  truthy (field_value (c_titulo c)) = valid c.
Proof. destruct c as [[[|x t]|] p]; reflexivity. Qed.

(** For a valid candidate the code computes the identity of the
    specification. *)
Lemma gerarIdEstavel_candidate (c : Candidate) :
  valid c = true ->
  gerarIdEstavel (nome fonte) (field_value (c_titulo c)) (field_value (c_prazo c))
  = Ok (identity fonte c).
Proof.
  destruct c as [[[|x t]|] p]; try discriminate. intros _.
  unfold identity. cbn [c_titulo c_prazo field_value].
  destruct p as [d|]; cbn [field_value].
  - rewrite gerarIdEstavel_strings. now destruct d.
  - apply gerarIdEstavel_no_prazo.
Qed.

Lemma process_candidate (st : State) (c : Candidate) :
  process_item fonte st (candidate_value c)
  = Ok (if valid c && negb (existsb (str_eqb (identity fonte c)) (ids_of_table (db st)))
        then record_new fonte st c
        else st).
Proof.
  destruct (valid c) eqn:Hv; cbn [andb].
  - destruct (existsb (str_eqb (identity fonte c)) (ids_of_table (db st))) eqn:E;
      cbn [negb].
    + apply existsb_str_eqb in E.
      apply (process_item_seen fonte st (candidate_value c)
               (field_value (c_titulo c)) (field_value (c_prazo c))
               (identity fonte c) (get_titulo_candidate c));
        [now rewrite truthy_titulo_candidate
        |apply get_prazo_candidate
        |now apply gerarIdEstavel_candidate
        |exact E].
    + assert (~ In (identity fonte c) (ids_of_table (db st))) as Hout.
      { intro Hin. apply existsb_str_eqb in Hin. congruence. }
      rewrite (process_item_new fonte st (candidate_value c)
                 (field_value (c_titulo c)) (field_value (c_prazo c))
                 (identity fonte c) (get_titulo_candidate c)
                 (eq_trans (truthy_titulo_candidate c) Hv)
                 (get_prazo_candidate c) (gerarIdEstavel_candidate c Hv) Hout).
      clear E Hout. destruct c as [[t|] p]; [|discriminate Hv].
      unfold record_new. cbn [c_titulo field_value].
      rewrite substring_0_60. reflexivity.
  - apply (process_item_falsy fonte st (candidate_value c)
             (field_value (c_titulo c)) (get_titulo_candidate c)).
    now rewrite truthy_titulo_candidate.
Qed.

Lemma ids_record_new (st : State) (c : Candidate) :
  ids_of_table (db (record_new fonte st c))
  = ids_of_table (db st) ++ [identity fonte c].
Proof. unfold ids_of_table. cbn [record_new db]. now rewrite map_app. Qed.

(** The loop over candidate records never throws, and records exactly the
    first occurrences of the identities that the table does not have. *)
Lemma for_items_candidates (cands : list Candidate) (st : State) :
  for_items fonte (map candidate_value cands) st
  = (fold_left (record_new fonte)
       (first_seen fonte (ids_of_table (db st)) cands) st, None).
Proof.
  revert st; induction cands as [|c cands IH]; intro st; [reflexivity|].
  cbn [map for_items first_seen]. rewrite process_candidate.
  destruct (valid c && negb (existsb (str_eqb (identity fonte c)) (ids_of_table (db st)))).
  - rewrite IH, ids_record_new. reflexivity.
  - apply IH.
Qed.

Lemma fold_record_new (l : list Candidate) (st : State) :
  db (fold_left (record_new fonte) l st) = db st ++ map (row_of fonte) l
  /\ novasOportunidades (fold_left (record_new fonte) l st)
     = novasOportunidades st ++ map (oportunidade_of fonte) l.
Proof.
  revert st; induction l as [|c l IH]; intro st; cbn [fold_left map].
  - now rewrite !app_nil_r.
  - destruct (IH (record_new fonte st c)) as [-> ->].
    cbn [record_new db novasOportunidades]. now rewrite <- !app_assoc.
Qed.

Lemma first_seen_sound (cands : list Candidate) (seen : list jsstring) (c : Candidate) :
  In c (first_seen fonte seen cands) ->
  In c cands /\ valid c = true /\ ~ In (identity fonte c) seen.
Proof.
  revert seen; induction cands as [|x cands IH]; intros seen; cbn [first_seen];
    [intros []|].
  destruct (valid x) eqn:Hv; cbn [andb].
  - destruct (existsb (str_eqb (identity fonte x)) seen) eqn:E; cbn [negb].
    + intro H. apply IH in H as (H1 & H2 & H3). repeat split; auto. now right.
    + intros [<-|H].
      * repeat split; [now left|assumption|].
        intro Hin. apply existsb_str_eqb in Hin. congruence.
      * apply IH in H as (H1 & H2 & H3). repeat split; auto; [now right|].
        intro Hin. apply H3. apply in_or_app. now left.
  - intro H. apply IH in H as (H1 & H2 & H3). repeat split; auto. now right.
Qed.

Lemma first_seen_NoDup (cands : list Candidate) (seen : list jsstring) :
  NoDup (map (identity fonte) (first_seen fonte seen cands)).
Proof.
  revert seen; induction cands as [|x cands IH]; intros seen; cbn [first_seen];
    [constructor|].
  destruct (valid x && negb (existsb (str_eqb (identity fonte x)) seen)); [|apply IH].
  cbn [map]. constructor; [|apply IH].
  intro Hin. apply in_map_iff in Hin as (c & Ec & Hc).
  apply first_seen_sound in Hc as (_ & _ & Hout).
  apply Hout. rewrite Ec. apply in_or_app. right. now left.
Qed.

Lemma first_seen_complete (cands : list Candidate) (seen : list jsstring) (c : Candidate) :
  In c cands -> valid c = true ->
  In (identity fonte c) (seen ++ map (identity fonte) (first_seen fonte seen cands)).
Proof.
  revert seen; induction cands as [|x cands IH]; intros seen; [intros []|].
  intros [->|Hin] Hv; cbn [first_seen].
  - rewrite Hv. cbn [andb].
    destruct (existsb (str_eqb (identity fonte c)) seen) eqn:E; cbn [negb].
    + apply existsb_str_eqb in E. apply in_or_app. now left.
    + apply in_or_app. right. now left.
  - destruct (valid x && negb (existsb (str_eqb (identity fonte x)) seen)).
    + specialize (IH (seen ++ [identity fonte x]) Hin Hv).
      rewrite <- app_assoc in IH. exact IH.
    + now apply IH.
Qed.

Lemma first_seen_all (cands : list Candidate) (seen : list jsstring) :
  NoDup (seen ++ map (identity fonte) (filter valid cands)) ->
  first_seen fonte seen cands = filter valid cands.
Proof.
  revert seen; induction cands as [|x cands IH]; intros seen Hnd; [reflexivity|].
  cbn [first_seen filter] in *. destruct (valid x); cbn [andb].
  - cbn [map] in Hnd.
    assert (~ In (identity fonte x) seen) as Hout.
    { intro Hin. apply NoDup_remove_2 in Hnd. apply Hnd.
      apply in_or_app. now left. }
    destruct (existsb (str_eqb (identity fonte x)) seen) eqn:E;
      [apply existsb_str_eqb in E; contradiction|].
    cbn [negb]. f_equal. apply IH. rewrite <- app_assoc. exact Hnd.
  - now apply IH.
Qed.

Lemma first_seen_none (cands : list Candidate) (seen : list jsstring) :
  (forall c, In c cands -> valid c = true -> In (identity fonte c) seen) ->
  first_seen fonte seen cands = [].
Proof.
  induction cands as [|x cands IH]; intro H; [reflexivity|].
  cbn [first_seen]. destruct (valid x) eqn:Hv; cbn [andb].
  - assert (In (identity fonte x) seen) as Hin by (apply H; [now left|assumption]).
    apply existsb_str_eqb in Hin. rewrite Hin. cbn [negb].
    apply IH. intros c Hc. apply H. now right.
  - apply IH. intros c Hc. apply H. now right.
Qed.

(** A candidate that is marked new is a first occurrence: it is valid, its
    identity is not among [seen], and no valid candidate before it in the
    list has its identity. *)
Lemma first_seen_first (cands : list Candidate) (seen : list jsstring) (c : Candidate) :
  In c (first_seen fonte seen cands) ->
  exists pre post,
    cands = pre ++ c :: post /\ valid c = true
    /\ ~ In (identity fonte c) seen
    /\ forall c', In c' pre -> valid c' = true ->
                  identity fonte c' <> identity fonte c.
Proof.
  revert seen; induction cands as [|x cands IH]; intros seen; cbn [first_seen];
    [intros []|].
  destruct (valid x) eqn:Hv; cbn [andb].
  - destruct (existsb (str_eqb (identity fonte x)) seen) eqn:E; cbn [negb].
    + intro H. apply IH in H as (pre & post & -> & Hc & Hout & Hpre).
      exists (x :: pre), post.
      split; [reflexivity|]. split; [assumption|]. split; [assumption|].
      intros c' [<-|Hc'] Hv'; [|now apply Hpre].
      intro Eq. apply Hout. rewrite <- Eq. now apply existsb_str_eqb.
    + intros [<-|H].
      * exists [], cands.
        split; [reflexivity|]. split; [assumption|]. split; [|intros c' []].
        intro Hin. apply existsb_str_eqb in Hin. congruence.
      * apply IH in H as (pre & post & -> & Hc & Hout & Hpre).
        exists (x :: pre), post.
        split; [reflexivity|]. split; [assumption|]. split.
        { intro Hin. apply Hout. apply in_or_app. now left. }
        intros c' [<-|Hc'] Hv'; [|now apply Hpre].
        intro Eq. apply Hout. apply in_or_app. right. left. exact Eq.
  - intro H. apply IH in H as (pre & post & -> & Hc & Hout & Hpre).
    exists (x :: pre), post.
    split; [reflexivity|]. split; [assumption|]. split; [assumption|].
    intros c' [<-|Hc'] Hv'; [congruence|now apply Hpre].
Qed.

(** C1, as amended. Idempotence of reconciliation: for every list of
    candidate records, the first pass against the empty table ends without an
    exception; the records it marks new are records of valid candidates, one
    for each identity that occurs among the valid candidates and no identity
    twice; exactly those identities are in the table afterwards; the batch
    and the table hold, record for record and row for row, the candidates
    [kept], and a candidate is kept only where no valid candidate before it in
    the list has its identity, so the record and the row of a repeated
    identity are those of the first candidate with it; when the valid
    candidates have pairwise different identities every one of them is marked
    new and inserted, in order; and a second pass over the same list against
    the table of the first marks nothing new and changes nothing. *)
Theorem reconcile_idempotent (cands : list Candidate) :
  exists st1,
    reconcile fonte cands [] = (st1, None)
    /\ NoDup (ids_of_batch (novasOportunidades st1))
    /\ (forall c, In c cands -> valid c = true ->
          In (identity fonte c) (ids_of_batch (novasOportunidades st1)))
    /\ (forall o, In o (novasOportunidades st1) ->
          exists c, In c cands /\ valid c = true /\ o = oportunidade_of fonte c)
    /\ ids_of_table (db st1) = ids_of_batch (novasOportunidades st1)
    /\ (exists kept,
          novasOportunidades st1 = map (oportunidade_of fonte) kept
          /\ db st1 = map (row_of fonte) kept
          /\ forall c, In c kept ->
               exists pre post,
                 cands = pre ++ c :: post /\ valid c = true
                 /\ forall c', In c' pre -> valid c' = true ->
                               identity fonte c' <> identity fonte c)
    /\ (NoDup (map (identity fonte) (filter valid cands)) ->
        novasOportunidades st1 = map (oportunidade_of fonte) (filter valid cands)
        /\ db st1 = map (row_of fonte) (filter valid cands))
    /\ reconcile fonte cands (db st1) = (initial_state (db st1), None).
Proof.
  unfold reconcile. rewrite for_items_candidates.
  eexists. split; [reflexivity|].
  cbn [initial_state db ids_of_table map].
  destruct (fold_record_new (first_seen fonte [] cands) (initial_state []))
    as [Hdb Hnov].
  cbn [initial_state db novasOportunidades app] in Hdb, Hnov.
  rewrite Hdb, Hnov. unfold ids_of_batch, ids_of_table. rewrite !map_map.
  cbn [oportunidade_of row_of id_unico row_id].
  split; [apply first_seen_NoDup|].
  split; [intros c Hin Hv; exact (first_seen_complete cands [] c Hin Hv)|].
  split.
  { intros o Ho. apply in_map_iff in Ho as (c & <- & Hc).
    apply first_seen_sound in Hc as (H1 & H2 & _). now exists c. }
  split; [reflexivity|].
  split.
  { exists (first_seen fonte [] cands). split; [reflexivity|].
    split; [reflexivity|].
    intros c Hc. apply first_seen_first in Hc as (pre & post & E & Hv & _ & Hpre).
    now exists pre, post. }
  split.
  { intro Hnd. now rewrite (first_seen_all cands []). }
  rewrite for_items_candidates. cbn [initial_state db].
  rewrite first_seen_none; [reflexivity|].
  intros c Hin Hv. unfold ids_of_table. rewrite map_map.
  cbn [row_of row_id].
  exact (first_seen_complete cands [] c Hin Hv).
Qed.

End Reconcile.

(** C1, as stated, fails when two valid candidates have the same identity:
    only the first is marked new and inserted. *)
Lemma reconcile_counterexample :
  let st1 := fst (@reconcile Latin1Ops FONTE_IPEA
                    [sample_candidate; sample_candidate_upper] []) in
  valid sample_candidate = true /\ valid sample_candidate_upper = true
  /\ novasOportunidades st1 = [@oportunidade_of Latin1Ops FONTE_IPEA sample_candidate]
  /\ db st1 = [@row_of Latin1Ops FONTE_IPEA sample_candidate]
  /\ ~ In (@oportunidade_of Latin1Ops FONTE_IPEA sample_candidate_upper)
        (novasOportunidades st1).
Proof.
  cbv zeta. repeat split; try reflexivity.
  vm_compute. intros [H|[]]. discriminate H.
Qed.

(* ================================================================== *)
(** ** The scenarios of the specification, evaluated *)

(** Scenario A, first run: one valid record for IPEA in a fenced answer is
    inserted and sent. *)
Example scenario_A_first_run :
  @main Latin1Ops sample_env
    (Some (fenced (lit "Resultado: ") ([10] ++ sample_array ++ [10]) []))
    None None None []
  = ([@row_of Latin1Ops FONTE_IPEA sample_candidate],
     [LogDetectado (lit "IPEA") (lit "Edital 01/2025");
      LogEnviando 1;
      SendMail (lit "equipe@example.org")
        [@oportunidade_of Latin1Ops FONTE_IPEA sample_candidate];
      LogEmailEnviado],
     None).
Proof. vm_compute. reflexivity. Qed.

(** Scenario A, second run: the same answer against the table of the first
    run finds nothing new and sends nothing. *)
Example scenario_A_second_run :
  @main Latin1Ops sample_env
    (Some (fenced (lit "Resultado: ") ([10] ++ sample_array ++ [10]) []))
    None None None [@row_of Latin1Ops FONTE_IPEA sample_candidate]
  = ([@row_of Latin1Ops FONTE_IPEA sample_candidate], [LogNenhumaAlteracao], None).
Proof. vm_compute. reflexivity. Qed.

(** Scenario B: a record without [titulo] is dropped. *)
Example scenario_B_missing_title :
  @run Latin1Ops sample_env [(FONTE_FNP, VArr [sample_untitled])] []
  = ([], [LogNenhumaAlteracao], None).
Proof. vm_compute. reflexivity. Qed.

(** Scenario C: the same title and deadline from two sources are two rows. *)
Example scenario_C_two_sources :
  ids_of_table
    (fst (fst (@main Latin1Ops sample_env (Some sample_array) (Some sample_array)
                 None None [])))
  = [lit "IPEA-edital012025-15122025"; lit "FNP-edital012025-15122025"].
Proof. vm_compute. reflexivity. Qed.

(** When the last closing bracket comes before the first opening one,
    [substring] exchanges its bounds and the text between them is parsed. *)
Example extrairJson_exchanged_bounds :
  extrairJson (lit "] 1 [")
  = Ok (VNum {| dec_neg := false; dec_mant := 1; dec_exp := 0 |}).
Proof. vm_compute. reflexivity. Qed.

(* ================================================================== *)
(** ** The run as a whole: replay, growth of the table, the batch *)

Section WholeRun.
Context {U : UnicodeOps}.

(** [process_item] is [item_entry] followed by the membership check. *)
Lemma process_item_entry (fonte : Fonte) (st : State) (item : value) :
  process_item fonte st item
  = match item_entry fonte item with
    | Throw e => Throw e
    | Ok None => Ok st
    | Ok (Some e) =>
        match db_get (db st) (row_id (fst (fst e))) with
        | Some _ => Ok st
        | None => Ok (record_entry st e)
        end
    end.
Proof.
  unfold process_item, item_entry.
  destruct (get_prop item (lit "titulo")) as [titulo|e]; [|reflexivity].
  cbn [bind]. destruct (truthy titulo); [|reflexivity]. cbn [negb].
  destruct (get_prop item (lit "prazo")) as [prazo|e]; [|reflexivity].
  cbn [bind].
  destruct (gerarIdEstavel (nome fonte) titulo prazo) as [id|e]; [|reflexivity].
  cbn [bind fst snd row_id].
  destruct (db_get (db st) id) eqn:E; [reflexivity|].
  rewrite db_run_insert_absent by exact E. reflexivity.
Qed.

(** The entry of an item: its row and record agree, the title is a non-empty
    string, the deadline a string or not truthy. *)
Lemma item_entry_well_formed (fonte : Fonte) (item : value)
  (r : Row) (o : Oportunidade) (ev : Event) :
  item_entry fonte item = Ok (Some (r, o, ev)) ->
  row_matches r o /\ well_formed_record [fonte] o /\ is_send ev = false.
Proof.
  unfold item_entry. intro H.
  destruct (get_prop item (lit "titulo")) as [titulo|e]; [|discriminate].
  cbn [bind] in H. destruct (truthy titulo) eqn:Ht; [|discriminate]. cbn [negb] in H.
  destruct (get_prop item (lit "prazo")) as [prazo|e]; [|discriminate].
  cbn [bind] in H.
  destruct (gerarIdEstavel (nome fonte) titulo prazo) as [id|e] eqn:Eid;
    [|discriminate].
  cbn [bind] in H. inversion H. subst r o ev. clear H.
  split; [repeat split|]. split; [|reflexivity].
  unfold well_formed_record. cbn [op_titulo op_prazo fonte_nome fonte_url op_cor].
  unfold gerarIdEstavel in Eid.
  destruct titulo as [| | | |t| |]; try discriminate.
  split; [exists t; split; [reflexivity|destruct t; [discriminate|discriminate]]|].
  split; [|exists fonte; repeat split; now left].
  destruct (slugPrazo prazo) as [sp|e] eqn:Es; [|discriminate].
  unfold slugPrazo in Es. destruct (truthy prazo) eqn:Hp; [|now right].
  destruct prazo; try discriminate. left. eauto.
Qed.

Lemma ids_record_entry (st : State) (e : Row * Oportunidade * Event) :
  ids_of_table (db (record_entry st e))
  = ids_of_table (db st) ++ [row_id (fst (fst e))].
Proof. unfold ids_of_table. cbn [record_entry db]. now rewrite map_app. Qed.

(** An item that was processed once is skipped by every later table. *)
Lemma process_item_replay (fonte : Fonte) (st st' s : State) (item : value) :
  process_item fonte st item = Ok st' ->
  incl (ids_of_table (db st')) (ids_of_table (db s)) ->
  process_item fonte s item = Ok s.
Proof.
  rewrite !process_item_entry.
  destruct (item_entry fonte item) as [[e|]|x]; [|reflexivity|discriminate].
  intros H Hincl.
  assert (In (row_id (fst (fst e))) (ids_of_table (db st'))) as Hin.
  { destruct (db_get (db st) (row_id (fst (fst e)))) eqn:E.
    - inversion H. subst st'.
      destruct (in_dec (list_eq_dec N.eq_dec) (row_id (fst (fst e)))
                  (ids_of_table (db st))) as [Hin|Hout]; [exact Hin|].
      apply db_get_none in Hout. congruence.
    - inversion H. rewrite ids_record_entry. apply in_or_app. right. now left. }
  apply Hincl in Hin.
  destruct (db_get (db s) (row_id (fst (fst e)))) eqn:E; [reflexivity|].
  apply db_get_none in E. contradiction.
Qed.

(** Whether an item throws does not depend on the table. *)
Lemma process_item_throw (fonte : Fonte) (st s : State) (item : value) (e : exn) :
  process_item fonte st item = Throw e -> process_item fonte s item = Throw e.
Proof.
  rewrite !process_item_entry.
  destruct (item_entry fonte item) as [[x|]|x]; [|discriminate|trivial].
  destruct (db_get (db st) (row_id (fst (fst x)))); discriminate.
Qed.

Lemma process_item_grows (fonte : Fonte) (st st' : State) (item : value) :
  process_item fonte st item = Ok st' ->
  incl (ids_of_table (db st)) (ids_of_table (db st')).
Proof.
  intro H. apply process_item_cases in H as [->|(r & o & e & _ & _ & _ & Hdb & _)].
  - apply incl_refl.
  - unfold ids_of_table. rewrite Hdb, map_app. apply incl_appl, incl_refl.
Qed.

Lemma for_items_grows (fonte : Fonte) (items : list value) (st : State) :
  incl (ids_of_table (db st)) (ids_of_table (db (fst (for_items fonte items st)))).
Proof.
  revert st; induction items as [|x items IH]; intro st; [apply incl_refl|].
  cbn [for_items]. destruct (process_item fonte st x) as [st'|e] eqn:E;
    [|apply incl_refl].
  eapply incl_tran; [eapply process_item_grows; eassumption|apply IH].
Qed.

Lemma for_grupos_grows (grupos : list (Fonte * value)) (st : State) :
  incl (ids_of_table (db st)) (ids_of_table (db (fst (for_grupos grupos st)))).
Proof.
  revert st; induction grupos as [|[fonte dados] grupos IH]; intro st;
    [apply incl_refl|].
  cbn [for_grupos]. destruct (iterate dados) as [items|e]; [|apply incl_refl].
  pose proof (for_items_grows fonte items st) as Hi.
  destruct (for_items fonte items st) as [st' [e|]]; [exact Hi|].
  eapply incl_tran; [exact Hi|apply IH].
Qed.

Lemma for_items_replay (fonte : Fonte) (items : list value) (st s : State) :
  incl (ids_of_table (db (fst (for_items fonte items st)))) (ids_of_table (db s)) ->
  for_items fonte items s = (s, snd (for_items fonte items st)).
Proof.
  revert st; induction items as [|x items IH]; intros st Hincl; [reflexivity|].
  cbn [for_items] in *.
  destruct (process_item fonte st x) as [st'|e] eqn:E.
  - rewrite (process_item_replay fonte st st' s x E).
    + now apply (IH st').
    + eapply incl_tran; [apply for_items_grows|exact Hincl].
  - now rewrite (process_item_throw fonte st s x e E).
Qed.

Lemma for_grupos_replay (grupos : list (Fonte * value)) (st s : State) :
  incl (ids_of_table (db (fst (for_grupos grupos st)))) (ids_of_table (db s)) ->
  for_grupos grupos s = (s, snd (for_grupos grupos st)).
Proof.
  revert st; induction grupos as [|[fonte dados] grupos IH]; intros st Hincl;
    [reflexivity|].
  cbn [for_grupos] in *. destruct (iterate dados) as [items|e]; [|reflexivity].
  pose proof (for_items_replay fonte items st s) as Hi.
  destruct (for_items fonte items st) as [st' [e|]] eqn:E; cbn [fst snd] in *.
  - now rewrite Hi.
  - rewrite Hi.
    + now apply (IH st').
    + eapply incl_tran; [apply for_grupos_grows|exact Hincl].
Qed.

(** Idempotence of the whole run, for any agent output: a second run over the
    same consolidated results, from the table the first run left, inserts
    nothing, writes and sends nothing but the closing line, and ends the same
    way (with the same exception, if the first ended with one). *)
Theorem run_twice (env env' : Env) (grupos : list (Fonte * value)) (db0 : Table) :
  let first := run env grupos db0 in
  run env' grupos (fst (fst first))
  = (fst (fst first),
     match snd first with None => [LogNenhumaAlteracao] | Some _ => [] end,
     snd first).
Proof.
  cbv zeta. unfold run.
  pose proof (for_grupos_replay grupos (initial_state db0)) as R.
  destruct (for_grupos grupos (initial_state db0)) as [st [e|]] eqn:E;
    cbn [fst snd] in *.
  - rewrite (R (initial_state (db st))) by apply incl_refl. reflexivity.
  - rewrite (R (initial_state (db st))) by apply incl_refl. reflexivity.
Qed.

End WholeRun.

Section Growth.
Context {U : UnicodeOps}.

Lemma well_formed_record_incl (l l' : list Fonte) (o : Oportunidade) :
  incl l l' -> well_formed_record l o -> well_formed_record l' o.
Proof.
  intros Hincl (Ht & Hp & f & Hf & Hrest).
  split; [assumption|]. split; [assumption|]. exists f. split; [auto|assumption].
Qed.

Lemma process_item_appends (fonte : Fonte) (st st' : State) (item : value) :
  process_item fonte st item = Ok st' ->
  exists rows ops evs,
    db st' = db st ++ rows
    /\ novasOportunidades st' = novasOportunidades st ++ ops
    /\ console st' = console st ++ evs
    /\ Forall2 row_matches rows ops
    /\ Forall (well_formed_record [fonte]) ops
    /\ length evs = length ops.
Proof.
  rewrite process_item_entry.
  destruct (item_entry fonte item) as [[[[r o] ev]|]|x] eqn:E; [| |discriminate].
  - cbn [fst snd].
    destruct (db_get (db st) (row_id r)).
    + intro H. inversion H. subst st'. exists [], [], [].
      rewrite !app_nil_r. repeat split; constructor.
    + intro H. inversion H. subst st'. exists [r], [o], [ev].
      apply item_entry_well_formed in E as (Hm & Hw & _).
      split; [reflexivity|]. split; [reflexivity|]. split; [reflexivity|].
      split; [constructor; [exact Hm|constructor]|].
      split; [constructor; [exact Hw|constructor]|reflexivity].
  - intro H. inversion H. subst st'. exists [], [], [].
    rewrite !app_nil_r. repeat split; constructor.
Qed.

Lemma for_items_appends (fonte : Fonte) (items : list value) (st : State) :
  let st' := fst (for_items fonte items st) in
  exists rows ops evs,
    db st' = db st ++ rows
    /\ novasOportunidades st' = novasOportunidades st ++ ops
    /\ console st' = console st ++ evs
    /\ Forall2 row_matches rows ops
    /\ Forall (well_formed_record [fonte]) ops
    /\ length evs = length ops.
Proof.
  revert st; induction items as [|x items IH]; intro st; cbn [for_items].
  - exists [], [], []. cbn [fst]. rewrite !app_nil_r. repeat split; constructor.
  - destruct (process_item fonte st x) as [st1|e] eqn:E.
    + apply process_item_appends in E
        as (r1 & o1 & e1 & Hdb & Hn & Hc & Hm & Hw & Hl).
      destruct (IH st1) as (r2 & o2 & e2 & Hdb2 & Hn2 & Hc2 & Hm2 & Hw2 & Hl2).
      exists (r1 ++ r2), (o1 ++ o2), (e1 ++ e2).
      cbv zeta. rewrite Hdb2, Hn2, Hc2, Hdb, Hn, Hc, <- !app_assoc.
      repeat split.
      * now apply Forall2_app.
      * apply Forall_app. now split.
      * rewrite !length_app. lia.
    + exists [], [], []. cbn [fst]. rewrite !app_nil_r. repeat split; constructor.
Qed.

Lemma for_grupos_appends (grupos : list (Fonte * value)) (st : State) :
  let st' := fst (for_grupos grupos st) in
  exists rows ops evs,
    db st' = db st ++ rows
    /\ novasOportunidades st' = novasOportunidades st ++ ops
    /\ console st' = console st ++ evs
    /\ Forall2 row_matches rows ops
    /\ Forall (well_formed_record (map fst grupos)) ops
    /\ length evs = length ops.
Proof.
  revert st; induction grupos as [|[fonte dados] grupos IH]; intro st;
    cbn [for_grupos].
  - exists [], [], []. cbn [fst]. rewrite !app_nil_r. repeat split; constructor.
  - destruct (iterate dados) as [items|e].
    2:{ exists [], [], []. cbn [fst]. rewrite !app_nil_r. repeat split; constructor. }
    destruct (for_items_appends fonte items st)
      as (r1 & o1 & e1 & Hdb & Hn & Hc & Hm & Hw & Hl).
    assert (Forall (well_formed_record (map fst ((fonte, dados) :: grupos))) o1) as Hw1.
    { eapply Forall_impl; [|exact Hw]. intro o.
      apply well_formed_record_incl. intros f [<-|[]]. now left. }
    destruct (for_items fonte items st) as [st1 [e|]]; cbn [fst] in *.
    + exists r1, o1, e1. repeat split; assumption.
    + destruct (IH st1) as (r2 & o2 & e2 & Hdb2 & Hn2 & Hc2 & Hm2 & Hw2 & Hl2).
      exists (r1 ++ r2), (o1 ++ o2), (e1 ++ e2).
      cbv zeta. rewrite Hdb2, Hn2, Hc2, Hdb, Hn, Hc, <- !app_assoc.
      repeat split.
      * now apply Forall2_app.
      * apply Forall_app. split; [assumption|].
        eapply Forall_impl; [|exact Hw2]. intro o.
        apply well_formed_record_incl. intros f Hf. now right.
      * rewrite !length_app. lia.
Qed.

(** The table only grows, and the batch mirrors what was added: at the end of
    the loops the table is the initial table followed by one row per record
    of the batch, in the same order, each row with the identity, title,
    deadline and source name of its record; every record has a non-empty
    string title, a deadline that is a string or is not truthy, and the name,
    address and colour of one of the sources; the console holds one line per
    record. *)
Theorem table_grows_with_batch (grupos : list (Fonte * value)) (db0 : Table) :
  let st := fst (for_grupos grupos (initial_state db0)) in
  exists rows,
    db st = db0 ++ rows
    /\ Forall2 row_matches rows (novasOportunidades st)
    /\ Forall (well_formed_record (map fst grupos)) (novasOportunidades st)
    /\ length (console st) = length (novasOportunidades st).
Proof.
  destruct (for_grupos_appends grupos (initial_state db0))
    as (rows & ops & evs & Hdb & Hn & Hc & Hm & Hw & Hl).
  cbn [initial_state db novasOportunidades console app] in *.
  exists rows. cbv zeta. rewrite Hdb, Hn, Hc. auto.
Qed.

Lemma filter_send_console (grupos : list (Fonte * value)) (st : State) :
  existsb is_send (console st) = false ->
  filter is_send (console (fst (for_grupos grupos st))) = [].
Proof.
  intro H. pose proof (no_send_grupos grupos st H) as Hc.
  induction (console (fst (for_grupos grupos st))) as [|e l IH]; [reflexivity|].
  cbn [existsb filter] in *. apply orb_false_iff in Hc as [He Hl].
  rewrite He. now apply IH.
Qed.

(** The message of a run: the table and the way the run ends do not depend
    on the mail settings nor on whether the transport accepts the message;
    and the run hands the transport at most one message, exactly when the
    loops ended without an exception, the batch is not empty and sender and
    recipient are set, addressed to [EMAIL_TO] and carrying the whole
    batch. *)
Theorem one_message_per_run (env env' : Env)
  (grupos : list (Fonte * value)) (db0 : Table) :
  let loops := for_grupos grupos (initial_state db0) in
  let out := run env grupos db0 in
  fst (fst out) = fst (fst (run env' grupos db0))
  /\ snd out = snd (run env' grupos db0)
  /\ filter is_send (snd (fst out))
     = match snd loops, novasOportunidades (fst loops) with
       | None, _ :: _ =>
           if env_set (EMAIL_USER env) && env_set (EMAIL_TO env)
           then [SendMail (match EMAIL_TO env with Some a => a | None => [] end)
                   (novasOportunidades (fst loops))]
           else []
       | _, _ => []
       end.
Proof.
  cbv zeta. unfold run.
  pose proof (filter_send_console grupos (initial_state db0) eq_refl) as Hc.
  destruct (for_grupos grupos (initial_state db0)) as [st [e|]]; cbn [fst snd] in *.
  - repeat split. exact Hc.
  - repeat split. rewrite filter_app, Hc. cbn [app].
    unfold notify. destruct (novasOportunidades st) as [|o ops]; [reflexivity|].
    cbn [length Nat.ltb Nat.leb filter is_send]. unfold enviarEmailResumo.
    destruct (env_set (EMAIL_USER env)), (env_set (EMAIL_TO env));
      cbn [negb orb andb filter is_send]; try reflexivity.
    destruct (sendMail_ok env); reflexivity.
Qed.

End Growth.

(* ================================================================== *)
(** ** The identity as a key *)

Lemma split_at_first {A : Type} (x : A) (a a' b b' : list A) :
  ~ In x a -> ~ In x a' -> a ++ x :: b = a' ++ x :: b' -> a = a' /\ b = b'.
Proof.
  revert a'; induction a as [|y a IH]; intros [|y' a'] Ha Ha' E; cbn [app] in E.
  - inversion E. auto.
  - inversion E. subst. exfalso. apply Ha'. now left.
  - inversion E. subst. exfalso. apply Ha. now left.
  - inversion E. subst. destruct (IH a') as [-> ->]; auto.
    + intro H. apply Ha. now right.
    + intro H. apply Ha'. now right.
Qed.

Lemma split_at_last {A : Type} (x : A) (a a' b b' : list A) :
  ~ In x b -> ~ In x b' -> a ++ x :: b = a' ++ x :: b' -> a = a' /\ b = b'.
Proof.
  intros Hb Hb' E. apply (f_equal (@rev A)) in E.
  rewrite !rev_app_distr in E. cbn [rev] in E. rewrite <- !app_assoc in E.
  cbn [app] in E.
  apply split_at_first in E as [E1 E2];
    [|now rewrite <- in_rev|now rewrite <- in_rev].
  apply (f_equal (@rev A)) in E1, E2. rewrite !rev_involutive in E1, E2. auto.
Qed.

Lemma filter_class_not_in (cls : char16 -> bool) (s : jsstring) (c : char16) :
  cls c = false -> ~ In c (filter cls s).
Proof. intros Hc Hin. apply filter_In in Hin as [_ Hin]. congruence. Qed.

Section Key.
Context {U : UnicodeOps}.

Lemma slugPrazo_digits (prazo : value) (sp : jsstring) :
  slugPrazo prazo = Ok sp -> forallb is_digit sp = true.
Proof.
  unfold slugPrazo. destruct (truthy prazo).
  - destruct prazo; try discriminate. intro H. inversion H.
    rewrite replace_not_class_filter. apply forallb_forall.
    intros x Hx. now apply filter_In in Hx.
  - intro H. inversion H. reflexivity.
Qed.

Lemma tituloLimpo_az09 (t : jsstring) : forallb is_az09 (tituloLimpo t) = true.
Proof.
  unfold tituloLimpo. rewrite replace_not_class_filter.
  apply forallb_forall. intros x Hx. now apply filter_In in Hx.
Qed.

Lemma forallb_firstn {A : Type} (p : A -> bool) (n : nat) (l : list A) :
  forallb p l = true -> forallb p (firstn n l) = true.
Proof.
  revert n; induction l as [|x l IH]; intros [|n]; cbn; try reflexivity.
  intro H. apply andb_true_iff in H as [Hx Hl]. rewrite Hx. now apply IH.
Qed.

Lemma forallb_not_in (p : char16 -> bool) (s : jsstring) (c : char16) :
  forallb p s = true -> p c = false -> ~ In c s.
Proof.
  intros H Hc Hin. rewrite forallb_forall in H. apply H in Hin. congruence.
Qed.

(** The form of an identity: whenever [gerarIdEstavel] returns, its value is
    the source name, a hyphen, at most 60 characters all in [a-z0-9], a
    hyphen, and digits only. *)
Theorem gerarIdEstavel_form (fonteNome : jsstring) (titulo prazo : value)
  (id : jsstring) :
  gerarIdEstavel fonteNome titulo prazo = Ok id ->
  exists slug comp,
    id = fonteNome ++ [hyphen] ++ slug ++ [hyphen] ++ comp
    /\ (length slug <= 60)%nat
    /\ forallb is_az09 slug = true
    /\ forallb is_digit comp = true.
Proof.
  unfold gerarIdEstavel. destruct titulo as [| | | |t| |]; try discriminate.
  destruct (slugPrazo prazo) as [sp|e] eqn:Es; [|discriminate].
  cbn [bind]. intro H. inversion H.
  exists (substring (tituloLimpo t) 0 60), sp.
  split; [reflexivity|]. rewrite substring_0_60.
  split; [apply firstn_le_length|].
  split; [apply forallb_firstn, tituloLimpo_az09|].
  now apply slugPrazo_digits in Es.
Qed.

(** The identity determines its parts: two calls that return the same
    identity had the same source name, the same first 60 characters of the
    normalized title and the same deadline component, whatever the source
    names are (a hyphen in a name does no harm). *)
Theorem gerarIdEstavel_injective (s1 s2 t1 t2 : jsstring) (p1 p2 : value)
  (id : jsstring) :
  gerarIdEstavel s1 (VStr t1) p1 = Ok id ->
  gerarIdEstavel s2 (VStr t2) p2 = Ok id ->
  s1 = s2
  /\ firstn 60 (tituloLimpo t1) = firstn 60 (tituloLimpo t2)
  /\ slugPrazo p1 = slugPrazo p2.
Proof.
  unfold gerarIdEstavel.
  destruct (slugPrazo p1) as [c1|e] eqn:E1; [|discriminate].
  destruct (slugPrazo p2) as [c2|e] eqn:E2; [|discriminate].
  cbn [bind]. rewrite !substring_0_60. intros H1 H2.
  apply Ok_inj in H1, H2. subst id.
  apply slugPrazo_digits in E1, E2.
  assert (Hd : forall c, forallb is_digit c = true -> ~ In hyphen c)
    by (intros c Hc; now apply (forallb_not_in is_digit)).
  assert (Ha : forall t, ~ In hyphen (firstn 60 (tituloLimpo t))).
  { intro t. apply (forallb_not_in is_az09); [|reflexivity].
    apply forallb_firstn, tituloLimpo_az09. }
  change (lit "-") with [hyphen] in H2. cbn [app] in H2.
  replace (s2 ++ hyphen :: firstn 60 (tituloLimpo t2) ++ hyphen :: c2)
    with ((s2 ++ hyphen :: firstn 60 (tituloLimpo t2)) ++ hyphen :: c2) in H2
    by norm_app.
  replace (s1 ++ hyphen :: firstn 60 (tituloLimpo t1) ++ hyphen :: c1)
    with ((s1 ++ hyphen :: firstn 60 (tituloLimpo t1)) ++ hyphen :: c1) in H2
    by norm_app.
  apply split_at_last in H2 as [H2 ->]; [|now apply Hd|now apply Hd].
  apply split_at_last in H2 as [-> ->]; [|apply Ha|apply Ha].
  auto.
Qed.

End Key.

Lemma gerarIdEstavel_form_witness :
  exists slug comp,
    lit "IPEA-edital012025-15122025" = lit "IPEA" ++ [hyphen] ++ slug ++ [hyphen] ++ comp
    /\ (length slug <= 60)%nat
    /\ forallb is_az09 slug = true
    /\ forallb is_digit comp = true.
Proof.
  exact (@gerarIdEstavel_form Latin1Ops (lit "IPEA") (VStr (lit "Edital 01/2025"))
           (VStr (lit "15/12/2025")) (lit "IPEA-edital012025-15122025") eq_refl).
Defined.

Lemma gerarIdEstavel_injective_witness :
  lit "A-b" = lit "A-b"
  /\ firstn 60 (@tituloLimpo Latin1Ops (lit "Edital 1"))
     = firstn 60 (@tituloLimpo Latin1Ops (lit "EDITAL-1"))
  /\ slugPrazo (VStr (lit "1/2")) = slugPrazo (VStr (lit "12")).
Proof.
  exact (@gerarIdEstavel_injective Latin1Ops (lit "A-b") (lit "A-b")
           (lit "Edital 1") (lit "EDITAL-1") (VStr (lit "1/2")) (VStr (lit "12"))
           (lit "A-b-edital1-12") eq_refl eq_refl).
Defined.

(* ================================================================== *)
(** ** [extrairJson]: exchanged bounds, values that are not arrays *)

Lemma substring_exchange (s : jsstring) (a b : Z) :
  substring s a b = substring s b a.
Proof.
  unfold substring. cbv zeta.
  now rewrite (Nat.min_comm (clamp_index s a)), (Nat.max_comm (clamp_index s a)).
Qed.

(** When the last closing bracket of the stripped text comes before its first
    opening bracket, [substring] exchanges the bounds: what is parsed is the
    text between the two brackets, and the value returned is the empty array
    or a value that is not an array. *)
Theorem extrairJson_exchanged (text a m b : jsstring) :
  strip_fences text = a ++ rbracket :: m ++ lbracket :: b ->
  ~ In lbracket (a ++ rbracket :: m) -> ~ In rbracket (m ++ lbracket :: b) ->
  extrairJson text
  = match JSON_parse m with Some v => Ok v | None => Ok (VArr []) end
  /\ forall items, JSON_parse m <> Some (VArr items).
Proof.
  intros E Hl Hr. split.
  - unfold extrairJson, extrairJson_try. rewrite E. cbv zeta.
    replace (a ++ rbracket :: m ++ lbracket :: b)
      with ((a ++ rbracket :: m) ++ lbracket :: b) by norm_app.
    rewrite (indexOf_present lbracket (a ++ rbracket :: m) b Hl).
    replace ((a ++ rbracket :: m) ++ lbracket :: b)
      with (a ++ rbracket :: (m ++ lbracket :: b)) by norm_app.
    rewrite (lastIndexOf_present rbracket a (m ++ lbracket :: b) Hr).
    destruct (Z.eqb_spec (Z.of_nat (length (a ++ rbracket :: m))) (-1)) as [F|_]; [lia|].
    destruct (Z.eqb_spec (Z.of_nat (length a)) (-1)) as [F|_]; [lia|].
    cbn [orb]. rewrite substring_exchange.
    replace (a ++ rbracket :: m ++ lbracket :: b)
      with ((a ++ [rbracket]) ++ m ++ (lbracket :: b)) by norm_app.
    replace (Z.of_nat (length a) + 1)%Z with (Z.of_nat (length (a ++ [rbracket])))
      by (rewrite length_app; cbn [length]; lia).
    replace (Z.of_nat (length (a ++ rbracket :: m)))
      with (Z.of_nat (length (a ++ [rbracket]) + length m))
      by (rewrite !length_app; cbn [length]; lia).
    rewrite substring_middle.
    destruct (JSON_parse m); reflexivity.
  - intros items Hp.
    apply JSON_parse_array_shape in Hp as (w1 & m' & w2 & -> & _ & _).
    apply Hl. apply in_or_app. right. right. apply in_or_app. right. now left.
Qed.

Lemma extrairJson_exchanged_witness :
  extrairJson (lit "Fim] 42 [1")
  = Ok (VNum {| dec_neg := false; dec_mant := 42; dec_exp := 0 |}).
Proof.
  assert (H1 : strip_fences (lit "Fim] 42 [1")
               = lit "Fim" ++ rbracket :: lit " 42 " ++ lbracket :: lit "1")
    by reflexivity.
  assert (H2 : ~ In lbracket (lit "Fim" ++ rbracket :: lit " 42 "))
    by (apply not_in_existsb; reflexivity).
  assert (H3 : ~ In rbracket (lit " 42 " ++ lbracket :: lit "1"))
    by (apply not_in_existsb; reflexivity).
  exact (proj1 (extrairJson_exchanged _ _ _ _ H1 H2 H3)).
Defined.

Section NotAnArray.
Context {U : UnicodeOps}.

Lemma process_item_string (fonte : Fonte) (st : State) (s : jsstring) :
  process_item fonte st (VStr s) = Ok st.
Proof. reflexivity. Qed.

Lemma for_items_strings (fonte : Fonte) (l : list jsstring) (st : State) :
  for_items fonte (map VStr l) st = (st, None).
Proof.
  induction l as [|s l IH]; [reflexivity|].
  cbn [map for_items]. now rewrite process_item_string.
Qed.

(** What the loops do with a result that is not an array: a string is
    iterated character by character and every character is skipped, so the
    source contributes nothing; any other value is not iterable, and the run
    ends there with a [TypeError], before the sources that follow. *)
Theorem dados_not_an_array (fonte : Fonte) (dados : value)
  (rest : list (Fonte * value)) (st : State) :
  (forall items, dados <> VArr items) ->
  for_grupos ((fonte, dados) :: rest) st
  = match dados with
    | VStr _ => for_grupos rest st
    | _ => (st, Some TypeError)
    end.
Proof.
  intro H. cbn [for_grupos]. destruct dados; try reflexivity.
  - cbn [iterate]. now rewrite for_items_strings.
  - exfalso. now apply (H items).
Qed.

End NotAnArray.

Lemma dados_not_an_array_witness :
  @for_grupos Latin1Ops
    [(FONTE_IPEA, VNum {| dec_neg := false; dec_mant := 42; dec_exp := 0 |});
     (FONTE_FNP, VArr [candidate_value sample_candidate])]
    (initial_state [])
  = (initial_state [], Some TypeError).
Proof.
  exact (@dados_not_an_array Latin1Ops FONTE_IPEA
           (VNum {| dec_neg := false; dec_mant := 42; dec_exp := 0 |})
           [(FONTE_FNP, VArr [candidate_value sample_candidate])]
           (initial_state []) (fun items => ltac:(discriminate))).
Defined.

(* ================================================================== *)
(** ** [JSON.parse]: more fuel changes nothing, the text after a value *)

Lemma map_parsed_eq {A B : Type} (g : A -> B) (p q : parsed A) :
  p = q -> map_parsed g p = map_parsed g q.
Proof. now intros ->. Qed.

Lemma map_parsed_NoFuel {A B : Type} (g : A -> B) (p : parsed A) :
  map_parsed g p <> NoFuel -> p <> NoFuel.
Proof. destruct p; simpl; congruence. Qed.

(** A result that is not [NoFuel] is the result for every larger fuel. *)
Lemma parse_fuel_step (f : nat) :
  (forall s, parse_value f s <> NoFuel -> parse_value (S f) s = parse_value f s)
  /\ (forall s, parse_elements f s <> NoFuel ->
        parse_elements (S f) s = parse_elements f s)
  /\ (forall s, parse_members f s <> NoFuel ->
        parse_members (S f) s = parse_members f s).
Proof.
  induction f as [|f (IHv & IHe & IHm)];
    [repeat split; intros s H; exfalso; now apply H|].
  split; [|split].
  - intros s H.
    change (parse_value (S (S f)) s) with
      (match s with
       | [] => NoParse
       | c :: s' =>
           if N.eqb c 91 then
             match skip_ws s' with
             | [] => NoParse
             | d :: r =>
                 if N.eqb d 93 then Parsed (VArr []) r
                 else map_parsed VArr (parse_elements (S f) (d :: r))
             end
           else if N.eqb c 123 then
             match skip_ws s' with
             | [] => NoParse
             | d :: r =>
                 if N.eqb d 125 then Parsed (VObj []) r
                 else map_parsed VObj (parse_members (S f) (d :: r))
             end
           else if N.eqb c 34 then
             match parse_string_chars s' with
             | Some (str, r) => Parsed (VStr str) r
             | None => NoParse
             end
           else if starts_with (lit "true") s then Parsed (VBool true) (skipn 4 s)
           else if starts_with (lit "false") s then Parsed (VBool false) (skipn 5 s)
           else if starts_with (lit "null") s then Parsed VNull (skipn 4 s)
           else
             match parse_number s with
             | Some (d, r) => Parsed (VNum d) r
             | None => NoParse
             end
       end).
    cbn [parse_value] in H |- *.
    destruct s as [|c s']; [reflexivity|].
    destruct (N.eqb c 91).
    { destruct (skip_ws s') as [|d r]; [reflexivity|].
      destruct (N.eqb d 93); [reflexivity|].
      apply map_parsed_eq, IHe. now apply map_parsed_NoFuel in H. }
    destruct (N.eqb c 123); [|reflexivity].
    destruct (skip_ws s') as [|d r]; [reflexivity|].
    destruct (N.eqb d 125); [reflexivity|].
    apply map_parsed_eq, IHm. now apply map_parsed_NoFuel in H.
  - intros s H.
    change (parse_elements (S (S f)) s) with
      (match parse_value (S f) s with
       | Parsed v r =>
           match skip_ws r with
           | [] => NoParse
           | c :: r' =>
               if N.eqb c 44
               then map_parsed (cons v) (parse_elements (S f) (skip_ws r'))
               else if N.eqb c 93 then Parsed [v] r'
               else NoParse
           end
       | NoParse => NoParse
       | NoFuel => NoFuel
       end).
    cbn [parse_elements] in H |- *.
    assert (parse_value f s <> NoFuel) as Hv
        by (intro F; rewrite F in H; now apply H).
    rewrite (IHv s Hv).
    destruct (parse_value f s) as [v r| |]; try reflexivity.
    destruct (skip_ws r) as [|c r']; [reflexivity|].
    destruct (N.eqb c 44); [|reflexivity].
    apply map_parsed_eq, IHe. now apply map_parsed_NoFuel in H.
  - intros s H.
    change (parse_members (S (S f)) s) with
      (match s with
       | [] => NoParse
       | q :: s' =>
           if N.eqb q 34 then
             match parse_string_chars s' with
             | None => NoParse
             | Some (k, r) =>
                 match skip_ws r with
                 | [] => NoParse
                 | c :: r' =>
                     if N.eqb c 58 then
                       match parse_value (S f) (skip_ws r') with
                       | Parsed v r2 =>
                           match skip_ws r2 with
                           | [] => NoParse
                           | c2 :: r3 =>
                               if N.eqb c2 44
                               then map_parsed (cons (k, v))
                                      (parse_members (S f) (skip_ws r3))
                               else if N.eqb c2 125 then Parsed [(k, v)] r3
                               else NoParse
                           end
                       | NoParse => NoParse
                       | NoFuel => NoFuel
                       end
                     else NoParse
                 end
             end
           else NoParse
       end).
    cbn [parse_members] in H |- *.
    destruct s as [|q s']; [reflexivity|].
    destruct (N.eqb q 34); [|reflexivity].
    destruct (parse_string_chars s') as [[k r]|]; [|reflexivity].
    destruct (skip_ws r) as [|c r']; [reflexivity|].
    destruct (N.eqb c 58); [|reflexivity].
    assert (parse_value f (skip_ws r') <> NoFuel) as Hv
        by (intro F; rewrite F in H; now apply H).
    rewrite (IHv _ Hv).
    destruct (parse_value f (skip_ws r')) as [v r2| |]; try reflexivity.
    destruct (skip_ws r2) as [|c2 r3]; [reflexivity|].
    destruct (N.eqb c2 44); [|reflexivity].
    apply map_parsed_eq, IHm. now apply map_parsed_NoFuel in H.
Qed.

Lemma parse_value_more_fuel (f k : nat) (s : jsstring) :
  parse_value f s <> NoFuel -> parse_value (k + f) s = parse_value f s.
Proof.
  intro H. induction k as [|k IH]; [reflexivity|].
  cbn [Nat.add]. destruct (parse_fuel_step (k + f)) as (Hv & _ & _).
  rewrite Hv; [exact IH|]. now rewrite IH.
Qed.

Lemma skip_ws_app (w r : jsstring) :
  forallb is_json_ws w = true -> skip_ws (w ++ r) = skip_ws r.
Proof.
  induction w as [|c w IH]; [reflexivity|]. cbn [forallb app skip_ws].
  intro H. apply andb_true_iff in H as [Hc Hw]. rewrite Hc. now apply IH.
Qed.

Lemma skip_ws_head (s r : jsstring) (c : char16) :
  skip_ws s = c :: r -> is_json_ws c = false.
Proof.
  induction s as [|d s IH]; [discriminate|]. cbn [skip_ws].
  destruct (is_json_ws d) eqn:E; [exact IH|]. intro H. now inversion H; subst.
Qed.

Lemma skip_ws_stop (c : char16) (r : jsstring) :
  is_json_ws c = false -> skip_ws (c :: r) = c :: r.
Proof. intro H. cbn [skip_ws]. now rewrite H. Qed.

Lemma skip_ws_nil (r : jsstring) : skip_ws r = [] -> forallb is_json_ws r = true.
Proof.
  intro H. destruct (skip_ws_split r) as (w & E & W).
  rewrite H, app_nil_r in E. now subst.
Qed.

Lemma starts_with_split (p s : jsstring) :
  starts_with p s = true -> s = p ++ skipn (length p) s.
Proof.
  revert s; induction p as [|x p IH]; intros s H; [reflexivity|].
  destruct s as [|c s]; [discriminate|]. cbn [starts_with] in H.
  apply andb_true_iff in H as [Hx Hp]. apply N.eqb_eq in Hx. subst.
  cbn [length skipn app]. f_equal. now apply IH.
Qed.

Lemma take_digits_local (s ds r : jsstring) :
  take_digits s = (ds, r) ->
  forallb is_digit ds = true
  /\ forall r', halts is_digit r' = true -> take_digits (ds ++ r') = (ds, r').
Proof.
  revert ds r; induction s as [|c s IH]; cbn [take_digits]; intros ds r H.
  - inversion H. split; [reflexivity|]. intros [|x r'] Hr; [reflexivity|].
    cbn [app take_digits halts] in *. apply negb_true_iff in Hr. now rewrite Hr.
  - destruct (is_digit c) eqn:Hc.
    + destruct (take_digits s) as [ds' r0] eqn:E. inversion H. subst.
      destruct (IH ds' r eq_refl) as [Hd Hl].
      split; [cbn [forallb]; now rewrite Hc|].
      intros r' Hr. cbn [app take_digits]. rewrite Hc, (Hl r' Hr). reflexivity.
    + inversion H. split; [reflexivity|]. intros [|x r'] Hr; [reflexivity|].
      cbn [app take_digits halts] in *. apply negb_true_iff in Hr. now rewrite Hr.
Qed.

Lemma halts_weaken (p q : char16 -> bool) (r : jsstring) :
  (forall c, q c = true -> p c = true) -> halts p r = true -> halts q r = true.
Proof.
  intros H. destruct r as [|c r]; [reflexivity|]. cbn [halts].
  rewrite !negb_true_iff. intro Hp. destruct (q c) eqn:E; [|reflexivity].
  apply H in E. congruence.
Qed.

Lemma parse_int_local (s ds r : jsstring) :
  parse_int s = Some (ds, r) ->
  (exists d ds', ds = d :: ds' /\ is_digit d = true)
  /\ forall r', halts is_digit r' = true -> parse_int (ds ++ r') = Some (ds, r').
Proof.
  unfold parse_int. intro H. destruct s as [|c t]; [discriminate|].
  destruct (N.eqb_spec c 48) as [->|Hc].
  - inversion H. split; [now exists 48, []|]. intros r' _. reflexivity.
  - destruct (in_range 49 57 c) eqn:Hr; [|discriminate].
    assert (is_digit c = true) as Hd.
    { unfold is_digit. apply in_range_spec in Hr. apply in_range_spec. lia. }
    assert (E : take_digits (c :: t) = (ds, r)) by congruence.
    destruct (take_digits_local _ _ _ E) as [_ El].
    cbn [take_digits] in E. rewrite Hd in E.
    destruct (take_digits t) as [ds' r0]. inversion E. subst.
    split; [now exists c, ds'|].
    intros r' Hr'. cbn [app]. apply N.eqb_neq in Hc. rewrite Hc, Hr.
    now rewrite <- (El r' Hr').
Qed.

Lemma parse_frac_local (s fs r : jsstring) :
  parse_frac s = Some (fs, r) ->
  exists c,
    s = c ++ r
    /\ halts is_digit c = true
    /\ forall r', halts (fun x => is_digit x || N.eqb x 46) r' = true ->
                  parse_frac (c ++ r') = Some (fs, r').
Proof.
  intro H.
  assert (Hnil : forall r', halts (fun x => is_digit x || N.eqb x 46) r' = true ->
                   parse_frac ([] ++ r') = Some ([], r')).
  { intros [|x r'] Hr; [reflexivity|]. cbn [halts] in Hr.
    apply negb_true_iff, orb_false_iff in Hr as [_ Hr].
    cbn [app]. unfold parse_frac. now rewrite Hr. }
  unfold parse_frac in H.
  destruct s as [|c t].
  - inversion H. subst. exists []. repeat split. exact Hnil.
  - destruct (N.eqb_spec c 46) as [->|Hc].
    + destruct (take_digits t) as [[|f0 fs0] r0] eqn:E; [discriminate|].
      inversion H. subst.
      pose proof (take_digits_split _ _ _ E) as ->.
      apply take_digits_local in E as [_ E].
      exists (46 :: f0 :: fs0). repeat split.
      intros r' Hr. unfold parse_frac. cbn [app N.eqb Pos.eqb].
      change (f0 :: fs0 ++ r') with ((f0 :: fs0) ++ r').
      rewrite E; [reflexivity|].
      revert Hr. apply halts_weaken. intros x ->. reflexivity.
    + inversion H. subst. exists []. repeat split. exact Hnil.
Qed.

Lemma parse_exp_local (s r : jsstring) (e : Z) :
  parse_exp s = Some (e, r) ->
  exists c,
    s = c ++ r
    /\ halts (fun x => is_digit x || N.eqb x 46) c = true
    /\ forall r',
         halts (fun x => is_digit x || N.eqb x 101 || N.eqb x 69) r' = true ->
         parse_exp (c ++ r') = Some (e, r').
Proof.
  intro H.
  assert (Hnil : forall r',
             halts (fun x => is_digit x || N.eqb x 101 || N.eqb x 69) r' = true ->
             parse_exp ([] ++ r') = Some (0%Z, r')).
  { intros [|x r'] Hr; [reflexivity|]. cbn [halts] in Hr.
    apply negb_true_iff in Hr.
    destruct (is_digit x); [discriminate|]. cbn [orb] in Hr.
    cbn [app]. unfold parse_exp. now rewrite Hr. }
  unfold parse_exp in H.
  destruct s as [|c t].
  - inversion H. subst. exists []. repeat split. exact Hnil.
  - destruct (N.eqb c 101 || N.eqb c 69) eqn:Hc.
    + destruct (parse_exp_sign t) as [eneg u] eqn:Es.
      destruct (take_digits u) as [[|e0 es] r0] eqn:E; [discriminate|].
      inversion H. subst.
      pose proof (take_digits_split _ _ _ E) as ->.
      apply take_digits_local in E as [Hd E].
      assert (exists sg, t = sg ++ (e0 :: es) ++ r
                /\ forall r', parse_exp_sign (sg ++ (e0 :: es) ++ r') = (eneg, (e0 :: es) ++ r'))
        as (sg & -> & Hsg).
      { unfold parse_exp_sign in Es. destruct t as [|g u']; [discriminate|].
        destruct (N.eqb_spec g 43) as [->|Hg].
        - inversion Es. subst. exists [43]. split; [reflexivity|]. reflexivity.
        - destruct (N.eqb_spec g 45) as [->|Hg'].
          + inversion Es. subst. exists [45]. split; [reflexivity|]. reflexivity.
          + inversion Es. subst. exists []. split; [reflexivity|].
            intro r'. cbn [app]. unfold parse_exp_sign.
            destruct (N.eqb_spec e0 43); [congruence|].
            destruct (N.eqb_spec e0 45); [congruence|]. reflexivity. }
      exists (c :: sg ++ e0 :: es). split; [norm_app|]. split.
      * cbn [halts]. apply negb_true_iff.
        apply orb_true_iff in Hc as [Hc|Hc]; apply N.eqb_eq in Hc; subst; reflexivity.
      * intros r' Hr. unfold parse_exp. cbn [app]. rewrite Hc.
        replace ((sg ++ e0 :: es) ++ r') with (sg ++ (e0 :: es) ++ r') by norm_app.
        rewrite Hsg, E; [reflexivity|].
        revert Hr. apply halts_weaken. intros x ->. reflexivity.
    + inversion H. subst. exists []. repeat split. exact Hnil.
Qed.

Lemma parse_number_local (s r : jsstring) (d : decimal) :
  parse_number s = Some (d, r) ->
  exists x c,
    s = (x :: c) ++ r
    /\ (N.eqb x 45 || is_digit x = true)
    /\ forall r', number_ends r' = true ->
                  parse_number ((x :: c) ++ r') = Some (d, r').
Proof.
  intro H. unfold parse_number in H.
  destruct (parse_minus s) as [neg s1] eqn:Em.
  destruct (parse_int s1) as [[ids r1]|] eqn:Ei; [|discriminate].
  pose proof (parse_int_suffix _ _ _ Ei) as Es1.
  apply parse_int_local in Ei as [(d0 & ids' & -> & Hd0) Hi].
  destruct (parse_frac r1) as [[fds r2]|] eqn:Ef; [|discriminate].
  apply parse_frac_local in Ef as (cf & -> & Hcf & Hf).
  destruct (parse_exp r2) as [[e r3]|] eqn:Ee; [|discriminate].
  apply parse_exp_local in Ee as (ce & -> & Hce & He).
  assert (Hr3 : r3 = r) by congruence.
  assert (Hdd : {| dec_neg := neg; dec_mant := digits_value ((d0 :: ids') ++ fds);
                   dec_exp := (e - Z.of_nat (length fds))%Z |} = d) by congruence.
  subst r3 d. clear H.
  assert (Hrest : forall r', number_ends r' = true ->
            parse_int ((d0 :: ids') ++ cf ++ ce ++ r') = Some (d0 :: ids', cf ++ ce ++ r')
            /\ parse_frac (cf ++ ce ++ r') = Some (fds, ce ++ r')
            /\ parse_exp (ce ++ r') = Some (e, r')).
  { intros r' Hr.
    assert (halts (fun x => is_digit x || N.eqb x 101 || N.eqb x 69) r' = true) as H1.
    { revert Hr. apply halts_weaken. intros x Hx.
      destruct (is_digit x); [reflexivity|]. cbn [orb] in *.
      apply orb_true_iff in Hx as [Hx|Hx]; rewrite Hx; [|apply orb_true_r].
      now rewrite orb_true_r. }
    assert (halts (fun x => is_digit x || N.eqb x 46) (ce ++ r') = true) as H2.
    { destruct ce as [|y ce]; [|exact Hce]. cbn [app].
      revert Hr. apply halts_weaken. intros x Hx.
      destruct (is_digit x); [reflexivity|]. cbn [orb] in *. now rewrite Hx. }
    assert (halts is_digit (cf ++ ce ++ r') = true) as H3.
    { destruct cf as [|y cf]; [|exact Hcf]. cbn [app].
      revert H2. apply halts_weaken. intros x ->. reflexivity. }
    repeat split; auto. }
  unfold parse_minus in Em. destruct s as [|c t].
  - injection Em as <- Et. rewrite Es1 in Et. discriminate.
  - destruct (N.eqb_spec c 45) as [->|Hc].
    + injection Em as <- Et. rewrite Es1 in Et. subst t.
      exists 45, ((d0 :: ids') ++ cf ++ ce).
      split; [norm_app|]. split; [reflexivity|].
      intros r' Hr. destruct (Hrest r' Hr) as (E1 & E2 & E3).
      unfold parse_number, parse_minus. cbn [app N.eqb Pos.eqb]. cbn [app] in E1.
      replace (d0 :: (ids' ++ cf ++ ce) ++ r') with (d0 :: ids' ++ cf ++ ce ++ r')
        by norm_app.
      rewrite E1, E2, E3. reflexivity.
    + injection Em as <- Et. rewrite Es1 in Et. cbn [app] in Et.
      injection Et as -> ->.
      exists d0, (ids' ++ cf ++ ce).
      split; [norm_app|]. split; [rewrite Hd0; apply orb_true_r|].
      intros r' Hr. destruct (Hrest r' Hr) as (E1 & E2 & E3).
      unfold parse_number, parse_minus.
      cbn [app] in E1 |- *. apply N.eqb_neq in Hc. rewrite Hc.
      replace (d0 :: (ids' ++ cf ++ ce) ++ r') with (d0 :: ids' ++ cf ++ ce ++ r')
        by norm_app.
      rewrite E1, E2, E3. reflexivity.
Qed.

Lemma parse_string_chars_local_upto (n : nat) (s str r : jsstring) :
  (length s <= n)%nat ->
  parse_string_chars s = Some (str, r) ->
  exists c, s = c ++ r /\ forall r', parse_string_chars (c ++ r') = Some (str, r').
Proof.
  revert s str r; induction n as [|n IH]; intros s str r Hn H.
  - destruct s; [discriminate|simpl in Hn; lia].
  - destruct s as [|c s']; [discriminate|]. simpl in Hn. cbn [parse_string_chars] in H.
    destruct (N.eqb c 34) eqn:E34.
    { inversion H. subst. exists [c]. split; [reflexivity|].
      intro r'. cbn [app parse_string_chars]. now rewrite E34. }
    destruct (N.eqb c 92) eqn:E92.
    + destruct s' as [|e s'']; [discriminate|]. simpl in Hn.
      destruct (N.eqb e 117) eqn:E117.
      * destruct s'' as [|h1 [|h2 [|h3 [|h4 s3]]]]; try discriminate.
        simpl in Hn.
        destruct (hex4 h1 h2 h3 h4) eqn:Eh; [|discriminate].
        destruct (parse_string_chars s3) as [[str' r0]|] eqn:E; [|discriminate].
        inversion H. subst.
        apply IH in E as (c' & -> & Hc'); [|lia].
        exists (c :: e :: h1 :: h2 :: h3 :: h4 :: c'). split; [reflexivity|].
        intro r'. cbn [app parse_string_chars].
        now rewrite E34, E92, E117, Eh, Hc'.
      * destruct (simple_escape e) eqn:Ee; [|discriminate].
        destruct (parse_string_chars s'') as [[str' r0]|] eqn:E; [|discriminate].
        inversion H. subst.
        apply IH in E as (c' & -> & Hc'); [|lia].
        exists (c :: e :: c'). split; [reflexivity|].
        intro r'. cbn [app parse_string_chars].
        now rewrite E34, E92, E117, Ee, Hc'.
    + destruct (c <? 32) eqn:E32; [discriminate|].
      destruct (parse_string_chars s') as [[str' r0]|] eqn:E; [|discriminate].
      inversion H. subst.
      apply IH in E as (c' & -> & Hc'); [|lia].
      exists (c :: c'). split; [reflexivity|].
      intro r'. cbn [app parse_string_chars].
      now rewrite E34, E92, E32, Hc'.
Qed.

Lemma parse_string_chars_local (s str r : jsstring) :
  parse_string_chars s = Some (str, r) ->
  exists c, s = c ++ r /\ forall r', parse_string_chars (c ++ r') = Some (str, r').
Proof. apply (parse_string_chars_local_upto (length s)). apply Nat.le_refl. Qed.

Lemma skip_ws_to (w t : jsstring) (y : char16) :
  forallb is_json_ws w = true -> is_json_ws y = false ->
  skip_ws (w ++ y :: t) = y :: t.
Proof. intros W Y. rewrite (skip_ws_app w _ W). now apply skip_ws_stop. Qed.

Ltac skip_to W Y :=
  match goal with
  | |- context [skip_ws (?w ++ ?y :: ?t)] =>
      replace (skip_ws (w ++ y :: t)) with (y :: t)
        by (symmetry; apply skip_ws_to; [exact W|exact Y])
  end.

Lemma number_ends_ws (w t : jsstring) (y : char16) :
  forallb is_json_ws w = true -> number_ends (y :: t) = true ->
  number_ends (w ++ y :: t) = true.
Proof.
  destruct w as [|a w]; [trivial|]. cbn [forallb app]. intros W _.
  apply andb_true_iff in W as [Ha _].
  unfold number_ends, halts. unfold is_json_ws in Ha.
  repeat (apply orb_true_iff in Ha as [Ha|Ha]);
    apply N.eqb_eq in Ha; subst; reflexivity.
Qed.

Lemma literal_not_number (x : char16) (t : jsstring) :
  N.eqb x 45 || is_digit x = true ->
  N.eqb x 91 = false /\ N.eqb x 123 = false /\ N.eqb x 34 = false
  /\ starts_with (lit "true") (x :: t) = false
  /\ starts_with (lit "false") (x :: t) = false
  /\ starts_with (lit "null") (x :: t) = false.
Proof.
  intro H.
  assert (forall k, N.eqb k 45 || is_digit k = false -> N.eqb x k = false) as Hk.
  { intros k Hk. destruct (N.eqb_spec x k) as [->|]; [congruence|reflexivity]. }
  assert (forall k, N.eqb k 45 || is_digit k = false -> N.eqb k x = false) as Hk'.
  { intros k Hk0. rewrite N.eqb_sym. now apply Hk. }
  repeat split; try (apply Hk; reflexivity);
    cbn [lit map String.list_ascii_of_string starts_with];
    cbv [N_of_ascii N_of_digits]; cbn [N.add N.mul];
    match goal with |- N.eqb ?k x && _ = false => rewrite (Hk' k eq_refl) end;
    reflexivity.
Qed.

(** What a parser has consumed decides its result: the same value is parsed in
    front of any other rest, provided that rest cannot continue a number when
    the value is one. *)
Lemma parse_local (f : nat) :
  (forall s v r, parse_value f s = Parsed v r ->
     exists x c,
       s = (x :: c) ++ r
       /\ forall r', (is_number v = true -> number_ends r' = true) ->
                     parse_value f ((x :: c) ++ r') = Parsed v r')
  /\ (forall s l r, parse_elements f s = Parsed l r ->
        exists x c,
          s = (x :: c) ++ r
          /\ forall r', parse_elements f ((x :: c) ++ r') = Parsed l r')
  /\ (forall s l r, parse_members f s = Parsed l r ->
        exists x c,
          s = (x :: c) ++ r
          /\ forall r', parse_members f ((x :: c) ++ r') = Parsed l r').
Proof.
  induction f as [|f (IHv & IHe & IHm)];
    [repeat split; intros; discriminate|].
  split; [|split].
  - intros s v r H. cbn [parse_value] in H.
    destruct s as [|c0 s']; [discriminate|].
    destruct (N.eqb_spec c0 91) as [->|Hc].
    { destruct (skip_ws_split s') as (w & Ew & W).
      destruct (skip_ws s') as [|d r0] eqn:Esk; [discriminate|].
      pose proof (skip_ws_head _ _ _ Esk) as Hd.
      destruct (N.eqb_spec d 93) as [->|Hd93].
      - assert (v = VArr [] /\ r0 = r) as [-> ->] by (split; congruence).
        exists 91, (w ++ [93]). split; [rewrite Ew; norm_app|].
        intros r' _. cbn [app parse_value N.eqb Pos.eqb].
        replace ((w ++ [93]) ++ r') with (w ++ 93 :: r') by norm_app.
        skip_to W (@eq_refl bool false). reflexivity.
      - unfold map_parsed in H.
        destruct (parse_elements f (d :: r0)) as [l r1| |] eqn:E; try discriminate.
        assert (v = VArr l /\ r1 = r) as [-> ->] by (split; congruence).
        apply IHe in E as (x & c & Ex & Hloc).
        cbn [app] in Ex. injection Ex as <- ->.
        exists 91, (w ++ d :: c). split; [rewrite Ew; norm_app|].
        intros r' _. cbn [app parse_value N.eqb Pos.eqb].
        replace ((w ++ d :: c) ++ r') with (w ++ d :: (c ++ r')) by norm_app.
        skip_to W Hd.
        apply N.eqb_neq in Hd93. rewrite Hd93.
        change (d :: c ++ r') with ((d :: c) ++ r'). now rewrite Hloc. }
    destruct (N.eqb_spec c0 123) as [->|Hc2].
    { destruct (skip_ws_split s') as (w & Ew & W).
      destruct (skip_ws s') as [|d r0] eqn:Esk; [discriminate|].
      pose proof (skip_ws_head _ _ _ Esk) as Hd.
      destruct (N.eqb_spec d 125) as [->|Hd125].
      - assert (v = VObj [] /\ r0 = r) as [-> ->] by (split; congruence).
        exists 123, (w ++ [125]). split; [rewrite Ew; norm_app|].
        intros r' _. cbn [app parse_value N.eqb Pos.eqb].
        replace ((w ++ [125]) ++ r') with (w ++ 125 :: r') by norm_app.
        skip_to W (@eq_refl bool false). reflexivity.
      - unfold map_parsed in H.
        destruct (parse_members f (d :: r0)) as [l r1| |] eqn:E; try discriminate.
        assert (v = VObj l /\ r1 = r) as [-> ->] by (split; congruence).
        apply IHm in E as (x & c & Ex & Hloc).
        cbn [app] in Ex. injection Ex as <- ->.
        exists 123, (w ++ d :: c). split; [rewrite Ew; norm_app|].
        intros r' _. cbn [app parse_value N.eqb Pos.eqb].
        replace ((w ++ d :: c) ++ r') with (w ++ d :: (c ++ r')) by norm_app.
        skip_to W Hd.
        apply N.eqb_neq in Hd125. rewrite Hd125.
        change (d :: c ++ r') with ((d :: c) ++ r'). now rewrite Hloc. }
    destruct (N.eqb_spec c0 34) as [->|Hc3].
    { destruct (parse_string_chars s') as [[str r1]|] eqn:E; [|discriminate].
      assert (v = VStr str /\ r1 = r) as [-> ->] by (split; congruence).
      apply parse_string_chars_local in E as (c & -> & Hloc).
      exists 34, c. split; [reflexivity|].
      intros r' _. cbn [app parse_value N.eqb Pos.eqb]. now rewrite Hloc. }
    destruct (starts_with (lit "true") (c0 :: s')) eqn:Et.
    { assert (v = VBool true /\ skipn 4 (c0 :: s') = r) as [-> Hr]
          by (split; congruence).
      apply starts_with_split in Et. change (length (lit "true")) with 4%nat in Et.
      rewrite Hr in Et. exists 116, (lit "rue"). split; [exact Et|].
      intros r' _. reflexivity. }
    destruct (starts_with (lit "false") (c0 :: s')) eqn:Ef.
    { assert (v = VBool false /\ skipn 5 (c0 :: s') = r) as [-> Hr]
          by (split; congruence).
      apply starts_with_split in Ef. change (length (lit "false")) with 5%nat in Ef.
      rewrite Hr in Ef. exists 102, (lit "alse"). split; [exact Ef|].
      intros r' _. reflexivity. }
    destruct (starts_with (lit "null") (c0 :: s')) eqn:En.
    { assert (v = VNull /\ skipn 4 (c0 :: s') = r) as [-> Hr]
          by (split; congruence).
      apply starts_with_split in En. change (length (lit "null")) with 4%nat in En.
      rewrite Hr in En. exists 110, (lit "ull"). split; [exact En|].
      intros r' _. reflexivity. }
    destruct (parse_number (c0 :: s')) as [[d r1]|] eqn:E; [|discriminate].
    assert (v = VNum d /\ r1 = r) as [-> ->] by (split; congruence).
    apply parse_number_local in E as (x & c & Ex & Hx & Hloc).
    exists x, c. split; [exact Ex|].
    intros r' Hr. specialize (Hr eq_refl).
    destruct (literal_not_number x (c ++ r') Hx) as (T1 & T2 & T3 & T4 & T5 & T6).
    cbn [app parse_value]. rewrite T1, T2, T3, T4, T5, T6.
    change (x :: c ++ r') with ((x :: c) ++ r'). now rewrite (Hloc r' Hr).
  - intros s l r H. cbn [parse_elements] in H.
    destruct (parse_value f s) as [v r0| |] eqn:Ev; try discriminate.
    apply IHv in Ev as (x & c & -> & Hloc).
    destruct (skip_ws_split r0) as (w & Ew & W).
    destruct (skip_ws r0) as [|ch r1] eqn:Esk; [discriminate|].
    pose proof (skip_ws_head _ _ _ Esk) as Hch.
    destruct (N.eqb_spec ch 44) as [->|Hc44].
    + unfold map_parsed in H.
      destruct (skip_ws_split r1) as (w1 & Ew1 & W1).
      destruct (parse_elements f (skip_ws r1)) as [l' r2| |] eqn:E; try discriminate.
      assert (l = v :: l' /\ r2 = r) as [-> ->] by (split; congruence).
      apply IHe in E as (y & c2 & Ey & Hloc2).
      pose proof (skip_ws_head _ _ _ Ey) as Hy.
      exists x, (c ++ w ++ 44 :: w1 ++ y :: c2).
      split; [rewrite Ew, Ew1, Ey; norm_app|].
      intro r'. cbn [parse_elements].
      replace ((x :: c ++ w ++ 44 :: w1 ++ y :: c2) ++ r')
        with ((x :: c) ++ (w ++ 44 :: (w1 ++ y :: (c2 ++ r')))) by norm_app.
      rewrite Hloc by (intros _; now apply number_ends_ws).
      skip_to W (@eq_refl bool false). cbn [N.eqb Pos.eqb].
      skip_to W1 Hy.
      change (y :: c2 ++ r') with ((y :: c2) ++ r'). now rewrite Hloc2.
    + destruct (N.eqb_spec ch 93) as [->|Hc93]; [|discriminate].
      assert (l = [v] /\ r1 = r) as [-> ->] by (split; congruence).
      exists x, (c ++ w ++ [93]). split; [rewrite Ew; norm_app|].
      intro r'. cbn [parse_elements].
      replace ((x :: c ++ w ++ [93]) ++ r')
        with ((x :: c) ++ (w ++ 93 :: r')) by norm_app.
      rewrite Hloc by (intros _; now apply number_ends_ws).
      skip_to W (@eq_refl bool false). reflexivity.
  - intros s l r H. cbn [parse_members] in H.
    destruct s as [|q s']; [discriminate|].
    destruct (N.eqb_spec q 34) as [->|]; [|discriminate].
    destruct (parse_string_chars s') as [[k r0]|] eqn:Ek; [|discriminate].
    apply parse_string_chars_local in Ek as (ck & -> & Hk).
    destruct (skip_ws_split r0) as (w & Ew & W).
    destruct (skip_ws r0) as [|ch r1] eqn:Esk; [discriminate|].
    destruct (N.eqb_spec ch 58) as [->|]; [|discriminate].
    destruct (skip_ws_split r1) as (w1 & Ew1 & W1).
    destruct (parse_value f (skip_ws r1)) as [v r2| |] eqn:Ev; try discriminate.
    apply IHv in Ev as (x & c & Ex & Hloc).
    pose proof (skip_ws_head _ _ _ Ex) as Hx.
    destruct (skip_ws_split r2) as (w2 & Ew2 & W2).
    destruct (skip_ws r2) as [|c2 r3] eqn:Esk2; [discriminate|].
    destruct (N.eqb_spec c2 44) as [->|Hc44].
    + unfold map_parsed in H.
      destruct (skip_ws_split r3) as (w3 & Ew3 & W3).
      destruct (parse_members f (skip_ws r3)) as [l' r4| |] eqn:E; try discriminate.
      assert (l = (k, v) :: l' /\ r4 = r) as [-> ->] by (split; congruence).
      apply IHm in E as (y & c3 & Ey & Hloc3).
      pose proof (skip_ws_head _ _ _ Ey) as Hy.
      exists 34, (ck ++ w ++ 58 :: w1 ++ (x :: c) ++ w2 ++ 44 :: w3 ++ y :: c3).
      split; [rewrite Ew, Ew1, Ex, Ew2, Ew3, Ey; norm_app|].
      intro r'. cbn [app parse_members N.eqb Pos.eqb].
      replace ((ck ++ w ++ 58 :: w1 ++ x :: c ++ w2 ++ 44 :: w3 ++ y :: c3) ++ r')
        with (ck ++ (w ++ 58 :: (w1 ++ x :: (c ++ (w2 ++ 44 :: (w3 ++ y :: (c3 ++ r')))))))
        by norm_app.
      rewrite Hk, (skip_ws_to w _ 58 W eq_refl). cbn [N.eqb Pos.eqb].
      skip_to W1 Hx.
      change (x :: c ++ w2 ++ 44 :: w3 ++ y :: c3 ++ r')
        with ((x :: c) ++ (w2 ++ 44 :: (w3 ++ y :: (c3 ++ r')))).
      rewrite Hloc by (intros _; now apply number_ends_ws).
      skip_to W2 (@eq_refl bool false). cbn [N.eqb Pos.eqb].
      skip_to W3 Hy.
      change (y :: c3 ++ r') with ((y :: c3) ++ r'). now rewrite Hloc3.
    + destruct (N.eqb_spec c2 125) as [->|]; [|discriminate].
      assert (l = [(k, v)] /\ r3 = r) as [-> ->] by (split; congruence).
      exists 34, (ck ++ w ++ 58 :: w1 ++ (x :: c) ++ w2 ++ [125]).
      split; [rewrite Ew, Ew1, Ex, Ew2; norm_app|].
      intro r'. cbn [app parse_members N.eqb Pos.eqb].
      replace ((ck ++ w ++ 58 :: w1 ++ x :: c ++ w2 ++ [125]) ++ r')
        with (ck ++ (w ++ 58 :: (w1 ++ x :: (c ++ (w2 ++ 125 :: r')))))
        by norm_app.
      rewrite Hk, (skip_ws_to w _ 58 W eq_refl). cbn [N.eqb Pos.eqb].
      skip_to W1 Hx.
      change (x :: c ++ w2 ++ 125 :: r') with ((x :: c) ++ (w2 ++ 125 :: r')).
      rewrite Hloc by (intros _; now apply number_ends_ws).
      skip_to W2 (@eq_refl bool false). reflexivity.
Qed.

(* ================================================================== *)
(** ** Extraction of a clean array text *)

Lemma starts_with_head (p : char16) (pat s : jsstring) :
  ~ In p s -> starts_with (p :: pat) s = false.
Proof.
  destruct s as [|c s]; [reflexivity|]. intro H. cbn [starts_with].
  destruct (N.eqb_spec p c) as [->|]; [exfalso; apply H; now left|reflexivity].
Qed.

(** A text without the first code unit of the pattern is left as it is. *)
Lemma replace_literal_absent (p : char16) (pat s : jsstring) :
  ~ In p s -> replace_literal (p :: pat) s = s.
Proof.
  induction s as [|c s IH]; [reflexivity|]. intro H.
  rewrite replace_literal_no_match by now apply starts_with_head.
  f_equal. apply IH. intro Hin. apply H. now right.
Qed.

(** A text that parses to an array still does when the white space around it
    is removed. *)
Lemma JSON_parse_array_core (a : jsstring) (items : list value) :
  JSON_parse a = Some (VArr items) ->
  exists w1 m w2,
    a = w1 ++ lbracket :: m ++ rbracket :: w2
    /\ forallb is_json_ws w1 = true /\ forallb is_json_ws w2 = true
    /\ JSON_parse (lbracket :: m ++ [rbracket]) = Some (VArr items).
Proof.
  unfold JSON_parse at 1. intro H.
  destruct (parse_value (parse_fuel a) (skip_ws a)) as [v r| |] eqn:E; try discriminate.
  pose proof (skip_ws_nil r) as W2.
  destruct (skip_ws r); [|discriminate]. specialize (W2 eq_refl).
  injection H as ->.
  destruct (skip_ws_split a) as (w1 & E1 & W1).
  destruct (parse_consumes (parse_fuel a)) as (Hshape & _ & _).
  destruct (Hshape _ _ _ E) as [_ Hm]. destruct (Hm items eq_refl) as [m Em].
  destruct (parse_local (parse_fuel a)) as (Hloc & _ & _).
  destruct (Hloc _ _ _ E) as (x & c & Ex & Hc).
  assert (x :: c = lbracket :: m ++ [rbracket]) as Ecore.
  { rewrite Em in Ex.
    replace (lbracket :: m ++ rbracket :: r) with ((lbracket :: m ++ [rbracket]) ++ r)
      in Ex by norm_app.
    now apply app_inv_tail in Ex. }
  exists w1, m, r. rewrite E1 at 1. rewrite Em.
  split; [reflexivity|]. split; [assumption|]. split; [assumption|].
  specialize (Hc [] (fun F => ltac:(discriminate F))).
  rewrite app_nil_r, Ecore in Hc.
  unfold JSON_parse.
  rewrite (skip_ws_stop lbracket _ eq_refl).
  pose proof (JSON_parse_fuel (lbracket :: m ++ [rbracket])) as Hfuel.
  rewrite (skip_ws_stop lbracket _ eq_refl) in Hfuel.
  assert (parse_fuel (lbracket :: m ++ [rbracket]) <= parse_fuel a)%nat as Hle.
  { unfold parse_fuel. rewrite E1 at 1. rewrite Em, length_app.
    cbn [length]. rewrite !length_app. cbn [length]. lia. }
  pose proof (parse_value_more_fuel (parse_fuel (lbracket :: m ++ [rbracket]))
                (parse_fuel a - parse_fuel (lbracket :: m ++ [rbracket]))
                (lbracket :: m ++ [rbracket]) Hfuel) as Hmore.
  replace (parse_fuel a - parse_fuel (lbracket :: m ++ [rbracket])
           + parse_fuel (lbracket :: m ++ [rbracket]))%nat
    with (parse_fuel a) in Hmore by lia.
  rewrite <- Hmore, Hc. reflexivity.
Qed.

(** Round trip of extraction: a text that parses to an array and holds no
    backtick is extracted as that array, bare or inside a fenced block
    between prose without brackets of its own. *)
Theorem extrairJson_clean_array (a : jsstring) (items : list value)
  (before after : jsstring) :
  JSON_parse a = Some (VArr items) -> ~ In backtick a ->
  ~ In lbracket before -> ~ In rbracket after ->
  extrairJson a = Ok (VArr items)
  /\ extrairJson (fenced before a after) = Ok (VArr items).
Proof.
  intros Hparse Htick Hb Ha.
  destruct (JSON_parse_array_core a items Hparse)
    as (w1 & m & w2 & -> & W1 & W2 & Hcore).
  assert (Hws : forall w c, forallb is_json_ws w = true -> is_json_ws c = false ->
                            ~ In c w).
  { intros w c Hw Hc Hin. rewrite forallb_forall in Hw.
    apply Hw in Hin. congruence. }
  assert (~ In backtick m) as Hm.
  { intro Hin. apply Htick. apply in_or_app. right. right.
    apply in_or_app. now left. }
  assert (replace_literal fence (replace_literal fence_json m) = m) as Hclean.
  { change fence_json with (backtick :: lit "``json").
    change fence with (backtick :: lit "``").
    now rewrite !(replace_literal_absent backtick _ m Hm). }
  destruct lbracket_not_in_fences as [L1 _].
  destruct rbracket_not_in_fences as [_ R2].
  split.
  - rewrite (extrairJson_bracketed w1 m w2); [|now apply Hws|now apply Hws].
    now rewrite Hclean, Hcore.
  - unfold fenced.
    replace (before ++ fence_json ++ (w1 ++ lbracket :: m ++ rbracket :: w2) ++ fence ++ after)
      with ((before ++ fence_json ++ w1) ++ lbracket :: m ++ rbracket :: (w2 ++ fence ++ after))
      by norm_app.
    rewrite extrairJson_bracketed.
    + now rewrite Hclean, Hcore.
    + rewrite !in_app_iff. intros [H|[H|H]]; [auto|auto|].
      revert H. now apply Hws.
    + rewrite !in_app_iff. intros [H|[H|H]]; [|auto|auto].
      revert H. now apply Hws.
Qed.

Lemma extrairJson_clean_array_witness :
  extrairJson sample_array = Ok (VArr [sample_record])
  /\ extrairJson (fenced (lit "Segue: ") sample_array (lit " Fim."))
     = Ok (VArr [sample_record]).
Proof.
  assert (H1 : JSON_parse sample_array = Some (VArr [sample_record])) by reflexivity.
  assert (H2 : ~ In backtick sample_array) by (apply not_in_existsb; reflexivity).
  assert (H3 : ~ In lbracket (lit "Segue: ")) by (apply not_in_existsb; reflexivity).
  assert (H4 : ~ In rbracket (lit " Fim.")) by (apply not_in_existsb; reflexivity).
  exact (extrairJson_clean_array _ _ _ _ H1 H2 H3 H4).
Defined.

(* ================================================================== *)
(** ** The message of a run *)

Section Mail.
Context {U : UnicodeOps} {N : NumberOps}.

Lemma itensHtml_app (l1 l2 : list Oportunidade) :
  itensHtml (l1 ++ l2)
  = (h1 <- itensHtml l1 ;; h2 <- itensHtml l2 ;; Ok (h1 ++ h2)).
Proof.
  induction l1 as [|op l1 IH]; cbn [itensHtml app bind].
  - destruct (itensHtml l2); reflexivity.
  - destruct (item_html op) as [h|e]; cbn [bind]; [|reflexivity].
    rewrite IH. destruct (itensHtml l1) as [h1|e]; cbn [bind]; [|reflexivity].
    destruct (itensHtml l2) as [h2|e]; cbn [bind]; [|reflexivity].
    now rewrite app_assoc.
Qed.

(** The title and the deadline of a record of the loop are printed without a
    number of the engine: the title is a string, the deadline is a string or
    one of the values that are not truthy. *)
Lemma ToString_not_truthy (N' : NumberOps) (v : value) :
  truthy v = false ->
  @ToString N v = @ToString N' v
  /\ exists d, In d [lit "undefined"; lit "null"; lit "false"; lit "0"; []]
               /\ @ToString N v = Ok d.
Proof.
  destruct v as [| |b|d|s|items|props]; cbn [truthy ToString]; intro Hv;
    try discriminate.
  - split; [reflexivity|]. eexists; split; [|reflexivity]. cbn [In]; tauto.
  - split; [reflexivity|]. eexists; split; [|reflexivity]. cbn [In]; tauto.
  - subst b. split; [reflexivity|]. eexists; split; [|reflexivity].
    cbn [In]; tauto.
  - apply negb_false_iff in Hv. rewrite Hv. split; [reflexivity|].
    eexists; split; [|reflexivity]. cbn [In]; tauto.
  - destruct s; [|discriminate]. split; [reflexivity|].
    eexists; split; [|reflexivity]. cbn [In]; tauto.
Qed.

Lemma item_html_well_formed (N' : NumberOps) (fontes : list Fonte)
  (op : Oportunidade) :
  well_formed_record fontes op ->
  exists h, @item_html N op = Ok h /\ @item_html N' op = Ok h.
Proof.
  intros ((t & Ht & _) & Hp & _). unfold item_html. rewrite Ht.
  cbn [ToString bind].
  destruct Hp as [(p & ->)|Hp].
  - cbn [ToString bind]. eexists; split; reflexivity.
  - destruct (ToString_not_truthy N' _ Hp) as (E & d & _ & Hd).
    rewrite <- E, Hd. cbn [bind]. eexists; split; reflexivity.
Qed.

Lemma itensHtml_well_formed (N' : NumberOps) (fontes : list Fonte)
  (ops : list Oportunidade) :
  Forall (well_formed_record fontes) ops ->
  exists h, @itensHtml N ops = Ok h /\ @itensHtml N' ops = Ok h.
Proof.
  induction 1 as [|op ops Hop _ (h & IH & IH')]; cbn [itensHtml].
  - exists []. split; reflexivity.
  - destruct (item_html_well_formed N' fontes op Hop) as (x & -> & ->).
    rewrite IH, IH'. cbn [bind]. eexists; split; reflexivity.
Qed.

Lemma Forall2_length_eq {A B : Type} (R : A -> B -> Prop) (l : list A) (l' : list B) :
  Forall2 R l l' -> length l = length l'.
Proof. induction 1; cbn [length]; congruence. Qed.

(** The message of every run is composed: whatever the agent answered, the
    batch at the end of the loops has a message, no conversion of a title or
    of a deadline throws, the subject counts the rows the run added to the
    table, and the message is the same under every way of printing numbers:
    apart from that count no number other than a zero is printed. *)
Theorem message_of_every_run (user to : jsstring)
  (grupos : list (Fonte * value)) (db0 : Table) :
  let st := fst (for_grupos grupos (initial_state db0)) in
  exists m,
    mailOptions user to (novasOportunidades st) = Ok m
    /\ subject m = subject_text_1
                   ++ length_text (length (db st) - length db0)
                   ++ subject_text_2
    /\ forall N' : NumberOps,
         @mailOptions N' user to (novasOportunidades st) = Ok m.
Proof.
  cbv zeta.
  destruct (for_grupos_appends grupos (initial_state db0))
    as (rows & ops & evs & Hdb & Hn & _ & Hm & Hw & _).
  cbn [initial_state db novasOportunidades app] in Hdb, Hn.
  rewrite Hdb, Hn.
  destruct (itensHtml_well_formed N _ _ Hw) as (h & Eh & _).
  unfold mailOptions at 1. rewrite Eh. cbn [bind]. eexists. split; [reflexivity|].
  split.
  - cbn [subject]. rewrite length_app, (Forall2_length_eq _ _ _ Hm).
    do 3 f_equal. lia.
  - intro N'. destruct (itensHtml_well_formed N' _ _ Hw) as (h' & Eh1 & Eh2).
    unfold mailOptions. rewrite Eh2. cbn [bind].
    rewrite Eh in Eh1. apply Ok_inj in Eh1. now subst h'.
Qed.

(** A title and a deadline are inserted as they are: the HTML of the message
    holds, for each record of the list with a string title and a string
    deadline, the template of the item with the two strings unchanged between
    its texts; no code unit of them is escaped or removed. *)
Theorem fields_inserted_verbatim (user to : jsstring)
  (oportunidades : list Oportunidade) (op : Oportunidade) (t p : jsstring)
  (m : MailOptions) :
  In op oportunidades ->
  op_titulo op = VStr t -> op_prazo op = VStr p ->
  mailOptions user to oportunidades = Ok m ->
  exists a b,
    html m = a ++ (item_text_1 ++ op_cor op ++ item_text_2 ++ fonte_nome op
                   ++ item_text_3 ++ t ++ item_text_4 ++ p ++ item_text_5
                   ++ fonte_url op ++ item_text_6 ++ op_cor op ++ item_text_7)
               ++ b.
Proof.
  intros Hin Ht Hp Hm. apply in_split in Hin as (l1 & l2 & ->).
  unfold mailOptions in Hm. rewrite itensHtml_app in Hm.
  destruct (itensHtml l1) as [h1|e]; [|discriminate]. cbn [bind itensHtml] in Hm.
  unfold item_html in Hm. rewrite Ht, Hp in Hm. cbn [ToString bind] in Hm.
  destruct (itensHtml l2) as [h2|e]; [|discriminate]. cbn [bind] in Hm.
  apply Ok_inj in Hm. subst m. cbn [html].
  exists (html_text_1 ++ h1), (h2 ++ html_text_2).
  now rewrite <- !app_assoc.
Qed.

(** A record whose deadline is not truthy has the placeholder [0000] in its
    identity and, in the message, the text of the value itself: the deadline
    of the record is what [item.prazo] gave, [undefined] when the item has no
    such member, and the item of the message prints [undefined] for
    [undefined], [null] for [null], [false] for [false], [0] for a zero, and
    nothing for the empty string. *)
Theorem deadline_not_truthy (fonte : Fonte) (item : value)
  (r : Row) (o : Oportunidade) (e : Event) :
  item_entry fonte item = Ok (Some (r, o, e)) ->
  truthy (op_prazo o) = false ->
  exists t,
    op_titulo o = VStr t
    /\ get_prop item (lit "prazo") = Ok (op_prazo o)
    /\ (forall props, item = VObj props ->
          lookup_prop (lit "prazo") props = None -> op_prazo o = VUndefined)
    /\ id_unico o = nome fonte ++ [hyphen] ++ substring (tituloLimpo t) 0 60
                    ++ [hyphen] ++ lit "0000"
    /\ item_html o
       = Ok (item_text_1 ++ cor fonte ++ item_text_2 ++ nome fonte
             ++ item_text_3 ++ t ++ item_text_4
             ++ match op_prazo o with
                | VUndefined => lit "undefined"
                | VNull => lit "null"
                | VBool _ => lit "false"
                | VNum _ => lit "0"
                | _ => []
                end
             ++ item_text_5
             ++ url fonte ++ item_text_6 ++ cor fonte ++ item_text_7).
Proof.
  unfold item_entry. intros H Hp.
  destruct (get_prop item (lit "titulo")) as [titulo|x]; [|discriminate].
  cbn [bind] in H. destruct (truthy titulo); [|discriminate]. cbn [negb] in H.
  destruct (get_prop item (lit "prazo")) as [prazo|x] eqn:Ep; [|discriminate].
  cbn [bind] in H.
  destruct (gerarIdEstavel (nome fonte) titulo prazo) as [id|x] eqn:Eid;
    [|discriminate].
  cbn [bind] in H. apply Ok_inj in H. injection H as _ <- _.
  cbn [op_prazo] in Hp. unfold gerarIdEstavel in Eid.
  destruct titulo as [| | | |t| |]; try discriminate.
  unfold slugPrazo in Eid. rewrite Hp in Eid. cbn [bind] in Eid.
  apply Ok_inj in Eid. subst id.
  exists t. cbn [op_titulo id_unico op_prazo]. split; [reflexivity|].
  split; [reflexivity|]. split.
  { intros props -> Hnone. cbn [get_prop] in Ep. rewrite Hnone in Ep.
    apply Ok_inj in Ep. now subst prazo. }
  split; [reflexivity|].
  unfold item_html. cbn [op_titulo op_prazo op_cor fonte_nome fonte_url ToString bind].
  destruct prazo as [| |b|d|p|items|props]; cbn [truthy] in Hp; try discriminate;
    cbn [ToString bind]; try reflexivity.
  - now subst b.
  - apply negb_false_iff in Hp. now rewrite Hp.
  - destruct p; [reflexivity|discriminate].
Qed.

End Mail.

Lemma fields_inserted_verbatim_witness :
  exists m a b,
    @mailOptions sample_numbers (lit "monitor@example.org") (lit "equipe@example.org")
      [@oportunidade_of Latin1Ops FONTE_IPEA sample_candidate] = Ok m
    /\ html m = a ++ (item_text_1 ++ cor FONTE_IPEA ++ item_text_2 ++ nome FONTE_IPEA
                      ++ item_text_3 ++ lit "Edital 01/2025" ++ item_text_4
                      ++ lit "15/12/2025" ++ item_text_5 ++ url FONTE_IPEA
                      ++ item_text_6 ++ cor FONTE_IPEA ++ item_text_7) ++ b.
Proof.
  pose (op := @oportunidade_of Latin1Ops FONTE_IPEA sample_candidate).
  destruct (@mailOptions sample_numbers (lit "monitor@example.org")
              (lit "equipe@example.org") [op]) as [m|e] eqn:E;
    [|vm_compute in E; discriminate].
  assert (In op [op]) as Hin by (left; reflexivity).
  assert (op_titulo op = VStr (lit "Edital 01/2025")) as Ht by reflexivity.
  assert (op_prazo op = VStr (lit "15/12/2025")) as Hp by reflexivity.
  destruct (@fields_inserted_verbatim sample_numbers _ _ _ _ _ _ _ Hin Ht Hp E)
    as (a & b & H).
  exists m, a, b. split; [exact E|exact H].
Defined.

Lemma deadline_not_truthy_witness :
  exists t,
    VStr (lit "Edital 01/2025") = VStr t
    /\ get_prop (VObj [(lit "titulo", VStr (lit "Edital 01/2025"))]) (lit "prazo")
       = Ok VUndefined
    /\ lit "IPEA-edital012025-0000"
       = nome FONTE_IPEA ++ [hyphen] ++ substring (@tituloLimpo Latin1Ops t) 0 60
         ++ [hyphen] ++ lit "0000"
    /\ @item_html sample_numbers
         {| id_unico := lit "IPEA-edital012025-0000";
            op_titulo := VStr (lit "Edital 01/2025"); op_prazo := VUndefined;
            fonte_nome := nome FONTE_IPEA; fonte_url := url FONTE_IPEA;
            op_cor := cor FONTE_IPEA |}
       = Ok (item_text_1 ++ cor FONTE_IPEA ++ item_text_2 ++ nome FONTE_IPEA
             ++ item_text_3 ++ t ++ item_text_4 ++ lit "undefined" ++ item_text_5
             ++ url FONTE_IPEA ++ item_text_6 ++ cor FONTE_IPEA ++ item_text_7).
Proof.
  destruct (@deadline_not_truthy Latin1Ops sample_numbers FONTE_IPEA
              (VObj [(lit "titulo", VStr (lit "Edital 01/2025"))])
              {| row_id := lit "IPEA-edital012025-0000";
                 row_projeto := VStr (lit "Edital 01/2025"); row_prazo := VUndefined;
                 row_fonte := nome FONTE_IPEA |}
              {| id_unico := lit "IPEA-edital012025-0000";
                 op_titulo := VStr (lit "Edital 01/2025"); op_prazo := VUndefined;
                 fonte_nome := nome FONTE_IPEA; fonte_url := url FONTE_IPEA;
                 op_cor := cor FONTE_IPEA |}
              (LogDetectado (nome FONTE_IPEA) (lit "Edital 01/2025"))
              eq_refl eq_refl) as (t & Ht & Hp & _ & Hid & Hh).
  exists t. split; [exact Ht|]. split; [exact Hp|]. split; [exact Hid|exact Hh].
Defined.

(* ================================================================== *)
(** ** The exceptions that end a run *)

Section Exceptions.
Context {U : UnicodeOps}.

Lemma item_entry_exn (fonte : Fonte) (item : value) (e : exn) :
  item_entry fonte item = Throw e -> e = TypeError.
Proof.
  unfold item_entry.
  destruct item as [| |b|d|s|items|props]; cbn [get_prop bind];
    try (intro H; congruence);
    try (cbn [truthy negb]; discriminate).
  destruct (lookup_prop (lit "titulo") props) as [titulo|];
    [|cbn [truthy negb]; discriminate].
  destruct (truthy titulo); cbn [negb]; [|discriminate].
  unfold gerarIdEstavel, slugPrazo.
  destruct titulo; cbn [bind]; try congruence.
  destruct (truthy _); cbn [bind]; [|discriminate].
  destruct (match lookup_prop (lit "prazo") props with
            | Some w => w | None => VUndefined end); cbn [bind]; congruence.
Qed.

Lemma for_items_exn (fonte : Fonte) (items : list value) (st : State) (e : exn) :
  snd (for_items fonte items st) = Some e -> e = TypeError.
Proof.
  revert st; induction items as [|x items IH]; intro st; cbn [for_items snd];
    [discriminate|].
  rewrite process_item_entry.
  destruct (item_entry fonte x) as [[y|]|z] eqn:E.
  - destruct (db_get (db st) (row_id (fst (fst y)))); apply IH.
  - apply IH.
  - cbn [snd]. intro H. injection H as <-. eapply item_entry_exn; eassumption.
Qed.

Lemma for_grupos_exn (grupos : list (Fonte * value)) (st : State) (e : exn) :
  snd (for_grupos grupos st) = Some e -> e = TypeError.
Proof.
  revert st; induction grupos as [|[fonte dados] grupos IH]; intro st;
    cbn [for_grupos snd]; [discriminate|].
  destruct (iterate dados) as [items|x] eqn:Ei.
  - pose proof (for_items_exn fonte items st) as Hi.
    destruct (for_items fonte items st) as [st' [x|]]; cbn [snd] in *.
    + intro H. injection H as <-. now apply Hi.
    + apply IH.
  - cbn [snd]. intro H. injection H as <-.
    destruct dados; cbn [iterate] in Ei; congruence.
Qed.

Lemma consultarGemini_returns (answer : option jsstring) :
  exists v, consultarGemini answer = Ok v.
Proof.
  destruct answer as [[|c text]|]; cbn [consultarGemini]; eauto.
  unfold extrairJson.
  destruct (extrairJson_try (c :: text)); cbn [try_catch]; eauto.
Qed.

(** One item with a store that can fail: when no call rejected, the body did
    what [process_item] does; and the only exception of the body is the
    [TypeError] of [process_item], the insertion never being refused. *)
Lemma store_process_item (rejects : nat -> bool) (fonte : Fonte) (st : State)
  (n : nat) (item : value) :
  match Store.process_item rejects fonte st n item with
  | (st', _, None) => process_item fonte st item = Ok st'
  | (st', _, Some (Thrown e)) =>
      st' = st /\ e = TypeError /\ process_item fonte st item = Throw e
  | (st', _, Some Rejected) => True
  end.
Proof.
  pose proof (item_entry_exn fonte item) as Hexn.
  unfold Store.process_item, process_item, item_entry in *.
  destruct (get_prop item (lit "titulo")) as [titulo|e]; cbn [bind] in *;
    [|now rewrite (Hexn e eq_refl)].
  destruct (truthy titulo); cbn [negb] in *; [|reflexivity].
  destruct (get_prop item (lit "prazo")) as [prazo|e]; cbn [bind] in *;
    [|now rewrite (Hexn e eq_refl)].
  destruct (gerarIdEstavel (nome fonte) titulo prazo) as [id|e]; cbn [bind] in *;
    [|now rewrite (Hexn e eq_refl)].
  destruct (rejects n); [exact I|].
  unfold db_run_insert. cbn [row_id].
  destruct (db_get (db st) id); [reflexivity|].
  destruct (rejects (S n)); [exact I|]. cbn [bind console]. reflexivity.
Qed.

Lemma store_for_items (rejects : nat -> bool) (fonte : Fonte)
  (items : list value) (st : State) (n : nat) :
  match Store.for_items rejects fonte items st n with
  | (st', _, None) => for_items fonte items st = (st', None)
  | (st', _, Some (Thrown e)) =>
      e = TypeError /\ for_items fonte items st = (st', Some e)
  | (st', _, Some Rejected) => True
  end.
Proof.
  revert st n; induction items as [|x items IH]; intros st n;
    cbn [Store.for_items for_items]; [reflexivity|].
  pose proof (store_process_item rejects fonte st n x) as Hx.
  destruct (Store.process_item rejects fonte st n x) as [[st1 n1] [[e|]|]].
  - destruct Hx as (-> & -> & ->). split; reflexivity.
  - exact I.
  - rewrite Hx. apply IH.
Qed.

Lemma store_for_grupos (rejects : nat -> bool) (grupos : list (Fonte * value))
  (st : State) (n : nat) :
  match Store.for_grupos rejects grupos st n with
  | (st', _, None) => for_grupos grupos st = (st', None)
  | (st', _, Some (Thrown e)) =>
      e = TypeError /\ for_grupos grupos st = (st', Some e)
  | (st', _, Some Rejected) => True
  end.
Proof.
  revert st n; induction grupos as [|[fonte dados] grupos IH]; intros st n;
    cbn [Store.for_grupos for_grupos]; [reflexivity|].
  destruct (iterate dados) as [items|e] eqn:Ei.
  - pose proof (store_for_items rejects fonte items st n) as Hi.
    destruct (Store.for_items rejects fonte items st n) as [[st1 n1] [[e|]|]].
    + destruct Hi as (-> & ->). split; reflexivity.
    + exact I.
    + rewrite Hi. apply IH.
  - split; [|reflexivity]. destruct dados; cbn [iterate] in Ei; congruence.
Qed.

Lemma store_no_rejection_item (rejects : nat -> bool) (fonte : Fonte)
  (st : State) (n : nat) (item : value) :
  (forall k, rejects k = false) ->
  snd (Store.process_item rejects fonte st n item) <> Some Rejected.
Proof.
  intro Hr. unfold Store.process_item.
  destruct (get_prop item (lit "titulo")) as [titulo|e]; [|discriminate].
  destruct (negb (truthy titulo)); [discriminate|].
  destruct (get_prop item (lit "prazo")) as [prazo|e]; [|discriminate].
  destruct (gerarIdEstavel (nome fonte) titulo prazo) as [id|e]; [|discriminate].
  rewrite !Hr. destruct (db_get (db st) id); [discriminate|].
  destruct (db_run_insert _ _); discriminate.
Qed.

Lemma store_no_rejection_items (rejects : nat -> bool) (fonte : Fonte)
  (items : list value) (st : State) (n : nat) :
  (forall k, rejects k = false) ->
  snd (Store.for_items rejects fonte items st n) <> Some Rejected.
Proof.
  intro Hr. revert st n; induction items as [|x items IH]; intros st n;
    cbn [Store.for_items]; [discriminate|].
  pose proof (store_no_rejection_item rejects fonte st n x Hr) as Hx.
  destruct (Store.process_item rejects fonte st n x) as [[st1 n1] [f|]];
    [exact Hx|apply IH].
Qed.

Lemma store_no_rejection_grupos (rejects : nat -> bool)
  (grupos : list (Fonte * value)) (st : State) (n : nat) :
  (forall k, rejects k = false) ->
  snd (Store.for_grupos rejects grupos st n) <> Some Rejected.
Proof.
  intro Hr. revert st n; induction grupos as [|[fonte dados] grupos IH]; intros st n;
    cbn [Store.for_grupos]; [discriminate|].
  destruct (iterate dados) as [items|e]; [|discriminate].
  pose proof (store_no_rejection_items rejects fonte items st n Hr) as Hi.
  destruct (Store.for_items rejects fonte items st n) as [[st1 n1] [f|]];
    [exact Hi|apply IH].
Qed.

(** How [main] can end, with a store that can fail.  Each of the four
    requests yields a value, a failed request, an empty text and a text that
    does not parse counting as a listing, so the loops are reached whenever
    [initDB] did not reject.  Whatever calls the store rejects, the run ends
    normally, or with the rejection of an awaited call of the store, or with
    the [TypeError] of a listing or of a record of the wrong shape: never
    with a [SyntaxError], and never because the table refused a row under an
    identity it holds; the message of the batch of the loops can always be
    composed, so the notification throws nothing.  A run that ends otherwise than by a rejection is the
    run of [main] without rejections, with the same table, console and
    exception; and with a store that rejects nothing no run ends by a
    rejection. *)
Theorem main_exceptions (rejects : nat -> bool) (env : Env)
  (ipea fnp undp iclei : option jsstring) (db0 : Table) :
  let out := Store.main rejects env ipea fnp undp iclei db0 in
  (exists dadosIPEA dadosFNP dadosUNDP dadosICLEI,
     consultarGemini ipea = Ok dadosIPEA /\ consultarGemini fnp = Ok dadosFNP
     /\ consultarGemini undp = Ok dadosUNDP /\ consultarGemini iclei = Ok dadosICLEI
     /\ main env ipea fnp undp iclei db0
        = run env (todosResultados dadosIPEA dadosFNP dadosUNDP dadosICLEI) db0
     /\ forall (N : NumberOps) (user to : jsstring),
          exists m,
            mailOptions user to
              (novasOportunidades
                 (fst (for_grupos
                         (todosResultados dadosIPEA dadosFNP dadosUNDP dadosICLEI)
                         (initial_state db0))))
            = Ok m)
  /\ (snd out = None \/ snd out = Some (Thrown TypeError) \/ snd out = Some Rejected)
  /\ (snd out = None -> main env ipea fnp undp iclei db0 = (fst out, None))
  /\ (forall e, snd out = Some (Thrown e) ->
        main env ipea fnp undp iclei db0 = (fst out, Some e))
  /\ ((forall n, rejects n = false) -> snd out <> Some Rejected).
Proof.
  unfold Store.main, main.
  destruct (consultarGemini_returns ipea) as (d1 & E1).
  destruct (consultarGemini_returns fnp) as (d2 & E2).
  destruct (consultarGemini_returns undp) as (d3 & E3).
  destruct (consultarGemini_returns iclei) as (d4 & E4).
  rewrite E1, E2, E3, E4. cbn [bind].
  split.
  { exists d1, d2, d3, d4. do 5 (split; [reflexivity|]). intros N user to.
    destruct (for_grupos_appends (todosResultados d1 d2 d3 d4) (initial_state db0))
      as (rows & ops & evs & _ & Hn & _ & _ & Hw & _).
    cbn [initial_state novasOportunidades app] in Hn. rewrite Hn.
    destruct (itensHtml_well_formed N _ _ Hw) as (h & Eh & _).
    unfold mailOptions. rewrite Eh. cbn [bind]. eexists. reflexivity. }
  destruct (rejects 0%nat) eqn:R0.
  { cbn [snd]. split; [tauto|]. split; [discriminate|]. split; [discriminate|].
    intro Hr. rewrite Hr in R0. discriminate. }
  unfold run.
  pose proof (store_for_grupos rejects (todosResultados d1 d2 d3 d4)
                (initial_state db0) 1%nat) as H.
  pose proof (store_no_rejection_grupos rejects (todosResultados d1 d2 d3 d4)
                (initial_state db0) 1%nat) as Hn.
  destruct (Store.for_grupos rejects (todosResultados d1 d2 d3 d4)
              (initial_state db0) 1%nat) as [[st n] [[e|]|]]; cbn [fst snd] in *.
  - destruct H as (-> & ->).
    split; [tauto|]. split; [discriminate|].
    split; [intros e H; injection H as <-; reflexivity|].
    intros _. discriminate.
  - split; [tauto|]. split; [discriminate|]. split; [discriminate|exact Hn].
  - rewrite H. destruct (rejects n) eqn:Rn.
    + split; [tauto|]. split; [discriminate|]. split; [discriminate|].
      intro Hr. rewrite Hr in Rn. discriminate.
    + split; [tauto|]. split; [reflexivity|]. split; discriminate.
Qed.

End Exceptions.

(** A store that rejects the insertion of the first new record: the line of
    the record has been written, the table has no row and nothing is sent;
    and one that rejects [db.close()], after the message has been sent. *)
Example store_rejects_insert :
  @Store.main Latin1Ops (fun n => Nat.eqb n 2) sample_env
    (Some sample_array) None None None []
  = ([], [LogDetectado (lit "IPEA") (lit "Edital 01/2025")], Some Rejected).
Proof. vm_compute. reflexivity. Qed.

Example store_rejects_close :
  snd (@Store.main Latin1Ops (fun n => Nat.eqb n 3) sample_env
         (Some sample_array) None None None [])
  = Some Rejected
  /\ fst (@Store.main Latin1Ops (fun n => Nat.eqb n 3) sample_env
            (Some sample_array) None None None [])
     = fst (@main Latin1Ops sample_env (Some sample_array) None None None []).
Proof. split; vm_compute; reflexivity. Qed.

(* ================================================================== *)
(** ** Items that are not records *)

Section Aborts.
Context {U : UnicodeOps}.

Lemma process_item_null (fonte : Fonte) (st : State) :
  process_item fonte st VNull = Throw TypeError.
Proof. reflexivity. Qed.

Lemma process_item_bad_title (fonte : Fonte) (st : State) (item titulo : value) :
  get_prop item (lit "titulo") = Ok titulo -> truthy titulo = true ->
  (forall t, titulo <> VStr t) ->
  process_item fonte st item = Throw TypeError.
Proof.
  intros Et Ht Hns. unfold process_item. rewrite Et. cbn [bind]. rewrite Ht. cbn [negb].
  destruct item as [| | | | | |props]; try discriminate; cbn [get_prop bind];
    destruct titulo; try reflexivity; try discriminate;
    exfalso; eapply Hns; reflexivity.
Qed.

Lemma for_grupos_app (a b : list (Fonte * value)) (st : State) :
  for_grupos (a ++ b) st
  = match for_grupos a st with
    | (st', None) => for_grupos b st'
    | (st', Some e) => (st', Some e)
    end.
Proof.
  revert st; induction a as [|[fonte dados] a IH]; intro st; [reflexivity|].
  cbn [app for_grupos]. destruct (iterate dados) as [items|e]; [|reflexivity].
  destruct (for_items fonte items st) as [st' [e|]]; [reflexivity|apply IH].
Qed.

(** An item that throws, in a listing at any place of the consolidated
    results: when the listings before it were processed without an exception,
    the run ends with a [TypeError], sends nothing, and leaves the table as
    the items before the offending one made it. *)
Lemma throwing_item_aborts_run (env : Env) (pre : list (Fonte * value))
  (fonte : Fonte) (item : value) (before after : list value)
  (rest : list (Fonte * value)) (db0 : Table) :
  (forall st, process_item fonte st item = Throw TypeError) ->
  snd (for_grupos pre (initial_state db0)) = None ->
  let st := fst (for_grupos pre (initial_state db0)) in
  let out := run env (pre ++ (fonte, VArr (before ++ item :: after)) :: rest) db0 in
  snd out = Some TypeError
  /\ existsb is_send (snd (fst out)) = false
  /\ fst (fst out) = db (fst (for_items fonte before st)).
Proof.
  intros Hthrow Hpre st out. unfold out, run. rewrite for_grupos_app.
  pose proof (no_send_grupos pre (initial_state db0) eq_refl) as Hc0.
  fold st in Hc0. subst st.
  destruct (for_grupos pre (initial_state db0)) as [st [e|]]; [discriminate|].
  cbn [fst snd] in *. cbn [for_grupos iterate]. rewrite for_items_app.
  pose proof (no_send_items fonte before st Hc0) as Hc.
  pose proof (for_items_exn fonte before st) as He.
  destruct (for_items fonte before st) as [st1 [e|]]; cbn [fst snd] in *.
  - rewrite (He e eq_refl). repeat split; assumption.
  - cbn [for_items]. rewrite Hthrow. cbn [fst snd]. repeat split; assumption.
Qed.

(** A [null] element of the agent's array, in the listing of any source,
    ends the run with a [TypeError]: reading its [titulo] throws in every
    state; when the listings before it were processed without an exception
    the run ends with that [TypeError], the rows inserted before it in the run
    stay in the table, and no message is sent. *)
Theorem null_item_aborts_run (env : Env) (pre : list (Fonte * value))
  (fonte : Fonte) (before after : list value) (rest : list (Fonte * value))
  (db0 : Table) :
  snd (for_grupos pre (initial_state db0)) = None ->
  let st := fst (for_grupos pre (initial_state db0)) in
  let out := run env (pre ++ (fonte, VArr (before ++ VNull :: after)) :: rest) db0 in
  get_prop VNull (lit "titulo") = Throw TypeError
  /\ (forall s, process_item fonte s VNull = Throw TypeError)
  /\ snd out = Some TypeError
  /\ existsb is_send (snd (fst out)) = false
  /\ fst (fst out) = db (fst (for_items fonte before st)).
Proof.
  intros Hpre st out. split; [reflexivity|].
  split; [intro s; apply process_item_null|].
  apply throwing_item_aborts_run; [|assumption]. intro s. apply process_item_null.
Qed.

(** A record whose [titulo] is a non-zero number, [true], an array or an
    object, in the listing of any source: [gerarIdEstavel] throws a
    [TypeError] on such a title whatever the name and the deadline, since it
    calls a string method on it; when the listings before it were processed
    without an exception the run ends with that [TypeError], the rows inserted
    before it in the run stay in the table, and no message is sent. *)
Theorem non_string_title_aborts_run (env : Env) (pre : list (Fonte * value))
  (fonte : Fonte) (item titulo : value) (before after : list value)
  (rest : list (Fonte * value)) (db0 : Table) :
  get_prop item (lit "titulo") = Ok titulo -> truthy titulo = true ->
  (forall t, titulo <> VStr t) ->
  snd (for_grupos pre (initial_state db0)) = None ->
  let st := fst (for_grupos pre (initial_state db0)) in
  let out := run env (pre ++ (fonte, VArr (before ++ item :: after)) :: rest) db0 in
  (forall fonteNome prazo, gerarIdEstavel fonteNome titulo prazo = Throw TypeError)
  /\ (forall s, process_item fonte s item = Throw TypeError)
  /\ snd out = Some TypeError
  /\ existsb is_send (snd (fst out)) = false
  /\ fst (fst out) = db (fst (for_items fonte before st)).
Proof.
  intros Et Ht Hns Hpre st out. split.
  { intros fonteNome prazo. unfold gerarIdEstavel.
    destruct titulo; try reflexivity. exfalso. eapply Hns. reflexivity. }
  split; [intro s; now apply (process_item_bad_title fonte s item titulo)|].
  apply throwing_item_aborts_run; [|assumption]. intro s.
  now apply (process_item_bad_title fonte s item titulo).
Qed.

End Aborts.

Lemma null_item_aborts_run_witness :
  let out := @run Latin1Ops sample_env
               ([(FONTE_IPEA, VArr [sample_record])]
                ++ [(FONTE_FNP, VArr ([sample_record] ++ [VNull; sample_record]));
                    (FONTE_UNDP, VArr [sample_record])])
               [] in
  snd out = Some TypeError
  /\ existsb is_send (snd (fst out)) = false
  /\ ids_of_table (fst (fst out))
     = [lit "IPEA-edital012025-15122025"; lit "FNP-edital012025-15122025"].
Proof.
  pose proof (@null_item_aborts_run Latin1Ops sample_env
                [(FONTE_IPEA, VArr [sample_record])] FONTE_FNP
                [sample_record] [sample_record]
                [(FONTE_UNDP, VArr [sample_record])] [] eq_refl) as H.
  cbv zeta in H. cbv zeta.
  destruct H as (_ & _ & H1 & H2 & H3).
  split; [exact H1|]. split; [exact H2|]. rewrite H3. reflexivity.
Defined.

Lemma non_string_title_aborts_run_witness :
  let out := @run Latin1Ops sample_env
               ([(FONTE_IPEA, VArr [sample_record])]
                ++ [(FONTE_FNP,
                     VArr ([sample_record]
                           ++ [VObj [(lit "titulo",
                                      VNum {| dec_neg := false; dec_mant := 57;
                                              dec_exp := 0 |})]]))])
               [] in
  snd out = Some TypeError
  /\ existsb is_send (snd (fst out)) = false
  /\ ids_of_table (fst (fst out))
     = [lit "IPEA-edital012025-15122025"; lit "FNP-edital012025-15122025"].
Proof.
  pose proof (@non_string_title_aborts_run Latin1Ops sample_env
                [(FONTE_IPEA, VArr [sample_record])] FONTE_FNP
                (VObj [(lit "titulo",
                        VNum {| dec_neg := false; dec_mant := 57; dec_exp := 0 |})])
                (VNum {| dec_neg := false; dec_mant := 57; dec_exp := 0 |})
                [sample_record] [] [] []
                eq_refl eq_refl (fun t => ltac:(discriminate)) eq_refl) as H.
  cbv zeta in H. cbv zeta.
  destruct H as (_ & _ & H1 & H2 & H3).
  split; [exact H1|]. split; [exact H2|]. rewrite H3. reflexivity.
Defined.

(* ================================================================== *)
(** ** No candidate is lost *)

Section Recorded.
Context {U : UnicodeOps}.

Lemma process_item_records (fonte : Fonte) (st st' : State) (item : value)
  (x : Row * Oportunidade * Event) :
  item_entry fonte item = Ok (Some x) ->
  process_item fonte st item = Ok st' ->
  In (row_id (fst (fst x))) (ids_of_table (db st')).
Proof.
  intros E. rewrite process_item_entry, E.
  destruct (db_get (db st) (row_id (fst (fst x)))) as [r|] eqn:Eg; intro H;
    apply Ok_inj in H; subst st'.
  - destruct (in_dec (list_eq_dec N.eq_dec) (row_id (fst (fst x)))
                (ids_of_table (db st))) as [Hin|Hout]; [assumption|].
    apply db_get_none in Hout. congruence.
  - unfold record_entry, ids_of_table. cbn [db]. rewrite map_app.
    apply in_or_app. right. now left.
Qed.

Lemma for_items_records (fonte : Fonte) (items : list value) (st : State)
  (item : value) (x : Row * Oportunidade * Event) :
  snd (for_items fonte items st) = None ->
  In item items -> item_entry fonte item = Ok (Some x) ->
  In (row_id (fst (fst x))) (ids_of_table (db (fst (for_items fonte items st)))).
Proof.
  revert st; induction items as [|y items IH]; intros st Hend Hin E;
    [destruct Hin|].
  cbn [for_items] in *.
  destruct (process_item fonte st y) as [st'|e] eqn:Ep; [|discriminate].
  destruct Hin as [->|Hin].
  - apply (for_items_grows fonte items st').
    eapply process_item_records; eassumption.
  - now apply IH.
Qed.

Lemma for_grupos_records (grupos : list (Fonte * value)) (st : State)
  (fonte : Fonte) (items : list value) (item : value)
  (x : Row * Oportunidade * Event) :
  snd (for_grupos grupos st) = None ->
  In (fonte, VArr items) grupos -> In item items ->
  item_entry fonte item = Ok (Some x) ->
  In (row_id (fst (fst x))) (ids_of_table (db (fst (for_grupos grupos st)))).
Proof.
  revert st; induction grupos as [|[f dados] grupos IH]; intros st Hend Hg Hin E;
    [destruct Hg|].
  cbn [for_grupos] in *.
  destruct (iterate dados) as [its|e] eqn:Ei; [|discriminate].
  pose proof (for_items_records f its st item x) as Hi.
  destruct (for_items f its st) as [st' [e|]] eqn:Ef; [discriminate|].
  cbn [fst snd] in *.
  destruct Hg as [Hg|Hg].
  - injection Hg as -> ->. cbn [iterate] in Ei. apply Ok_inj in Ei. subst its.
    apply (for_grupos_grows grupos st'). now apply Hi.
  - now apply IH.
Qed.

(** No candidate is lost: when the loops end without an exception, every
    item of every listing that has a truthy title has its identity in the
    table, either from before the run or from the batch of this run. *)
Theorem every_item_recorded (grupos : list (Fonte * value)) (db0 : Table)
  (fonte : Fonte) (items : list value) (item : value)
  (r : Row) (o : Oportunidade) (e : Event) :
  snd (for_grupos grupos (initial_state db0)) = None ->
  In (fonte, VArr items) grupos -> In item items ->
  item_entry fonte item = Ok (Some (r, o, e)) ->
  let st := fst (for_grupos grupos (initial_state db0)) in
  In (id_unico o) (ids_of_table (db st))
  /\ (In (id_unico o) (ids_of_table db0)
      \/ In (id_unico o) (ids_of_batch (novasOportunidades st))).
Proof.
  intros Hend Hg Hin E st.
  assert (id_unico o = row_id r) as ->.
  { apply item_entry_well_formed in E as ((-> & _) & _). reflexivity. }
  pose proof (for_grupos_records grupos (initial_state db0) fonte items item
                (r, o, e) Hend Hg Hin E) as H.
  cbn [fst] in H. fold st in H. split; [assumption|].
  destruct (for_grupos_appends grupos (initial_state db0))
    as (rows & ops & evs & Hdb & Hn & _ & Hm & _).
  fold st in Hdb, Hn. cbn [initial_state db novasOportunidades app] in Hdb, Hn.
  rewrite Hdb in H. rewrite Hn. unfold ids_of_table in H. rewrite map_app in H.
  apply in_app_or in H as [H|H]; [now left|right].
  unfold ids_of_batch. clear - H Hm.
  induction Hm as [|r' o' rows ops (Hid & _) _ IH]; [destruct H|].
  cbn [map In] in *. destruct H as [H|H]; [left; congruence|right; auto].
Qed.

End Recorded.

Lemma every_item_recorded_witness :
  let st := fst (@for_grupos Latin1Ops
                   [(FONTE_IPEA, VArr [sample_record])] (initial_state [])) in
  In (lit "IPEA-edital012025-15122025") (ids_of_table (db st))
  /\ (In (lit "IPEA-edital012025-15122025") (ids_of_table [])
      \/ In (lit "IPEA-edital012025-15122025")
           (ids_of_batch (novasOportunidades st))).
Proof.
  exact (@every_item_recorded Latin1Ops [(FONTE_IPEA, VArr [sample_record])] []
           FONTE_IPEA [sample_record] sample_record
           {| row_id := lit "IPEA-edital012025-15122025";
              row_projeto := VStr (lit "Edital 01/2025");
              row_prazo := VStr (lit "15/12/2025");
              row_fonte := nome FONTE_IPEA |}
           {| id_unico := lit "IPEA-edital012025-15122025";
              op_titulo := VStr (lit "Edital 01/2025");
              op_prazo := VStr (lit "15/12/2025");
              fonte_nome := nome FONTE_IPEA; fonte_url := url FONTE_IPEA;
              op_cor := cor FONTE_IPEA |}
           (LogDetectado (nome FONTE_IPEA) (lit "Edital 01/2025"))
           eq_refl (or_introl eq_refl) (or_introl eq_refl) eq_refl).
Defined.
